(** * Governance health scoring: a verification of the scoring and
      risk-derivation engine

    The TypeScript sources [health-scorer.ts], [risk-detector.ts] and the
    private helpers of [governance-analyzer.ts] are embedded as Rocq
    functions, and the properties the specification states about them are
    proved or refuted on the embedding.

    Conventions of the embedding:
    - a JavaScript [number] is an IEEE-754 binary64 value, modelled by
      [spec_float] with precision 53 and maximal exponent 1024; [*], [+],
      [-], [/] are the correctly rounded operations of [SpecFloat], so every
      intermediate result is the one the engine computes, NaN, infinities
      and signed zeros included;
    - a decimal literal is the binary64 value nearest to it;
    - an array is a list and [push] appends at its end;
    - an object read through [Object.entries] is the list of its entries in
      creation order;
    - the methods read no field of their instance, so they take none. *)

From Stdlib Require Import ZArith Lia Bool List String.
From Stdlib Require Import Floats.SpecFloat.
Import ListNotations.
Local Open Scope Z_scope.

(** ** JavaScript numbers *)

Module JS.

Definition number : Type := spec_float.

Definition prec : Z := 53.
Definition emax : Z := 1024.

Definition NaN : number := S754_nan.

(** Arithmetic operators [*], [+], [-], [/]. *)
Definition mul (x y : number) : number := SFmul prec emax x y.
Definition add (x y : number) : number := SFadd prec emax x y.
Definition sub (x y : number) : number := SFsub prec emax x y.
Definition div (x y : number) : number := SFdiv prec emax x y.

(** Relational operators [<], [>] and [>=]; all are false on NaN. *)
Definition lt (x y : number) : bool := SFltb x y.
Definition gt (x y : number) : bool := SFltb y x.
Definition ge (x y : number) : bool := SFleb y x.

(** An integer literal. *)
Definition of_Z (n : Z) : number := binary_normalize prec emax n 0 false.

(** A decimal literal [n / d]: the binary64 value nearest to the quotient,
    which is what correctly rounded division of the two integers yields. *)
Definition lit (n d : Z) : number := div (of_Z n) (of_Z d).

(** [Math.min(a, b)] and [Math.max(a, b)]: NaN is contagious and -0 is
    smaller than +0. *)
Definition Math_min (a b : number) : number :=
  match SFcompare a b with
  | None => NaN
  | Some Lt => a
  | Some Gt => b
  | Some Eq => match b with S754_zero true => b | _ => a end
  end.

Definition Math_max (a b : number) : number :=
  match SFcompare a b with
  | None => NaN
  | Some Lt => b
  | Some Gt => a
  | Some Eq => match b with S754_zero false => b | _ => a end
  end.

(** The signed integer mantissa of a finite number. *)
Definition signed (s : bool) (m : positive) : Z :=
  if s then Z.neg m else Z.pos m.

(** [Math.round(x)]: the integer nearest to [x], ties towards +infinity,
    that is [floor (x + 1/2)] computed exactly.  Non-finite and integral
    arguments are returned unchanged, and a result of zero keeps the sign of
    the argument. *)
Definition round_to_Z (s : bool) (m : positive) (e : Z) : Z :=
  (signed s m + 2 ^ (- e - 1)) / 2 ^ (- e).

Definition Math_round (x : number) : number :=
  match x with
  | S754_finite s m e =>
      if 0 <=? e then x
      else match round_to_Z s m e with
           | Z0 => S754_zero s
           | n => of_Z n
           end
  | _ => x
  end.

(** SameValueZero of ECMAScript: equal as numbers, with NaN equal to itself
    and the two zeros identified. *)
Definition SameValueZero (x y : number) : Prop :=
  x = y \/ (exists s t, x = S754_zero s /\ y = S754_zero t).

End JS.

Import JS.

Arguments of_Z : simpl never.
Arguments lit : simpl never.
Arguments mul : simpl never.
Arguments add : simpl never.
Arguments sub : simpl never.
Arguments div : simpl never.
Arguments lt : simpl never.
Arguments gt : simpl never.
Arguments ge : simpl never.
Arguments Math_min : simpl never.
Arguments Math_max : simpl never.
Arguments Math_round : simpl never.


(** ** Data model ([types/governance.ts]) *)

Record DAOMetrics : Type := {
  name : string;
  symbol : string;
  totalProposals : number;
  activeProposals : number;
  avgVoterTurnout : number;
  tokenConcentration : number;
  delegateActivity : number;
  proposalSuccessRate : number;
  avgProposalDuration : number;
  treasuryHealth : number;
  communityEngagement : number
}.

Inductive RiskType : Type := HIGH | MEDIUM | LOW.

Definition RiskType_eqb (a b : RiskType) : bool :=
  match a, b with
  | HIGH, HIGH | MEDIUM, MEDIUM | LOW, LOW => true
  | _, _ => false
  end.

Record Risk : Type := {
  type : RiskType;
  category : string;
  description : string;
  impact : string;
  mitigation : string
}.

(** The object literal returned by [calculateCategoryScores], the only place
    where category scores are built; its keys are created in this order. *)
Record CategoryScores : Type := {
  participation : number;
  decentralization : number;
  activity : number;
  transparency : number;
  stability : number
}.

(** A plain object whose property values are numbers: its own enumerable
    properties in insertion order, as [Object.entries] lists them. *)
Definition object : Type := list (string * number).

Definition Object_entries (c : CategoryScores) : object :=
  [ ("participation", participation c);
    ("decentralization", decentralization c);
    ("activity", activity c);
    ("transparency", transparency c);
    ("stability", stability c) ]%string.

(** Property read [o[k]]; [None] stands for [undefined]. *)
Fixpoint get (o : object) (k : string) : option number :=
  match o with
  | [] => None
  | (k', v) :: o' => if String.eqb k' k then Some v else get o' k
  end.

(** Coercion of a property read to a number: [undefined] becomes NaN. *)
Definition ToNumber (v : option number) : number :=
  match v with Some x => x | None => NaN end.

(** ** [HealthScorer] ([analyzers/health-scorer.ts]) *)

Module HealthScorer.

Definition weights : object :=
  [ ("participation", lit 25 100);
    ("decentralization", lit 25 100);
    ("activity", lit 20 100);
    ("transparency", lit 15 100);
    ("stability", lit 15 100) ]%string.

Definition calculateOverallScore (categoryScores : object) : number :=
  Math_round
    (fold_left
       (fun total entry =>
          let '(category, score) := entry in
          add total (mul score (ToNumber (get weights category))))
       categoryScores (of_Z 0)).

Definition calculateParticipationScore (metrics : DAOMetrics) : number :=
  let turnoutScore := Math_min (of_Z 100) (mul (avgVoterTurnout metrics) (of_Z 2)) in
  let delegateScore := Math_min (of_Z 100) (delegateActivity metrics) in
  let engagementScore := Math_min (of_Z 100) (communityEngagement metrics) in
  Math_round
    (add (add (mul turnoutScore (lit 4 10)) (mul delegateScore (lit 3 10)))
         (mul engagementScore (lit 3 10))).

Definition calculateDecentralizationScore (metrics : DAOMetrics) : number :=
  let concentrationScore :=
    Math_max (of_Z 0) (sub (of_Z 100) (tokenConcentration metrics)) in
  let delegateDistributionScore := Math_min (of_Z 100) (delegateActivity metrics) in
  Math_round
    (add (mul concentrationScore (lit 7 10))
         (mul delegateDistributionScore (lit 3 10))).

Definition calculateActivityScore (metrics : DAOMetrics) : number :=
  let proposalActivityScore :=
    Math_min (of_Z 100) (mul (div (totalProposals metrics) (of_Z 12)) (of_Z 20)) in
  let activeProposalsScore :=
    Math_min (of_Z 100) (mul (activeProposals metrics) (of_Z 25)) in
  let successRateScore := proposalSuccessRate metrics in
  Math_round
    (add (add (mul proposalActivityScore (lit 4 10))
              (mul activeProposalsScore (lit 3 10)))
         (mul successRateScore (lit 3 10))).

Definition calculateTransparencyScore (metrics : DAOMetrics) : number :=
  let proposalScore :=
    if gt (totalProposals metrics) (of_Z 10) then of_Z 80 else of_Z 50 in
  let durationScore :=
    if gt (avgProposalDuration metrics) (of_Z 3) then of_Z 70 else of_Z 40 in
  Math_round (add (mul proposalScore (lit 6 10)) (mul durationScore (lit 4 10))).

Definition calculateStabilityScore (metrics : DAOMetrics) : number :=
  let successRateScore := proposalSuccessRate metrics in
  let treasuryScore := treasuryHealth metrics in
  let durationScore :=
    Math_min (of_Z 100) (mul (avgProposalDuration metrics) (of_Z 10)) in
  Math_round
    (add (add (mul successRateScore (lit 4 10)) (mul treasuryScore (lit 3 10)))
         (mul durationScore (lit 3 10))).

Definition calculateCategoryScores (metrics : DAOMetrics) : CategoryScores :=
  {| participation := calculateParticipationScore metrics;
     decentralization := calculateDecentralizationScore metrics;
     activity := calculateActivityScore metrics;
     transparency := calculateTransparencyScore metrics;
     stability := calculateStabilityScore metrics |}.

End HealthScorer.

(** ** [RiskDetector] ([analyzers/risk-detector.ts]) *)

Module RiskDetector.

(** [risks.push(r)] on the local array. *)
Definition push (risks : list Risk) (r : Risk) : list Risk := risks ++ [r].

Definition lowTurnoutRisk : Risk :=
  {| type := HIGH;
     category := "Participation";
     description := "Extremely low voter turnout indicates governance apathy";
     impact := "Decisions may not represent community consensus";
     mitigation := "Implement voter incentives and education programs" |}.

Definition concentrationRisk : Risk :=
  {| type := HIGH;
     category := "Centralization";
     description := "High token concentration among few holders";
     impact := "Risk of governance capture and manipulation";
     mitigation := "Encourage token distribution and delegate diversity" |}.

Definition lowActivityRisk : Risk :=
  {| type := MEDIUM;
     category := "Activity";
     description := "Low governance activity may indicate disengagement";
     impact := "Important decisions may be delayed or ignored";
     mitigation := "Stimulate governance participation with clear processes" |}.

Definition lowSuccessRisk : Risk :=
  {| type := HIGH;
     category := "Stability";
     description := "Very low proposal success rate indicates governance dysfunction";
     impact := "Inability to make necessary protocol changes";
     mitigation := "Review proposal processes and consensus mechanisms" |}.

Definition lowDelegateRisk : Risk :=
  {| type := MEDIUM;
     category := "Delegation";
     description := "Low delegate activity may create governance bottlenecks";
     impact := "Reduced governance efficiency and representation";
     mitigation := "Implement delegate accountability and incentive systems" |}.

Definition identifyRisks (metrics : DAOMetrics) (categoryScores : CategoryScores)
  : list Risk :=
  let risks := [] in
  let risks :=
    if lt (avgVoterTurnout metrics) (of_Z 10) then push risks lowTurnoutRisk else risks in
  let risks :=
    if gt (tokenConcentration metrics) (of_Z 70) then push risks concentrationRisk else risks in
  let risks :=
    if lt (totalProposals metrics) (of_Z 5) then push risks lowActivityRisk else risks in
  let risks :=
    if lt (proposalSuccessRate metrics) (of_Z 30) then push risks lowSuccessRisk else risks in
  let risks :=
    if lt (delegateActivity metrics) (of_Z 20) then push risks lowDelegateRisk else risks in
  risks.

End RiskDetector.

(** ** Private helpers of [GovernanceAnalyzer] ([analyzers/governance-analyzer.ts]) *)

Module GovernanceAnalyzer.

Definition push (recommendations : list string) (s : string) : list string :=
  recommendations ++ [s].

Definition isHigh (r : Risk) : bool := RiskType_eqb (type r) HIGH.

Definition generateRecommendations (metrics : DAOMetrics) (risks : list Risk)
  : list string :=
  let recommendations := [] in
  let recommendations :=
    if lt (avgVoterTurnout metrics) (of_Z 20)
    then push recommendations
           "Consider implementing voter incentive programs to increase participation"
    else recommendations in
  let recommendations :=
    if gt (tokenConcentration metrics) (of_Z 50)
    then push recommendations
           "Token distribution is concentrated - diversification would improve governance health"
    else recommendations in
  let recommendations :=
    if lt (delegateActivity metrics) (of_Z 30)
    then push recommendations
           "Delegate engagement is low - consider delegate recognition programs"
    else recommendations in
  let recommendations :=
    if (0 <? List.length (filter isHigh risks))%nat
    then push recommendations
           "Address high-priority risks immediately to improve governance stability"
    else recommendations in
  let recommendations :=
    if lt (proposalSuccessRate metrics) (of_Z 40)
    then push recommendations
           "Low proposal success rate indicates potential consensus issues"
    else recommendations in
  recommendations.

Definition getInvestmentSignal (score : number) : string :=
  if ge score (of_Z 80) then "STRONG_BUY"
  else if ge score (of_Z 60) then "BUY"
  else if ge score (of_Z 40) then "HOLD"
  else "AVOID".

(** The computations of [analyzeDAO] between the fetch of the metrics and
    the assembly of the result. *)
Definition analysis (metrics : DAOMetrics)
  : CategoryScores * number * list Risk * list string :=
  let categoryScores := HealthScorer.calculateCategoryScores metrics in
  let overallScore :=
    HealthScorer.calculateOverallScore (Object_entries categoryScores) in
  let risks := RiskDetector.identifyRisks metrics categoryScores in
  let recommendations := generateRecommendations metrics risks in
  (categoryScores, overallScore, risks, recommendations).

Definition getRiskLevel (risks : list Risk) : string :=
  let highRisks := List.length (filter isHigh risks) in
  if (2 <? highRisks)%nat then "CRITICAL"
  else if (0 <? highRisks)%nat then "HIGH"
  else if (3 <? List.length risks)%nat then "MEDIUM"
  else "LOW".

End GovernanceAnalyzer.

Import HealthScorer RiskDetector GovernanceAnalyzer.


(** ** Reference definitions that follow the specification's wording

    They are compared with the embedded code in the theorems below. *)

(** The canonical risk ruleset of the specification, in declaration order:
    condition, severity and category of each rule. *)
Definition canonicalRuleset : list ((DAOMetrics -> bool) * (RiskType * string)) :=
  [ (fun m => lt (avgVoterTurnout m) (of_Z 10), (HIGH, "Participation"));
    (fun m => gt (tokenConcentration m) (of_Z 70), (HIGH, "Centralization"));
    (fun m => lt (totalProposals m) (of_Z 5), (MEDIUM, "Activity"));
    (fun m => lt (proposalSuccessRate m) (of_Z 30), (HIGH, "Stability"));
    (fun m => lt (delegateActivity m) (of_Z 20), (MEDIUM, "Delegation")) ]%string.

(** The full records the five rules emit, in declaration order. *)
Definition ruleRecords : list Risk :=
  [ lowTurnoutRisk; concentrationRisk; lowActivityRisk; lowSuccessRisk;
    lowDelegateRisk ].

(** What a list of rules emits on an input: the payloads of the rules whose
    condition holds, in rule order. *)
Definition fired {I A : Type} (rules : list ((I -> bool) * A)) (i : I) : list A :=
  map snd (filter (fun rule => fst rule i) rules).

(** The recommendation rules of the specification, in their fixed order. *)
Definition recommendationRules
  : list ((DAOMetrics * list Risk -> bool) * string) :=
  [ (fun i => lt (avgVoterTurnout (fst i)) (of_Z 20),
     "Consider implementing voter incentive programs to increase participation");
    (fun i => gt (tokenConcentration (fst i)) (of_Z 50),
     "Token distribution is concentrated - diversification would improve governance health");
    (fun i => lt (delegateActivity (fst i)) (of_Z 30),
     "Delegate engagement is low - consider delegate recognition programs");
    (fun i => (0 <? List.length (filter (fun r => RiskType_eqb (type r) HIGH) (snd i)))%nat,
     "Address high-priority risks immediately to improve governance stability");
    (fun i => lt (proposalSuccessRate (fst i)) (of_Z 40),
     "Low proposal success rate indicates potential consensus issues") ]%string.

(** The weighted sum of the specification, evaluated left to right. *)
Definition weightedSum (P D A T S : number) : number :=
  add (add (add (add (mul (lit 25 100) P) (mul (lit 25 100) D))
                (mul (lit 20 100) A))
           (mul (lit 15 100) T))
      (mul (lit 15 100) S).

(** The same sum with every term rounded on its own. *)
Definition roundedPerTerm (P D A T S : number) : number :=
  add (add (add (add (Math_round (mul (lit 25 100) P))
                     (Math_round (mul (lit 25 100) D)))
                (Math_round (mul (lit 20 100) A)))
           (Math_round (mul (lit 15 100) T)))
      (Math_round (mul (lit 15 100) S)).

(** The two-sided clamp of the specification. *)
Definition clamp (x : number) : number :=
  Math_min (of_Z 100) (Math_max (of_Z 0) x).

(** The one-sided cap the scorers apply. *)
Definition cap (x : number) : number := Math_min (of_Z 100) x.

Definition participationFormula (limit : number -> number) (m : DAOMetrics) : number :=
  Math_round
    (add (add (mul (lit 4 10) (limit (mul (avgVoterTurnout m) (of_Z 2))))
              (mul (lit 3 10) (limit (delegateActivity m))))
         (mul (lit 3 10) (limit (communityEngagement m)))).

(** The transparency score as a function of its two predicates. *)
Definition transparencyTable (manyProposals longDuration : bool) : Z :=
  match manyProposals, longDuration with
  | true, true => 76
  | true, false => 64
  | false, true => 58
  | false, false => 46
  end.

(** ** Concrete inputs *)

Definition metricsOf (tp ap vt tc da sr pd th ce : number) : DAOMetrics :=
  {| name := "DAO"; symbol := "DAO";
     totalProposals := tp; activeProposals := ap; avgVoterTurnout := vt;
     tokenConcentration := tc; delegateActivity := da;
     proposalSuccessRate := sr; avgProposalDuration := pd;
     treasuryHealth := th; communityEngagement := ce |}.

(** Scenario A of the specification. *)
Definition scenarioA : DAOMetrics :=
  metricsOf (of_Z 25) (of_Z 3) (of_Z 40) (of_Z 30) (of_Z 60) (of_Z 75)
            (of_Z 5) (of_Z 80) (of_Z 50).

(** An input with a negative turnout and nothing else unusual. *)
Definition negativeTurnout : DAOMetrics :=
  metricsOf (of_Z 25) (of_Z 3) (of_Z (-50)) (of_Z 30) (of_Z 0) (of_Z 75)
            (of_Z 5) (of_Z 80) (of_Z 0).

(** An adversarial input: negative turnout and concentration, a success rate
    far above 100. *)
Definition adversarial : DAOMetrics :=
  metricsOf (of_Z 25) (of_Z 3) (of_Z (-50)) (of_Z (-50)) (of_Z 60) (of_Z 1000)
            (of_Z 5) (of_Z 80) (of_Z 50).

Definition withTurnout (t : number) (m : DAOMetrics) : DAOMetrics :=
  {| name := name m; symbol := symbol m;
     totalProposals := totalProposals m; activeProposals := activeProposals m;
     avgVoterTurnout := t;
     tokenConcentration := tokenConcentration m;
     delegateActivity := delegateActivity m;
     proposalSuccessRate := proposalSuccessRate m;
     avgProposalDuration := avgProposalDuration m;
     treasuryHealth := treasuryHealth m;
     communityEngagement := communityEngagement m |}.

(** Scenario B of the specification. *)
Definition scenarioB : DAOMetrics :=
  metricsOf (of_Z 2) (of_Z 0) (of_Z 5) (of_Z 85) (of_Z 10) (of_Z 15)
            (of_Z 1) (of_Z 20) (of_Z 5).

(** Five category scores whose weighted sum is the tie 9.5 when the terms
    are added in the order of the record. *)
Definition tieScores : CategoryScores :=
  {| participation := of_Z 0; decentralization := of_Z 0; activity := of_Z 1;
     transparency := of_Z 46; stability := of_Z 16 |}.

(** The five category keys in the order [calculateCategoryScores] creates
    them, and the object that holds the scores of a record under these keys
    inserted in another order. *)
Definition categories : list string :=
  [ "participation"; "decentralization"; "activity"; "transparency";
    "stability" ]%string.

Definition entriesIn (keys : list string) (c : CategoryScores) : object :=
  map (fun k => (k, ToNumber (get (Object_entries c) k))) keys.

(** ** Reading binary64 numbers as integers

    Every finite binary64 number is an integer multiple of [2 ^ emin], the
    smallest positive number.  Numbers are compared and bounded through
    this integer reading. *)

Definition emin : Z := SpecFloat.emin prec emax.
Definition fexp (k : Z) : Z := SpecFloat.fexp prec emax k.

(** The reading of [2 ^ emax], which stands for the infinities. *)
Definition huge : Z := 2 ^ (emax - emin).

(** The value of a number in units of [2 ^ emin]. *)
Definition ext (x : number) : Z :=
  match x with
  | S754_zero _ => 0
  | S754_infinity s => if s then - huge else huge
  | S754_nan => 0
  | S754_finite s m e => signed s m * 2 ^ (e - emin)
  end.

(** A well-formed number: a canonical binary64 representation, not NaN. *)
Definition valid (x : number) : Prop := valid_binary prec emax x = true.
Definition wf (x : number) : Prop := valid x /\ x <> NaN.

(** [m / 2 ^ p] rounded to the nearest integer, ties to even. *)
Definition rne (m p : Z) : Z :=
  let q := m / 2 ^ p in
  match 2 * (m mod 2 ^ p) ?= 2 ^ p with
  | Lt => q
  | Gt => q + 1
  | Eq => if Z.even q then q else q + 1
  end.

(** The mantissa and the exponent to which [m * 2 ^ e], for [0 <= m], is
    rounded when the exponent range is unbounded above. *)
Definition rnd_exp (m e : Z) : Z := fexp (Zdigits2 m + e).
Definition rnd_mant (m e : Z) : Z :=
  let E := rnd_exp m e in
  if e <=? E then rne m (E - e) else m * 2 ^ (e - E).

(** The rounded value of [n * 2 ^ e] in units of [2 ^ emin], for any sign. *)
Definition rnd (n e : Z) : Z :=
  Z.sgn n * (rnd_mant (Z.abs n) e * 2 ^ (rnd_exp (Z.abs n) e - emin)).

(** Overflow turns a rounded value into an infinity. *)
Definition saturate (v : Z) : Z := Z.max (- huge) (Z.min huge v).

(** [floor (x + 1/2)] on a value in units of [2 ^ emin]. *)
Definition roundZ (v : Z) : Z := (2 * v + 2 ^ (- emin)) / 2 ^ (1 - emin).

(** The second half of the rounding kernel [binary_round_aux]: the rounded
    mantissa is renormalised and packed, overflow giving an infinity. *)
Definition finish (s : bool) (r E : Z) : number :=
  let '(mrs, e) := shr_fexp prec emax r E loc_Exact in
  match shr_m mrs with
  | Z0 => S754_zero s
  | Zpos m => if e <=? emax - prec then S754_finite s m e else S754_infinity s
  | Zneg _ => S754_nan
  end.

(** A number that carries the sign [s], or NaN. *)
Definition has_sign (s : bool) (x : number) : Prop :=
  match x with
  | S754_zero t | S754_infinity t | S754_finite t _ _ => t = s
  | S754_nan => True
  end.

(** The sign as a factor. *)
Definition sign_factor (s : bool) : Z := if s then -1 else 1.

(** Zero or finite: neither NaN nor an infinity. *)
Definition is_finite (x : number) : bool :=
  match x with
  | S754_zero _ | S754_finite _ _ _ => true
  | _ => false
  end.

(** ** Predicates on scores and inputs *)

(** [Math.round(x) === x]. *)
Definition isInteger (x : number) : bool := SFeqb (Math_round x) x.

(** An integer between 0 and 100: [x >= 0 && x <= 100 && Math.round(x) === x]. *)
Definition isScore (x : number) : bool :=
  ge x (of_Z 0) && ge (of_Z 100) x && isInteger x.

(** Every numeric field holds a number, not NaN, in its canonical binary64
    representation. *)
Definition wfMetrics (m : DAOMetrics) : Prop :=
  wf (totalProposals m) /\ wf (activeProposals m) /\ wf (avgVoterTurnout m) /\
  wf (tokenConcentration m) /\ wf (delegateActivity m) /\
  wf (proposalSuccessRate m) /\ wf (avgProposalDuration m) /\
  wf (treasuryHealth m) /\ wf (communityEngagement m).

(** Every numeric field is at least 0, and the two percentages the scorers
    use unclamped are at most 100. *)
Definition inExpectedRange (m : DAOMetrics) : bool :=
  ge (totalProposals m) (of_Z 0) && ge (activeProposals m) (of_Z 0) &&
  ge (avgVoterTurnout m) (of_Z 0) && ge (tokenConcentration m) (of_Z 0) &&
  ge (delegateActivity m) (of_Z 0) && ge (proposalSuccessRate m) (of_Z 0) &&
  ge (avgProposalDuration m) (of_Z 0) && ge (treasuryHealth m) (of_Z 0) &&
  ge (communityEngagement m) (of_Z 0) &&
  ge (of_Z 100) (proposalSuccessRate m) && ge (of_Z 100) (treasuryHealth m).

(** A positive finite constant, as the weights and scale factors are. *)
Definition posConst (c : number) : Prop :=
  valid c /\ is_finite c = true /\ 0 < ext c.

(** A well-formed number between 0 and 100. *)
Definition unit100 (x : number) : Prop :=
  wf x /\ 0 <= ext x <= ext (of_Z 100).

(** The largest value the weighted sums of three and of two terms reach. *)
Definition top3 : number :=
  add (add (mul (of_Z 100) (lit 4 10)) (mul (of_Z 100) (lit 3 10)))
      (mul (of_Z 100) (lit 3 10)).
Definition top2 : number :=
  add (mul (of_Z 100) (lit 7 10)) (mul (of_Z 100) (lit 3 10)).

(** ** The rest of [GovernanceAnalyzer]: report pieces, ranking, caching *)

From Stdlib Require Import Ascii Permutation Sorted.

(** Every numeric field is in canonical binary64 representation (NaN
    allowed). *)
Definition validMetrics (m : DAOMetrics) : Prop :=
  valid (totalProposals m) /\ valid (activeProposals m) /\
  valid (avgVoterTurnout m) /\ valid (tokenConcentration m) /\
  valid (delegateActivity m) /\ valid (proposalSuccessRate m) /\
  valid (avgProposalDuration m) /\ valid (treasuryHealth m) /\
  valid (communityEngagement m).

Definition withConcentration (c : number) (m : DAOMetrics) : DAOMetrics :=
  {| name := name m; symbol := symbol m;
     totalProposals := totalProposals m; activeProposals := activeProposals m;
     avgVoterTurnout := avgVoterTurnout m;
     tokenConcentration := c;
     delegateActivity := delegateActivity m;
     proposalSuccessRate := proposalSuccessRate m;
     avgProposalDuration := avgProposalDuration m;
     treasuryHealth := treasuryHealth m;
     communityEngagement := communityEngagement m |}.

Definition withDelegateActivity (d : number) (m : DAOMetrics) : DAOMetrics :=
  {| name := name m; symbol := symbol m;
     totalProposals := totalProposals m; activeProposals := activeProposals m;
     avgVoterTurnout := avgVoterTurnout m;
     tokenConcentration := tokenConcentration m;
     delegateActivity := d;
     proposalSuccessRate := proposalSuccessRate m;
     avgProposalDuration := avgProposalDuration m;
     treasuryHealth := treasuryHealth m;
     communityEngagement := communityEngagement m |}.

(** The overall score of the category scores of a metrics record, as
    [analyzeDAO] computes it. *)
Definition overallOf (m : DAOMetrics) : number :=
  calculateOverallScore (Object_entries (calculateCategoryScores m)).

(** The largest value the weighted sum of the overall score reaches. *)
Definition top5 : number :=
  add (add (add (add (add (of_Z 0) (mul (of_Z 100) (lit 25 100)))
                     (mul (of_Z 100) (lit 25 100)))
                (mul (of_Z 100) (lit 20 100)))
           (mul (of_Z 100) (lit 15 100)))
      (mul (of_Z 100) (lit 15 100)).

(** Order of the investment signals and of the risk levels, lowest first. *)
Definition signalRank (s : string) : nat :=
  if String.eqb s "STRONG_BUY" then 3
  else if String.eqb s "BUY" then 2
  else if String.eqb s "HOLD" then 1
  else 0.

Definition levelRank (s : string) : nat :=
  if String.eqb s "CRITICAL" then 3
  else if String.eqb s "HIGH" then 2
  else if String.eqb s "MEDIUM" then 1
  else 0.

(** The five recommendation texts. *)
Definition recTurnout : string :=
  "Consider implementing voter incentive programs to increase participation".
Definition recConcentration : string :=
  "Token distribution is concentrated - diversification would improve governance health".
Definition recDelegates : string :=
  "Delegate engagement is low - consider delegate recognition programs".
Definition recHighRisks : string :=
  "Address high-priority risks immediately to improve governance stability".
Definition recSuccessRate : string :=
  "Low proposal success rate indicates potential consensus issues".

(** *** Pieces of the template of [getDetailedReport] *)

Module Report.

Definition newline : string := String "010"%char EmptyString.

(** [s || fallback] on strings: the empty string is falsy. *)
Definition orElse (s fallback : string) : string :=
  if String.eqb s "" then fallback else s.

Definition isMedium (r : Risk) : bool := RiskType_eqb (type r) MEDIUM.

(** [`- **${r.category}**: ${r.description}`]. *)
Definition riskLine (r : Risk) : string :=
  ("- **" ++ category r ++ "**: " ++ description r)%string.

(** The text under "High Priority Risks". *)
Definition highPriorityRisks (risks : list Risk) : string :=
  orElse (String.concat newline (map riskLine (filter isHigh risks)))
         "None identified".

(** The text under "Medium Priority Risks". *)
Definition mediumPriorityRisks (risks : list Risk) : string :=
  orElse (String.concat newline (map riskLine (filter isMedium risks)))
         "None identified".

(** The text under "Investment Recommendations". *)
Definition recommendationLines (recommendations : list string) : string :=
  String.concat newline (map (fun rec => ("- " ++ rec)%string) recommendations).

(** "Governance Maturity". *)
Definition governanceMaturity (overallScore : number) : string :=
  if gt overallScore (of_Z 70) then "High"
  else if gt overallScore (of_Z 50) then "Medium"
  else "Low".

(** "Diversification". *)
Definition diversification (decentralization : number) : string :=
  if gt decentralization (of_Z 60) then "Well distributed" else "Concentrated".

End Report.

(** *** [Array.prototype.sort]

    ECMAScript requires the sort to be stable, and for a comparator that
    orders the elements consistently the result is the one stable sorted
    arrangement; insertion from left to right computes it.  An element goes
    before the first one the comparator puts it strictly before.

    For a comparator that is not consistent the order of the result is left
    to the engine, and this definition does not stand for it.  The
    difference of two scores is consistent on finite scores; it is NaN as
    soon as one score is NaN.  The properties of the ranking below are
    therefore stated for finite scores only. *)

Module JSArray.

Section Sort.
Context {A : Type}.
Variable comparefn : A -> A -> number.

Fixpoint insert (x : A) (sorted : list A) : list A :=
  match sorted with
  | [] => [x]
  | y :: rest =>
      if lt (comparefn x y) (of_Z 0) then x :: y :: rest
      else y :: insert x rest
  end.

Definition sort (l : list A) : list A :=
  fold_left (fun acc x => insert x acc) l [].
End Sort.

End JSArray.

(** *** [analyzeDAO], [getDAOMetrics] and the ranking of [compareDAOs] *)

Module AnalyzerIO.

Record GovernanceHealth : Type := {
  dao : string;
  overallScore : number;
  categoryScores : CategoryScores;
  risks : list Risk;
  recommendations : list string;
  lastUpdated : Z
}.

(** The settlement of an awaited promise: a value, or the message of the
    [Error] thrown. *)
Inductive outcome (A : Type) : Type :=
  | Resolved (value : A)
  | Rejected (message : string).
Arguments Resolved {A} value.
Arguments Rejected {A} message.

(** [CacheManager] ([utils/cache.ts]) forwards to a [NodeCache] built with
    [stdTTL: ttlSeconds] and [useClones: false].  The library is not part of
    the repository; its documented behaviour is modelled.  [set] stores the
    value itself together with the time at which it expires: the time of the
    call plus [stdTTL] seconds, or 0, which stands for never, when [stdTTL]
    is 0.  [get] returns the value stored last under the key unless it has
    expired, and [undefined], here [None], otherwise.  Times are what
    [Date.now()] reads, in milliseconds, and every call is given the time at
    which it happens.  An expired entry is treated as absent; the library
    also removes it, which no call the analyzer makes can tell. *)
Record CacheManager : Type := {
  stdTTL : Z;
  data : list (string * (Z * GovernanceHealth))
}.

(** [new CacheManager(ttlSeconds)]. *)
Definition newCacheManager (ttlSeconds : Z) : CacheManager :=
  {| stdTTL := ttlSeconds; data := [] |}.

Fixpoint lookup (d : list (string * (Z * GovernanceHealth))) (key : string)
  : option (Z * GovernanceHealth) :=
  match d with
  | [] => None
  | (k, e) :: d' => if String.eqb k key then Some e else lookup d' key
  end.

Definition cache_get (cache : CacheManager) (clock : Z) (key : string)
  : option GovernanceHealth :=
  match lookup (data cache) key with
  | Some (t, v) => if (t =? 0) || (clock <=? t) then Some v else None
  | None => None
  end.

Definition cache_set (cache : CacheManager) (clock : Z) (key : string)
    (value : GovernanceHealth) : CacheManager :=
  let t := if stdTTL cache =? 0 then 0 else clock + stdTTL cache * 1000 in
  {| stdTTL := stdTTL cache; data := (key, (t, value)) :: data cache |}.

(** The cache the constructor of [GovernanceAnalyzer] builds:
    [new CacheManager(1800)]. *)
Definition analyzerCache : CacheManager := newCacheManager 1800.

(** [`analysis_${platform}_${daoIdentifier}`]. *)
Definition cacheKey (platform daoIdentifier : string) : string :=
  ("analysis_" ++ platform ++ "_" ++ daoIdentifier)%string.

(** [tally] stands for what awaiting
    [this.tallyClient.getDAOMetrics(daoIdentifier)] gives: a value, or a
    rejection.  The class [TallyClient] of the repository declares no method
    of this name, so that with it the call throws and the promise is
    rejected; the properties below hold for every data source, this one
    included. *)
Definition getDAOMetrics (tally : string -> outcome DAOMetrics)
    (daoIdentifier platform : string) : outcome DAOMetrics :=
  if String.eqb platform "tally" then tally daoIdentifier
  else Rejected ("Platform " ++ platform ++ " not supported")%string.

(** The body of the [try] block of [analyzeDAO] after the metrics have
    arrived: the record [health].  [now] is what [new Date()] reads. *)
Definition assemble (metrics : DAOMetrics) (now : Z) : GovernanceHealth :=
  let categoryScores := calculateCategoryScores metrics in
  let overallScore := calculateOverallScore (Object_entries categoryScores) in
  let risks := identifyRisks metrics categoryScores in
  let recommendations := generateRecommendations metrics risks in
  {| dao := name metrics;
     overallScore := overallScore;
     categoryScores := categoryScores;
     risks := risks;
     recommendations := recommendations;
     lastUpdated := now |}.

(** The result is the settlement of the promise and the cache after the
    call.  The call reads the clock three times: [asked] is the time of the
    lookup in the cache, [now] is what [new Date()] reads when the record is
    built, and [stored] is the time at which the record is put into the
    cache. *)
Definition analyzeDAO (tally : string -> outcome DAOMetrics)
    (asked now stored : Z) (daoIdentifier platform : string)
    (cache : CacheManager) : outcome GovernanceHealth * CacheManager :=
  let key := cacheKey platform daoIdentifier in
  match cache_get cache asked key with
  | Some cached => (Resolved cached, cache)
  | None =>
      match getDAOMetrics tally daoIdentifier platform with
      | Rejected message => (Rejected message, cache)
      | Resolved metrics =>
          let health := assemble metrics now in
          (Resolved health, cache_set cache stored key health)
      end
  end.

(** The last step of [compareDAOs]:
    [analyses.sort((a, b) => b.overallScore - a.overallScore)]. *)
Definition rank (analyses : list GovernanceHealth) : list GovernanceHealth :=
  JSArray.sort (fun a b => sub (overallScore b) (overallScore a)) analyses.

End AnalyzerIO.

(** An analysis whose overall score is a finite number, and the order of
    two analyses by overall score. *)
Definition finiteScore (h : AnalyzerIO.GovernanceHealth) : Prop :=
  wf (AnalyzerIO.overallScore h) /\ is_finite (AnalyzerIO.overallScore h) = true.

Definition scoredAbove (a b : AnalyzerIO.GovernanceHealth) : Prop :=
  ge (AnalyzerIO.overallScore a) (AnalyzerIO.overallScore b) = true.

(** The analyses whose overall score equals a given number. *)
Definition sameScore (s : number) (h : AnalyzerIO.GovernanceHealth) : bool :=
  SFeqb (AnalyzerIO.overallScore h) s.

(** Five category scores that are all numbers between 0 and 100, and the
    pointwise order of two records of scores. *)
Definition scoresIn100 (c : CategoryScores) : Prop :=
  unit100 (participation c) /\ unit100 (decentralization c) /\
  unit100 (activity c) /\ unit100 (transparency c) /\ unit100 (stability c).

Definition scoresGe (c' c : CategoryScores) : bool :=
  ge (participation c') (participation c) &&
  ge (decentralization c') (decentralization c) &&
  ge (activity c') (activity c) &&
  ge (transparency c') (transparency c) &&
  ge (stability c') (stability c).

(** [improves m2 m1]: the input [m2] is at least as good as [m1] in every
    field but the number of proposals. *)
Definition improves (m2 m1 : DAOMetrics) : bool :=
  ge (activeProposals m2) (activeProposals m1) &&
  ge (avgVoterTurnout m2) (avgVoterTurnout m1) &&
  ge (tokenConcentration m1) (tokenConcentration m2) &&
  ge (delegateActivity m2) (delegateActivity m1) &&
  ge (proposalSuccessRate m2) (proposalSuccessRate m1) &&
  ge (avgProposalDuration m2) (avgProposalDuration m1) &&
  ge (treasuryHealth m2) (treasuryHealth m1) &&
  ge (communityEngagement m2) (communityEngagement m1).

(** Every capped term of the scorers that does not depend on the number of
    proposals has reached its cap, and two inputs that agree on the fields
    that are not capped. *)
Definition saturated (m : DAOMetrics) : bool :=
  ge (avgVoterTurnout m) (of_Z 50) && ge (tokenConcentration m) (of_Z 100) &&
  ge (delegateActivity m) (of_Z 100) && ge (communityEngagement m) (of_Z 100) &&
  ge (activeProposals m) (of_Z 4) && ge (avgProposalDuration m) (of_Z 10).

Definition sameUncapped (m1 m2 : DAOMetrics) : Prop :=
  totalProposals m1 = totalProposals m2 /\
  proposalSuccessRate m1 = proposalSuccessRate m2 /\
  treasuryHealth m1 = treasuryHealth m2.

(** Some numeric field of the input is NaN. *)
Definition hasNaN (m : DAOMetrics) : Prop :=
  totalProposals m = NaN \/ activeProposals m = NaN \/ avgVoterTurnout m = NaN \/
  tokenConcentration m = NaN \/ delegateActivity m = NaN \/
  proposalSuccessRate m = NaN \/ avgProposalDuration m = NaN \/
  treasuryHealth m = NaN \/ communityEngagement m = NaN.

(** ** The four operations as program text

    Whether a method depends on the clock, on [Math.random], on the fields
    of its instance or on what earlier calls left behind is a property of its
    text.  The methods of [HealthScorer], [identifyRisks] and
    [generateRecommendations] are therefore transcribed once more, as syntax
    trees of the fragment of JavaScript they are written in, and run by an
    interpreter that threads a world: the clock, the numbers [Math.random]
    is going to return, and the fields of the instance.  The fragment has
    expressions that read the world and a statement that writes it. *)

Module Script.

#[local] Set Warnings "-register-all".

Inductive value : Type :=
  | VUndefined
  | VNumber (n : number)
  | VString (s : string)
  | VBoolean (b : bool)
  | VObject (properties : list (string * value))
  | VArray (elements : list value).

(** The first binding of a name. *)
Fixpoint find {A : Type} (bindings : list (string * A)) (x : string) : option A :=
  match bindings with
  | [] => None
  | (y, a) :: rest => if String.eqb y x then Some a else find rest x
  end.

(** What a method can depend on besides its arguments. *)
Record World : Type := {
  clock : Z;
  random : list number;
  fields : list (string * value)
}.

Inductive binop : Type := Mul | Add | Sub | Div | Lt | Gt | StrictEq.

Inductive expr : Type :=
  | Num (n : number)
  | Str (s : string)
  | Var (x : string)
  | Member (e : expr) (p : string)
  | Index (e : expr) (k : expr)
  | Bin (op : binop) (a b : expr)
  | Cond (c a b : expr)
  | Object0
  | Field (o : expr) (p : string) (e : expr)
  | Array0
  | MathMin (a b : expr)
  | MathMax (a b : expr)
  | MathRound (a : expr)
  | ThisCall (m : string) (arg : expr)
  | EntriesReduce (o : expr) (total category score : string) (body init : expr)
  | Filter (a : expr) (r : string) (test : expr)
  | NewDate
  | MathRandom
  | ThisField (f : string).

(** The object literal [{ p1: e1, ..., pn: en }]. *)
Definition object_literal (properties : list (string * expr)) : expr :=
  fold_left (fun o property => Field o (fst property) (snd property)) properties Object0.

Inductive stmt : Type :=
  | Const (x : string) (e : expr)
  | IfPush (c : expr) (array : string) (e : expr)
  | Return (e : expr)
  | SetThisField (f : string) (e : expr).

Record method : Type := { params : list string; body : list stmt }.

Definition class : Type := list (string * method).

(** A value and the world after the evaluation; [None] when the evaluation
    fails or leaves the fragment. *)
Definition result : Type := option (value * World).

(** Conversion of an operand to a number; [undefined] becomes NaN. *)
Definition toNumber (v : value) : option number :=
  match v with
  | VNumber n => Some n
  | VUndefined => Some NaN
  | _ => None
  end.

Definition arithmetic (f : number -> number -> number) (a b : value) : option value :=
  match toNumber a, toNumber b with
  | Some x, Some y => Some (VNumber (f x y))
  | _, _ => None
  end.

Definition comparison (f : number -> number -> bool) (a b : value) : option value :=
  match toNumber a, toNumber b with
  | Some x, Some y => Some (VBoolean (f x y))
  | _, _ => None
  end.

Definition binary (op : binop) (a b : value) : option value :=
  match op with
  | Mul => arithmetic mul a b
  | Add => arithmetic add a b
  | Sub => arithmetic sub a b
  | Div => arithmetic div a b
  | Lt => comparison lt a b
  | Gt => comparison gt a b
  | StrictEq =>
      match a, b with
      | VString s, VString t => Some (VBoolean (String.eqb s t))
      | VNumber x, VNumber y => Some (VBoolean (SFeqb x y))
      | _, _ => None
      end
  end.

(** [v.p]: a property of an object, [undefined] when it has none of this
    name, or the length of an array. *)
Definition member (v : value) (p : string) : option value :=
  match v with
  | VObject properties =>
      Some (match find properties p with Some x => x | None => VUndefined end)
  | VArray elements =>
      if String.eqb p "length"
      then Some (VNumber (of_Z (Z.of_nat (List.length elements))))
      else None
  | _ => None
  end.

Definition index (v k : value) : option value :=
  match k with
  | VString p => member v p
  | _ => None
  end.

(** [Object.entries(o).reduce(step, init)] on the entries of [o]. *)
Fixpoint reduceEntries (step : value -> string -> value -> World -> result)
    (entries : list (string * value)) (total : value) (w : World) : result :=
  match entries with
  | [] => Some (total, w)
  | (k, v) :: rest =>
      match step total k v w with
      | Some (total', w') => reduceEntries step rest total' w'
      | None => None
      end
  end.

(** [a.filter(test)] on the elements of [a]. *)
Fixpoint filterElements (test : value -> World -> result) (elements : list value)
    (w : World) : option (list value * World) :=
  match elements with
  | [] => Some ([], w)
  | x :: rest =>
      match test x w with
      | Some (VBoolean b, w') =>
          match filterElements test rest w' with
          | Some (kept, w'') => Some (if b then x :: kept else kept, w'')
          | None => None
          end
      | _ => None
      end
  end.

Section Interpreter.

(** [call m v w]: the call [this.m(v)] in the world [w]. *)
Variable call : string -> value -> World -> result.

Fixpoint eval (w : World) (env : list (string * value)) (e : expr) {struct e}
  : result :=
  let both (a b : expr) (f : value -> value -> option value) : result :=
    match eval w env a with
    | Some (x, w1) =>
        match eval w1 env b with
        | Some (y, w2) =>
            match f x y with Some z => Some (z, w2) | None => None end
        | None => None
        end
    | None => None
    end in
  match e with
  | Num n => Some (VNumber n, w)
  | Str s => Some (VString s, w)
  | Var x => match find env x with Some v => Some (v, w) | None => None end
  | Member e p =>
      match eval w env e with
      | Some (v, w1) =>
          match member v p with Some x => Some (x, w1) | None => None end
      | None => None
      end
  | Index e k => both e k index
  | Bin op a b => both a b (binary op)
  | Cond c a b =>
      match eval w env c with
      | Some (VBoolean t, w1) => if t then eval w1 env a else eval w1 env b
      | _ => None
      end
  | Object0 => Some (VObject [], w)
  | Field o p e =>
      match eval w env o with
      | Some (VObject properties, w1) =>
          match eval w1 env e with
          | Some (v, w2) => Some (VObject (properties ++ [(p, v)]), w2)
          | None => None
          end
      | _ => None
      end
  | Array0 => Some (VArray [], w)
  | MathMin a b => both a b (arithmetic Math_min)
  | MathMax a b => both a b (arithmetic Math_max)
  | MathRound a =>
      match eval w env a with
      | Some (x, w1) =>
          match toNumber x with
          | Some n => Some (VNumber (Math_round n), w1)
          | None => None
          end
      | None => None
      end
  | ThisCall m arg =>
      match eval w env arg with
      | Some (v, w1) => call m v w1
      | None => None
      end
  | EntriesReduce o total category score body init =>
      match eval w env o with
      | Some (VObject entries, w1) =>
          match eval w1 env init with
          | Some (start, w2) =>
              reduceEntries
                (fun acc k v w' =>
                   eval w' ((total, acc) :: (category, VString k) :: (score, v) :: env)
                        body)
                entries start w2
          | None => None
          end
      | _ => None
      end
  | Filter a r test =>
      match eval w env a with
      | Some (VArray elements, w1) =>
          match filterElements (fun x w' => eval w' ((r, x) :: env) test)
                               elements w1 with
          | Some (kept, w2) => Some (VArray kept, w2)
          | None => None
          end
      | _ => None
      end
  | NewDate => Some (VNumber (of_Z (clock w)), w)
  | MathRandom =>
      match random w with
      | x :: rest =>
          Some (VNumber x, {| clock := clock w; random := rest; fields := fields w |})
      | [] => None
      end
  | ThisField f =>
      Some (match find (fields w) f with Some v => v | None => VUndefined end, w)
  end.

(** The statements of a method body, up to its [return]. *)
Fixpoint exec (w : World) (env : list (string * value)) (statements : list stmt)
  : result :=
  match statements with
  | [] => Some (VUndefined, w)
  | Const x e :: rest =>
      match eval w env e with
      | Some (v, w1) => exec w1 ((x, v) :: env) rest
      | None => None
      end
  | IfPush c array e :: rest =>
      match eval w env c with
      | Some (VBoolean true, w1) =>
          match eval w1 env e, find env array with
          | Some (v, w2), Some (VArray elements) =>
              exec w2 ((array, VArray (elements ++ [v])) :: env) rest
          | _, _ => None
          end
      | Some (VBoolean false, w1) => exec w1 env rest
      | _ => None
      end
  | Return e :: _ => eval w env e
  | SetThisField f e :: rest =>
      match eval w env e with
      | Some (v, w1) =>
          exec {| clock := clock w1; random := random w1;
                  fields := (f, v) :: fields w1 |} env rest
      | None => None
      end
  end.

End Interpreter.

(** The call of the method [m] of an instance of [cls]; the calls the
    method makes on [this] go to the same class, with less fuel. *)
Fixpoint invoke (cls : class) (fuel : nat) (m : string) (args : list value)
    (w : World) : result :=
  match fuel with
  | O => None
  | S fuel' =>
      match find cls m with
      | Some code =>
          exec (fun m' arg w' => invoke cls fuel' m' [arg] w') w
               (combine (params code) args) (body code)
      | None => None
      end
  end.

(** A call that returns [r] in every world and leaves the world as it found
    it: its result depends on nothing but the class, the method and the
    arguments, and it has no effect. *)
Definition stateless (cls : class) (fuel : nat) (m : string) (args : list value)
    (r : value) : Prop :=
  forall w : World, invoke cls fuel m args w = Some (r, w).

(** *** [health-scorer.ts] *)

Definition weighted (a : expr) (weight : number) : expr := Bin Mul a (Num weight).

Definition HealthScorer : class :=
  [ ("calculateCategoryScores",
     {| params := ["metrics"];
        body :=
          [ Return
              (object_literal
                 [ ("participation",
                    ThisCall "calculateParticipationScore" (Var "metrics"));
                   ("decentralization",
                    ThisCall "calculateDecentralizationScore" (Var "metrics"));
                   ("activity", ThisCall "calculateActivityScore" (Var "metrics"));
                   ("transparency",
                    ThisCall "calculateTransparencyScore" (Var "metrics"));
                   ("stability", ThisCall "calculateStabilityScore" (Var "metrics")) ])
          ] |});
    ("calculateOverallScore",
     {| params := ["categoryScores"];
        body :=
          [ Const "weights"
              (object_literal
                 [ ("participation", Num (lit 25 100));
                   ("decentralization", Num (lit 25 100));
                   ("activity", Num (lit 20 100));
                   ("transparency", Num (lit 15 100));
                   ("stability", Num (lit 15 100)) ]);
            Return
              (MathRound
                 (EntriesReduce (Var "categoryScores") "total" "category" "score"
                    (Bin Add (Var "total")
                       (Bin Mul (Var "score") (Index (Var "weights") (Var "category"))))
                    (Num (of_Z 0)))) ] |});
    ("calculateParticipationScore",
     {| params := ["metrics"];
        body :=
          [ Const "turnoutScore"
              (MathMin (Num (of_Z 100))
                 (Bin Mul (Member (Var "metrics") "avgVoterTurnout") (Num (of_Z 2))));
            Const "delegateScore"
              (MathMin (Num (of_Z 100)) (Member (Var "metrics") "delegateActivity"));
            Const "engagementScore"
              (MathMin (Num (of_Z 100)) (Member (Var "metrics") "communityEngagement"));
            Return
              (MathRound
                 (Bin Add
                    (Bin Add (weighted (Var "turnoutScore") (lit 4 10))
                             (weighted (Var "delegateScore") (lit 3 10)))
                    (weighted (Var "engagementScore") (lit 3 10)))) ] |});
    ("calculateDecentralizationScore",
     {| params := ["metrics"];
        body :=
          [ Const "concentrationScore"
              (MathMax (Num (of_Z 0))
                 (Bin Sub (Num (of_Z 100)) (Member (Var "metrics") "tokenConcentration")));
            Const "delegateDistributionScore"
              (MathMin (Num (of_Z 100)) (Member (Var "metrics") "delegateActivity"));
            Return
              (MathRound
                 (Bin Add (weighted (Var "concentrationScore") (lit 7 10))
                          (weighted (Var "delegateDistributionScore") (lit 3 10)))) ] |});
    ("calculateActivityScore",
     {| params := ["metrics"];
        body :=
          [ Const "proposalActivityScore"
              (MathMin (Num (of_Z 100))
                 (Bin Mul
                    (Bin Div (Member (Var "metrics") "totalProposals") (Num (of_Z 12)))
                    (Num (of_Z 20))));
            Const "activeProposalsScore"
              (MathMin (Num (of_Z 100))
                 (Bin Mul (Member (Var "metrics") "activeProposals") (Num (of_Z 25))));
            Const "successRateScore" (Member (Var "metrics") "proposalSuccessRate");
            Return
              (MathRound
                 (Bin Add
                    (Bin Add (weighted (Var "proposalActivityScore") (lit 4 10))
                             (weighted (Var "activeProposalsScore") (lit 3 10)))
                    (weighted (Var "successRateScore") (lit 3 10)))) ] |});
    ("calculateTransparencyScore",
     {| params := ["metrics"];
        body :=
          [ Const "proposalScore"
              (Cond (Bin Gt (Member (Var "metrics") "totalProposals") (Num (of_Z 10)))
                    (Num (of_Z 80)) (Num (of_Z 50)));
            Const "durationScore"
              (Cond (Bin Gt (Member (Var "metrics") "avgProposalDuration") (Num (of_Z 3)))
                    (Num (of_Z 70)) (Num (of_Z 40)));
            Return
              (MathRound
                 (Bin Add (weighted (Var "proposalScore") (lit 6 10))
                          (weighted (Var "durationScore") (lit 4 10)))) ] |});
    ("calculateStabilityScore",
     {| params := ["metrics"];
        body :=
          [ Const "successRateScore" (Member (Var "metrics") "proposalSuccessRate");
            Const "treasuryScore" (Member (Var "metrics") "treasuryHealth");
            Const "durationScore"
              (MathMin (Num (of_Z 100))
                 (Bin Mul (Member (Var "metrics") "avgProposalDuration") (Num (of_Z 10))));
            Return
              (MathRound
                 (Bin Add
                    (Bin Add (weighted (Var "successRateScore") (lit 4 10))
                             (weighted (Var "treasuryScore") (lit 3 10)))
                    (weighted (Var "durationScore") (lit 3 10)))) ] |})
  ]%string.

(** *** [risk-detector.ts] *)

Definition risk_literal (type category description impact mitigation : string) : expr :=
  object_literal
    [ ("type", Str type); ("category", Str category);
      ("description", Str description); ("impact", Str impact);
      ("mitigation", Str mitigation) ]%string.

Definition RiskDetector : class :=
  [ ("identifyRisks",
     {| params := ["metrics"; "categoryScores"];
        body :=
          [ Const "risks" Array0;
            IfPush (Bin Lt (Member (Var "metrics") "avgVoterTurnout") (Num (of_Z 10)))
              "risks"
              (risk_literal "HIGH" "Participation"
                 "Extremely low voter turnout indicates governance apathy"
                 "Decisions may not represent community consensus"
                 "Implement voter incentives and education programs");
            IfPush (Bin Gt (Member (Var "metrics") "tokenConcentration") (Num (of_Z 70)))
              "risks"
              (risk_literal "HIGH" "Centralization"
                 "High token concentration among few holders"
                 "Risk of governance capture and manipulation"
                 "Encourage token distribution and delegate diversity");
            IfPush (Bin Lt (Member (Var "metrics") "totalProposals") (Num (of_Z 5)))
              "risks"
              (risk_literal "MEDIUM" "Activity"
                 "Low governance activity may indicate disengagement"
                 "Important decisions may be delayed or ignored"
                 "Stimulate governance participation with clear processes");
            IfPush (Bin Lt (Member (Var "metrics") "proposalSuccessRate") (Num (of_Z 30)))
              "risks"
              (risk_literal "HIGH" "Stability"
                 "Very low proposal success rate indicates governance dysfunction"
                 "Inability to make necessary protocol changes"
                 "Review proposal processes and consensus mechanisms");
            IfPush (Bin Lt (Member (Var "metrics") "delegateActivity") (Num (of_Z 20)))
              "risks"
              (risk_literal "MEDIUM" "Delegation"
                 "Low delegate activity may create governance bottlenecks"
                 "Reduced governance efficiency and representation"
                 "Implement delegate accountability and incentive systems");
            Return (Var "risks") ] |})
  ]%string.

(** *** [generateRecommendations] of [governance-analyzer.ts] *)

Definition GovernanceAnalyzer : class :=
  [ ("generateRecommendations",
     {| params := ["metrics"; "risks"];
        body :=
          [ Const "recommendations" Array0;
            IfPush (Bin Lt (Member (Var "metrics") "avgVoterTurnout") (Num (of_Z 20)))
              "recommendations"
              (Str "Consider implementing voter incentive programs to increase participation");
            IfPush (Bin Gt (Member (Var "metrics") "tokenConcentration") (Num (of_Z 50)))
              "recommendations"
              (Str "Token distribution is concentrated - diversification would improve governance health");
            IfPush (Bin Lt (Member (Var "metrics") "delegateActivity") (Num (of_Z 30)))
              "recommendations"
              (Str "Delegate engagement is low - consider delegate recognition programs");
            IfPush
              (Bin Gt
                 (Member
                    (Filter (Var "risks") "r"
                       (Bin StrictEq (Member (Var "r") "type") (Str "HIGH")))
                    "length")
                 (Num (of_Z 0)))
              "recommendations"
              (Str "Address high-priority risks immediately to improve governance stability");
            IfPush (Bin Lt (Member (Var "metrics") "proposalSuccessRate") (Num (of_Z 40)))
              "recommendations"
              (Str "Low proposal success rate indicates potential consensus issues");
            Return (Var "recommendations") ] |})
  ]%string.

(** The field [lastUpdated: new Date()] that [analyzeDAO] adds to the
    result. *)
Definition lastUpdated : expr := NewDate.

(** *** The data of the embedding as values of the fragment *)

Definition ofMetrics (m : DAOMetrics) : value :=
  VObject
    [ ("name", VString (name m)); ("symbol", VString (symbol m));
      ("totalProposals", VNumber (totalProposals m));
      ("activeProposals", VNumber (activeProposals m));
      ("avgVoterTurnout", VNumber (avgVoterTurnout m));
      ("tokenConcentration", VNumber (tokenConcentration m));
      ("delegateActivity", VNumber (delegateActivity m));
      ("proposalSuccessRate", VNumber (proposalSuccessRate m));
      ("avgProposalDuration", VNumber (avgProposalDuration m));
      ("treasuryHealth", VNumber (treasuryHealth m));
      ("communityEngagement", VNumber (communityEngagement m)) ]%string.

Definition ofObject (o : object) : value :=
  VObject (map (fun entry => (fst entry, VNumber (snd entry))) o).

Definition ofRiskType (t : RiskType) : string :=
  match t with HIGH => "HIGH" | MEDIUM => "MEDIUM" | LOW => "LOW" end.

Definition ofRisk (r : Risk) : value :=
  VObject
    [ ("type", VString (ofRiskType (type r))); ("category", VString (category r));
      ("description", VString (description r)); ("impact", VString (impact r));
      ("mitigation", VString (mitigation r)) ]%string.

Definition ofRisks (risks : list Risk) : value := VArray (map ofRisk risks).

Definition ofStrings (l : list string) : value := VArray (map VString l).

End Script.

(** ** Sanity checks of the number model *)

Example round_samples :
  Math_round (lit 85 10) = of_Z 9 /\ Math_round (lit (-85) 10) = of_Z (-8) /\
  Math_round (lit (-3) 10) = S754_zero true /\ Math_round (lit 24 10) = of_Z 2.
Proof. vm_compute. repeat split. Qed.

(** Well-known values: 0.1 + 0.2 is not 0.3, [Math.round] sends -0.5 to -0,
    2.5 to 3 and the predecessor of 0.5 to 0, and [Math.min(0, -0)] is -0. *)
Example arithmetic_samples :
  add (lit 1 10) (lit 2 10) = S754_finite false 5404319552844596 (-54) /\
  add (lit 1 10) (lit 2 10) <> lit 3 10 /\
  Math_round (lit (-1) 2) = S754_zero true /\
  Math_round (lit 5 2) = of_Z 3 /\
  Math_round (S754_finite false 9007199254740991 (-54)) = S754_zero false /\
  Math_min (S754_zero false) (S754_zero true) = S754_zero true /\
  Math_max (of_Z 0) NaN = NaN.
Proof. vm_compute. repeat split; discriminate. Qed.

Example literal_samples :
  lit 4 10 = S754_finite false 7205759403792794 (-54) /\
  of_Z 100 = S754_finite false 7036874417766400 (-46) /\
  mul (of_Z 15) (lit 7 10) = lit 105 10.
Proof. vm_compute. repeat split. Qed.

(** The weighted sum of the scores 59, 70, 74, 76, 27 is 62.49999999999999 in
    binary64, so the overall score is 62. *)
Example overall_score_sample :
  calculateOverallScore
    (Object_entries
       (Build_CategoryScores (of_Z 59) (of_Z 70) (of_Z 74) (of_Z 76) (of_Z 27)))
  = of_Z 62.
Proof. vm_compute. reflexivity. Qed.

(** ** Structural facts on the arithmetic *)

Lemma mul_comm (x y : number) : mul x y = mul y x.
Proof.
  destruct x as [sx|sx| |sx mx ex], y as [sy|sy| |sy my ey]; unfold mul; simpl;
    try reflexivity; try (rewrite xorb_comm; reflexivity).
  rewrite xorb_comm, Pos.mul_comm, Z.add_comm. reflexivity.
Qed.

(** The sign of whatever [binary_round_aux] returns is the sign it was given. *)
Lemma binary_round_aux_sign s m e l :
  has_sign s (binary_round_aux prec emax s m e l).
Proof.
  unfold binary_round_aux.
  destruct (shr_fexp prec emax m e l) as [mrs' e'].
  destruct (shr_fexp prec emax _ e' loc_Exact) as [mrs'' e''].
  destruct (shr_m mrs''); simpl; auto.
  match goal with |- context [if ?b then _ else _] => destruct b end; simpl; auto.
Qed.

Lemma mul_sign (x y : number) sx sy :
  has_sign sx x -> has_sign sy y -> has_sign (xorb sx sy) (mul x y).
Proof.
  destruct x as [tx|tx| |tx mx ex], y as [ty|ty| |ty my ey]; unfold mul; simpl;
    intros; subst; auto.
  apply binary_round_aux_sign.
Qed.

Lemma SameValueZero_refl x : SameValueZero x x.
Proof. left; reflexivity. Qed.

Lemma SameValueZero_sym x y : SameValueZero x y -> SameValueZero y x.
Proof.
  intros [->|(s & t & -> & ->)]; [left; reflexivity|right; eauto].
Qed.

Lemma SameValueZero_zero s t : SameValueZero (S754_zero s) (S754_zero t).
Proof. right; eauto. Qed.

Lemma add_zero_zero s t : exists u, add (S754_zero s) (S754_zero t) = S754_zero u.
Proof. destruct s, t; cbv; eauto. Qed.

Lemma add_SameValueZero x x' y y' :
  SameValueZero x x' -> SameValueZero y y' -> SameValueZero (add x y) (add x' y').
Proof.
  intros [->|(s & t & -> & ->)] [->|(u & v & -> & ->)].
  - apply SameValueZero_refl.
  - destruct x' as [sx|sx| |sx mx ex];
      try (left; reflexivity).
    destruct (add_zero_zero sx u) as [a ->], (add_zero_zero sx v) as [b ->].
    apply SameValueZero_zero.
  - destruct y' as [sy|sy| |sy my ey];
      try (left; reflexivity).
    destruct (add_zero_zero s sy) as [a ->], (add_zero_zero t sy) as [b ->].
    apply SameValueZero_zero.
  - destruct (add_zero_zero s u) as [a ->], (add_zero_zero t v) as [b ->].
    apply SameValueZero_zero.
Qed.

Lemma mul_SameValueZero x x' c :
  SameValueZero x x' -> SameValueZero (mul x c) (mul x' c).
Proof.
  intros [->|(s & t & -> & ->)]; [apply SameValueZero_refl|].
  destruct c as [sc|sc| |sc mc ec]; unfold mul; simpl;
    try apply SameValueZero_zero; apply SameValueZero_refl.
Qed.

Lemma Math_round_SameValueZero x x' :
  SameValueZero x x' -> SameValueZero (Math_round x) (Math_round x').
Proof.
  intros [->|(s & t & -> & ->)]; [apply SameValueZero_refl|].
  apply SameValueZero_zero.
Qed.

Lemma Math_min_100_SameValueZero x x' :
  SameValueZero x x' -> SameValueZero (Math_min (of_Z 100) x) (Math_min (of_Z 100) x').
Proof.
  intros [->|(s & t & -> & ->)]; [apply SameValueZero_refl|].
  vm_compute. right; eauto.
Qed.

(** For a number that is not negative the lower bound of the clamp is idle,
    up to the sign of zero. *)
Lemma Math_max_0_nonneg x :
  ge x (of_Z 0) = true -> SameValueZero x (Math_max (of_Z 0) x).
Proof.
  destruct x as [s|s| |s m e]; try destruct s; vm_compute;
    intros H; try discriminate H;
    try (left; reflexivity); right; eauto.
Qed.

Lemma Math_max_0_has_sign y :
  has_sign false y -> SameValueZero y (Math_max (of_Z 0) y).
Proof.
  destruct y as [s|s| |s m e]; simpl; intros H; subst;
    vm_compute; left; reflexivity.
Qed.

Lemma Math_max_0_mul_2 x :
  ge x (of_Z 0) = true ->
  SameValueZero (mul x (of_Z 2)) (Math_max (of_Z 0) (mul x (of_Z 2))).
Proof.
  destruct x as [s|s| |s m e]; intros H.
  - destruct s; vm_compute; right; eauto.
  - destruct s; [discriminate H|vm_compute; left; reflexivity].
  - discriminate H.
  - destruct s; [discriminate H|].
    apply Math_max_0_has_sign.
    apply (mul_sign (S754_finite false m e) (of_Z 2) false false); reflexivity.
Qed.

Lemma add_0_l x : SameValueZero (add (of_Z 0) x) x.
Proof.
  destruct x as [s|s| |s m e]; try destruct s; vm_compute;
    try (left; reflexivity); right; eauto.
Qed.

(** ** Powers of two and binary digits *)

Lemma pow2_pos (k : Z) : 0 <= k -> 0 < 2 ^ k.
Proof. intros; apply Z.pow_pos_nonneg; lia. Qed.

Lemma pow2_split (a b : Z) : 0 <= a -> 0 <= b -> 2 ^ (a + b) = 2 ^ a * 2 ^ b.
Proof. intros; apply Z.pow_add_r; lia. Qed.

Lemma pow2_le (a b : Z) : 0 <= a <= b -> 2 ^ a <= 2 ^ b.
Proof. intros; apply Z.pow_le_mono_r; lia. Qed.

Lemma pow2_lt (a b : Z) : 0 <= a < b -> 2 ^ a < 2 ^ b.
Proof. intros; apply Z.pow_lt_mono_r; lia. Qed.

Lemma digits2_pos_bounds (m : positive) :
  2 ^ (Z.pos (digits2_pos m) - 1) <= Z.pos m < 2 ^ Z.pos (digits2_pos m).
Proof.
  induction m as [m IH|m IH|]; simpl digits2_pos.
  - rewrite Pos2Z.inj_succ.
    replace (Z.succ (Z.pos (digits2_pos m)) - 1) with (Z.pos (digits2_pos m) - 1 + 1) by lia.
    rewrite Z.pow_succ_r by lia.
    rewrite pow2_split by lia. change (2 ^ 1) with 2. lia.
  - rewrite Pos2Z.inj_succ.
    replace (Z.succ (Z.pos (digits2_pos m)) - 1) with (Z.pos (digits2_pos m) - 1 + 1) by lia.
    rewrite Z.pow_succ_r by lia.
    rewrite pow2_split by lia. change (2 ^ 1) with 2. lia.
  - simpl. lia.
Qed.

Lemma Zdigits2_nonneg (m : Z) : 0 <= Zdigits2 m.
Proof. destruct m; simpl; lia. Qed.

Lemma Zdigits2_bounds (m : Z) :
  0 < m -> 2 ^ (Zdigits2 m - 1) <= m < 2 ^ Zdigits2 m.
Proof. destruct m; try lia. intros _. apply digits2_pos_bounds. Qed.

(** The number of digits is the only exponent that brackets a positive
    integer. *)
Lemma Zdigits2_unique (m d : Z) :
  0 < m -> 2 ^ (d - 1) <= m < 2 ^ d -> Zdigits2 m = d.
Proof.
  intros Hm [Hlo Hhi].
  pose proof (Zdigits2_bounds m Hm) as [Blo Bhi].
  pose proof (Zdigits2_nonneg m) as Hn.
  assert (0 < d).
  { destruct (Z_lt_le_dec 0 d) as [|Hd]; auto.
    destruct (Z.eq_dec d 0) as [->|]; [simpl in Hhi; lia|].
    rewrite Z.pow_neg_r in Hhi by lia. lia. }
  destruct (Z_lt_le_dec (Zdigits2 m) d) as [L|L].
  - assert (2 ^ Zdigits2 m <= 2 ^ (d - 1)) by (apply pow2_le; lia). lia.
  - destruct (Z_lt_le_dec d (Zdigits2 m)) as [G|G]; [|lia].
    assert (2 ^ d <= 2 ^ (Zdigits2 m - 1)) by (apply pow2_le; lia). lia.
Qed.

Lemma Zdigits2_mono (a b : Z) : 0 <= a <= b -> Zdigits2 a <= Zdigits2 b.
Proof.
  intros [Ha Hab].
  destruct (Z.eq_dec a 0) as [->|Na]; [apply Zdigits2_nonneg|].
  pose proof (Zdigits2_bounds a ltac:(lia)) as [Alo _].
  pose proof (Zdigits2_bounds b ltac:(lia)) as [_ Bhi].
  destruct (Z_lt_le_dec (Zdigits2 b) (Zdigits2 a)) as [L|L]; [|lia].
  pose proof (Zdigits2_nonneg b).
  assert (2 ^ Zdigits2 b <= 2 ^ (Zdigits2 a - 1)) by (apply pow2_le; lia). lia.
Qed.

Lemma Zdigits2_shift (m k : Z) :
  0 < m -> 0 <= k -> Zdigits2 (m * 2 ^ k) = Zdigits2 m + k.
Proof.
  intros Hm Hk.
  pose proof (Zdigits2_bounds m Hm) as [Blo Bhi].
  pose proof (pow2_pos k Hk).
  assert (1 <= Zdigits2 m).
  { destruct (Z_lt_le_dec 0 (Zdigits2 m)); [lia|].
    pose proof (Zdigits2_nonneg m). assert (Zdigits2 m = 0) by lia.
    rewrite H1 in Bhi; simpl in Bhi; lia. }
  apply Zdigits2_unique; [nia|].
  replace (Zdigits2 m + k - 1) with ((Zdigits2 m - 1) + k) by lia.
  rewrite !pow2_split by lia. nia.
Qed.

(** ** Rounding an integer quotient to nearest, ties to even *)

Ltac decide_compare :=
  match goal with
  | |- context [?a ?= ?b] =>
      first [ rewrite (proj2 (Z.compare_lt_iff a b)) by lia
            | rewrite (proj2 (Z.compare_gt_iff a b)) by lia
            | rewrite (proj2 (Z.compare_eq_iff a b)) by lia ]
  end.

Lemma rne_exact (n p : Z) : 0 <= p -> rne (n * 2 ^ p) p = n.
Proof.
  intros Hp. pose proof (pow2_pos p Hp) as H.
  unfold rne. rewrite Z.mod_mul, Z.div_mul by lia.
  decide_compare. reflexivity.
Qed.

Lemma rne_0 (m : Z) : rne m 0 = m.
Proof. rewrite <- (Z.mul_1_r m) at 1. apply (rne_exact m 0). lia. Qed.

Lemma rne_bounds (m p : Z) : m / 2 ^ p <= rne m p <= m / 2 ^ p + 1.
Proof.
  unfold rne. destruct (2 * (m mod 2 ^ p) ?= 2 ^ p); try lia.
  destruct (Z.even (m / 2 ^ p)); lia.
Qed.

Lemma rne_mono (m m' p : Z) : 0 <= p -> m <= m' -> rne m p <= rne m' p.
Proof.
  intros Hp Hm. pose proof (pow2_pos p Hp) as H.
  assert (Hq : m / 2 ^ p <= m' / 2 ^ p) by (apply Z.div_le_mono; lia).
  destruct (Z.eq_dec (m / 2 ^ p) (m' / 2 ^ p)) as [E|N].
  - assert (Hr : m mod 2 ^ p <= m' mod 2 ^ p).
    { rewrite (Z.mod_eq m), (Z.mod_eq m') by lia. rewrite E. lia. }
    unfold rne. rewrite E.
    destruct (Z.compare_spec (2 * (m mod 2 ^ p)) (2 ^ p)),
             (Z.compare_spec (2 * (m' mod 2 ^ p)) (2 ^ p));
      try destruct (Z.even (m' / 2 ^ p)); lia.
  - pose proof (rne_bounds m p). pose proof (rne_bounds m' p). lia.
Qed.

Lemma rne_scale (m p k : Z) :
  0 <= p -> 0 <= k -> rne (m * 2 ^ k) (p + k) = rne m p.
Proof.
  intros Hp Hk.
  pose proof (pow2_pos p Hp). pose proof (pow2_pos k Hk).
  unfold rne. rewrite pow2_split by lia.
  rewrite Z.div_mul_cancel_r by lia.
  rewrite Z.mul_mod_distr_r by lia.
  destruct (Z.compare_spec (2 * (m mod 2 ^ p)) (2 ^ p)) as [E|L|G].
  - rewrite (proj2 (Z.compare_eq_iff _ _)) by nia. reflexivity.
  - rewrite (proj2 (Z.compare_lt_iff _ _)) by nia. reflexivity.
  - rewrite (proj2 (Z.compare_gt_iff _ _)) by nia. reflexivity.
Qed.

Lemma rne_between (m p a b : Z) :
  0 <= p -> a * 2 ^ p <= m <= b * 2 ^ p -> a <= rne m p <= b.
Proof.
  intros Hp [Ha Hb]. split.
  - rewrite <- (rne_exact a p Hp). apply rne_mono; assumption.
  - rewrite <- (rne_exact b p Hp). apply rne_mono; assumption.
Qed.

(** ** The shift-right loop of the rounding kernel *)

Lemma iter_pos_nat {A : Type} (f : A -> A) (p : positive) (x : A) :
  iter_pos f p x = Nat.iter (Pos.to_nat p) f x.
Proof.
  revert x; induction p as [p IH|p IH|]; intros x; simpl iter_pos.
  - rewrite !IH, Pos2Nat.inj_xI.
    replace (S (2 * Pos.to_nat p)) with (Pos.to_nat p + (Pos.to_nat p + 1))%nat by lia.
    rewrite !Nat.iter_add. reflexivity.
  - rewrite !IH, Pos2Nat.inj_xO.
    replace (2 * Pos.to_nat p)%nat with (Pos.to_nat p + Pos.to_nat p)%nat by lia.
    rewrite Nat.iter_add. reflexivity.
  - reflexivity.
Qed.

Lemma shr_1_spec (m : Z) (r s : bool) :
  0 <= m ->
  shr_1 (Build_shr_record m r s) = Build_shr_record (m / 2) (Z.odd m) (r || s).
Proof.
  intros Hm. rewrite <- Z.div2_div.
  destruct m as [|[q|q|]|q]; try lia; reflexivity.
Qed.

(** After [k] steps the record holds the truncated quotient, the last bit
    shifted out and whether anything non-zero was shifted out before it. *)
Lemma shr_iter_spec (m : Z) (k : nat) :
  0 <= m ->
  Nat.iter (S k) shr_1 (Build_shr_record m false false) =
  Build_shr_record (m / 2 ^ Z.of_nat (S k))
                   (Z.odd (m / 2 ^ Z.of_nat k))
                   (negb (m mod 2 ^ Z.of_nat k =? 0)).
Proof.
  intros Hm. induction k as [|k IH].
  - cbn [Nat.iter nat_rect]. rewrite shr_1_spec by lia.
    change (2 ^ Z.of_nat 1) with 2. change (2 ^ Z.of_nat 0) with 1.
    rewrite Z.div_1_r, Z.mod_1_r. reflexivity.
  - rewrite Nat.iter_succ, IH.
    assert (P : 0 < 2 ^ Z.of_nat k) by (apply pow2_pos; lia).
    assert (E1 : 2 ^ Z.of_nat (S k) = 2 ^ Z.of_nat k * 2).
    { rewrite Nat2Z.inj_succ, Z.pow_succ_r by lia. ring. }
    assert (E2 : 2 ^ Z.of_nat (S (S k)) = 2 ^ Z.of_nat (S k) * 2).
    { rewrite (Nat2Z.inj_succ (S k)), Z.pow_succ_r by lia. ring. }
    rewrite shr_1_spec by (apply Z.div_pos; lia).
    f_equal.
    + rewrite E2, Z.div_div by lia. reflexivity.
    + rewrite E1, Z.rem_mul_r by lia.
      rewrite Zmod_odd.
      pose proof (Z.mod_pos_bound m (2 ^ Z.of_nat k) P).
      destruct (Z.odd (m / 2 ^ Z.of_nat k)); simpl;
        destruct (Z.eqb_spec (m mod 2 ^ Z.of_nat k) 0);
        destruct (Z.eqb_spec (m mod 2 ^ Z.of_nat k + 2 ^ Z.of_nat k * 1) 0);
        destruct (Z.eqb_spec (m mod 2 ^ Z.of_nat k + 2 ^ Z.of_nat k * 0) 0);
        simpl; try reflexivity; lia.
Qed.

(** Rounding the shifted mantissa by its location rounds the quotient to
    nearest even. *)
Lemma shr_round_spec (m : Z) (p : positive) :
  0 <= m ->
  let mrs := iter_pos shr_1 p (Build_shr_record m false false) in
  shr_m mrs = m / 2 ^ Z.pos p /\
  round_nearest_even (shr_m mrs) (loc_of_shr_record mrs) = rne m (Z.pos p).
Proof.
  intros Hm. rewrite iter_pos_nat.
  destruct (Pos2Nat.is_succ p) as [k Hk]. rewrite Hk.
  rewrite shr_iter_spec by lia.
  assert (Ep : Z.pos p = Z.of_nat (S k)) by lia.
  rewrite <- Ep. cbn [shr_m]. split; [reflexivity|].
  assert (P : 0 < 2 ^ Z.of_nat k) by (apply pow2_pos; lia).
  assert (E1 : 2 ^ Z.pos p = 2 ^ Z.of_nat k * 2).
  { rewrite Ep, Nat2Z.inj_succ, Z.pow_succ_r by lia. ring. }
  unfold rne. rewrite E1, Z.rem_mul_r by lia.
  rewrite <- E1, Zmod_odd.
  pose proof (Z.mod_pos_bound m (2 ^ Z.of_nat k) P).
  destruct (Z.odd (m / 2 ^ Z.of_nat k));
    destruct (Z.eqb_spec (m mod 2 ^ Z.of_nat k) 0) as [E0|N0];
    cbn [loc_of_shr_record round_nearest_even negb].
  - decide_compare. reflexivity.
  - decide_compare. reflexivity.
  - decide_compare. reflexivity.
  - decide_compare. reflexivity.
Qed.

(** ** The rounding kernel *)

Lemma fexp_eq (k : Z) : fexp k = Z.max (k - prec) emin.
Proof. reflexivity. Qed.

Lemma prec_eq : prec = 53.
Proof. reflexivity. Qed.

Lemma emin_eq : emin = -1074.
Proof. reflexivity. Qed.

Lemma emax_eq : emax = 1024.
Proof. reflexivity. Qed.

Lemma binary_round_aux_finish (s : bool) (m e : Z) (l : location) :
  binary_round_aux prec emax s m e l =
  let '(mrs, e') := shr_fexp prec emax m e l in
  finish s (round_nearest_even (shr_m mrs) (loc_of_shr_record mrs)) e'.
Proof.
  unfold binary_round_aux, finish.
  destruct (shr_fexp prec emax m e l) as [mrs e']. reflexivity.
Qed.

(** The first half on an exact input that needs no left shift. *)
Lemma shr_fexp_exact (m e : Z) :
  0 <= m -> e <= rnd_exp m e ->
  let '(mrs, e') := shr_fexp prec emax m e loc_Exact in
  e' = rnd_exp m e /\
  round_nearest_even (shr_m mrs) (loc_of_shr_record mrs) = rne m (rnd_exp m e - e).
Proof.
  intros Hm He. unfold shr_fexp, shr. fold (fexp (Zdigits2 m + e)).
  fold (rnd_exp m e).
  destruct (rnd_exp m e - e) as [|p|p] eqn:Ep; try lia.
  - cbn [shr_record_of_loc shr_m loc_of_shr_record round_nearest_even].
    rewrite rne_0. split; [lia|reflexivity].
  - cbn [shr_record_of_loc].
    destruct (shr_round_spec m p Hm) as [_ H]. rewrite H.
    split; [lia|reflexivity].
Qed.

Lemma binary_round_aux_exact (s : bool) (m e : Z) :
  0 <= m -> e <= rnd_exp m e ->
  binary_round_aux prec emax s m e loc_Exact =
  finish s (rne m (rnd_exp m e - e)) (rnd_exp m e).
Proof.
  intros Hm He. rewrite binary_round_aux_finish.
  pose proof (shr_fexp_exact m e Hm He) as H.
  destruct (shr_fexp prec emax m e loc_Exact) as [mrs e'].
  destruct H as [-> ->]. reflexivity.
Qed.

(** Packing a mantissa of at most [prec] digits. *)
Lemma finish_fits (s : bool) (r : positive) (E : Z) :
  emin <= E -> Z.pos r < 2 ^ prec ->
  finish s (Z.pos r) E =
  if E <=? emax - prec then S754_finite s r E else S754_infinity s.
Proof.
  intros HE Hr. unfold finish, shr_fexp, shr.
  fold (fexp (Zdigits2 (Z.pos r) + E)).
  assert (Hd : Zdigits2 (Z.pos r) <= prec).
  { pose proof (Zdigits2_bounds (Z.pos r) ltac:(lia)) as [Lo _].
    destruct (Z_lt_le_dec prec (Zdigits2 (Z.pos r))) as [G|]; [|lia].
    assert (2 ^ prec <= 2 ^ (Zdigits2 (Z.pos r) - 1)).
    { apply pow2_le. rewrite prec_eq in *. lia. }
    lia. }
  rewrite fexp_eq.
  destruct (Z.max (Zdigits2 (Z.pos r) + E - prec) emin - E) as [|p|p] eqn:Ep;
    try lia; reflexivity.
Qed.

(** Packing the mantissa [2 ^ prec] that a carry produces. *)
Lemma finish_carry (s : bool) (E : Z) :
  emin <= E ->
  finish s (2 ^ prec) E =
  if E + 1 <=? emax - prec then S754_finite s (2 ^ 52) (E + 1) else S754_infinity s.
Proof.
  intros HE. unfold finish, shr_fexp, shr.
  change (Zdigits2 (2 ^ prec)) with 54.
  fold (fexp (54 + E)). rewrite fexp_eq, prec_eq.
  replace (Z.max (54 + E - 53) emin - E) with 1 by lia.
  reflexivity.
Qed.

Lemma finish_zero (s : bool) (E : Z) :
  emin <= E -> finish s 0 E = S754_zero s.
Proof.
  intros HE. unfold finish, shr_fexp, shr.
  change (Zdigits2 0) with 0.
  fold (fexp (0 + E)). rewrite fexp_eq, prec_eq.
  destruct (Z.max (0 + E - 53) emin - E) as [|p|p] eqn:Ep; try lia; reflexivity.
Qed.

Lemma huge_eq : huge = 2 ^ (emax - emin).
Proof. reflexivity. Qed.

Lemma huge_pos : 0 < huge.
Proof. rewrite huge_eq. apply pow2_pos. rewrite emax_eq, emin_eq. lia. Qed.

Lemma valid_finite_iff (s : bool) (m : positive) (e : Z) :
  valid (S754_finite s m e) <->
  fexp (Zdigits2 (Z.pos m) + e) = e /\ e <= emax - prec.
Proof.
  unfold valid, valid_binary, bounded, canonical_mantissa.
  fold (fexp (Z.pos (digits2_pos m) + e)). cbn [Zdigits2].
  rewrite andb_true_iff, Z.eqb_eq, Z.leb_le. tauto.
Qed.

Lemma scaled_lt (r a k : Z) :
  0 <= a -> 0 <= k -> r < 2 ^ a -> r * 2 ^ k < 2 ^ (a + k).
Proof.
  intros Ha Hk Hr. rewrite pow2_split by lia.
  pose proof (pow2_pos k Hk). nia.
Qed.

Lemma scaled_ge (r a k : Z) :
  0 <= a -> 0 <= k -> 2 ^ a <= r -> 2 ^ (a + k) <= r * 2 ^ k.
Proof.
  intros Ha Hk Hr. rewrite pow2_split by lia.
  pose proof (pow2_pos k Hk). nia.
Qed.

(** What the second half returns on a mantissa in range: a well-formed
    number of the given sign whose value is the input's, capped at the
    infinity. *)
Lemma finish_spec (s : bool) (r E : Z) :
  emin <= E -> 0 <= r <= 2 ^ prec -> (2 ^ (prec - 1) <= r \/ E = emin) ->
  wf (finish s r E) /\ has_sign s (finish s r E) /\
  ext (finish s r E) = sign_factor s * Z.min huge (r * 2 ^ (E - emin)).
Proof.
  intros HE [Hr0 Hr1] Hn.
  pose proof prec_eq as Hp. pose proof emin_eq as Hmin. pose proof emax_eq as Hmax.
  pose proof huge_pos as Hh.
  assert (Hk : 0 <= E - emin) by lia.
  pose proof (pow2_pos (E - emin) Hk) as Hpk.
  destruct (Z.eq_dec r 0) as [->|Nz].
  { rewrite finish_zero by lia. repeat split; try discriminate.
    simpl. rewrite Z.min_r by lia. lia. }
  destruct (Z.eq_dec r (2 ^ prec)) as [->|Nc].
  { rewrite finish_carry by lia.
    destruct (Z.leb_spec (E + 1) (emax - prec)) as [L|G].
    - split; [split; [|discriminate]|split; [reflexivity|]].
      + apply valid_finite_iff. cbn [Zdigits2 digits2_pos Pos.succ].
        change (Z.pos (digits2_pos (2 ^ 52))) with 53.
        rewrite fexp_eq. lia.
      + cbn [ext]. unfold signed, sign_factor.
        assert (A : 2 ^ prec * 2 ^ (E - emin) < huge).
        { rewrite huge_eq, <- pow2_split by lia. apply pow2_lt. lia. }
        rewrite Z.min_r by lia.
        replace (E + 1 - emin) with (1 + (E - emin)) by lia.
        rewrite (pow2_split 1) by lia. rewrite Hp.
        change (2 ^ 53) with (2 ^ 52 * 2 ^ 1).
        change (Z.pos (2 ^ 52)) with (2 ^ 52). change (Z.neg (2 ^ 52)) with (- 2 ^ 52).
        destruct s; ring.
    - split; [split; [reflexivity|discriminate]|split; [reflexivity|]].
      cbn [ext]. unfold sign_factor.
      assert (A : huge <= 2 ^ prec * 2 ^ (E - emin)).
      { rewrite huge_eq, <- pow2_split by lia. apply pow2_le. lia. }
      rewrite Z.min_l by lia. destruct s; ring. }
  destruct r as [|r|r]; try lia.
  rewrite finish_fits by lia.
  destruct (Z.leb_spec E (emax - prec)) as [L|G].
  - split; [split; [|discriminate]|split; [reflexivity|]].
    + apply valid_finite_iff. split; [|lia]. rewrite fexp_eq.
      destruct Hn as [Hn| ->].
      * rewrite (Zdigits2_unique (Z.pos r) prec) by lia. lia.
      * assert (Zdigits2 (Z.pos r) <= prec); [|lia].
        pose proof (Zdigits2_bounds (Z.pos r) ltac:(lia)) as [Lo _].
        destruct (Z_lt_le_dec prec (Zdigits2 (Z.pos r))) as [G|]; [|lia].
        assert (2 ^ prec <= 2 ^ (Zdigits2 (Z.pos r) - 1)) by (apply pow2_le; lia).
        lia.
    + cbn [ext]. unfold signed, sign_factor.
      assert (A : Z.pos r * 2 ^ (E - emin) < huge).
      { rewrite huge_eq.
        apply Z.lt_le_trans with (2 ^ (prec + (E - emin))).
        - apply scaled_lt; lia.
        - apply pow2_le. lia. }
      rewrite Z.min_r by lia.
      destruct s; [change (Z.neg r) with (- Z.pos r)|]; ring.
  - split; [split; [reflexivity|discriminate]|split; [reflexivity|]].
    cbn [ext]. unfold sign_factor.
    destruct Hn as [Hn|Hn]; [|lia].
    assert (A : huge <= Z.pos r * 2 ^ (E - emin)).
    { rewrite huge_eq.
      apply Z.le_trans with (2 ^ (prec - 1 + (E - emin))).
      - apply pow2_le. lia.
      - apply scaled_ge; lia. }
    rewrite Z.min_l by lia. destruct s; ring.
Qed.

Lemma rnd_exp_ge_emin (m e : Z) : emin <= rnd_exp m e.
Proof. unfold rnd_exp. rewrite fexp_eq. lia. Qed.

(** The rounded mantissa fits the format. *)
Lemma rnd_mant_bounds (m e : Z) :
  0 < m ->
  0 <= rnd_mant m e <= 2 ^ prec /\
  (2 ^ (prec - 1) <= rnd_mant m e \/ rnd_exp m e = emin).
Proof.
  intros Hm. pose proof prec_eq as Hp.
  pose proof (Zdigits2_bounds m Hm) as [Lo Hi].
  assert (Hd : 1 <= Zdigits2 m).
  { pose proof (Zdigits2_nonneg m).
    destruct (Z.eq_dec (Zdigits2 m) 0) as [E0|]; [|lia].
    rewrite E0 in Hi. simpl in Hi. lia. }
  unfold rnd_mant.
  assert (HE : rnd_exp m e = Z.max (Zdigits2 m + e - prec) emin)
    by (unfold rnd_exp; apply fexp_eq).
  set (E := rnd_exp m e) in *.
  destruct (Z.leb_spec e E) as [L|G].
  - set (p := E - e). assert (Hpn : 0 <= p) by (unfold p; lia).
    pose proof (pow2_pos p Hpn) as Pp.
    assert (U : m <= 2 ^ prec * 2 ^ p).
    { rewrite <- pow2_split by lia.
      apply Z.lt_le_incl, Z.lt_le_trans with (1 := Hi).
      apply pow2_le. unfold p. lia. }
    split.
    + apply rne_between; [lia|]. split; [lia|exact U].
    + destruct (Z.eq_dec E emin) as [|N]; [right; assumption|left].
      assert (p = Zdigits2 m - prec) by (unfold p; lia).
      apply (rne_between m p (2 ^ (prec - 1)) (2 ^ prec)); [lia|].
      split; [|exact U].
      rewrite <- pow2_split by lia.
      replace (prec - 1 + p) with (Zdigits2 m - 1) by lia. exact Lo.
  - assert (Hk : 0 <= e - E) by lia.
    pose proof (pow2_pos (e - E) Hk) as Pk.
    assert (Hs : Zdigits2 (m * 2 ^ (e - E)) = Zdigits2 m + (e - E))
      by (apply Zdigits2_shift; lia).
    pose proof (Zdigits2_bounds (m * 2 ^ (e - E)) ltac:(nia)) as [Lo' Hi'].
    rewrite Hs in Lo', Hi'.
    split.
    + split; [nia|].
      apply Z.lt_le_incl, Z.lt_le_trans with (1 := Hi').
      apply pow2_le. lia.
    + destruct (Z.eq_dec E emin) as [|N]; [right; assumption|left].
      replace (prec - 1) with (Zdigits2 m + (e - E) - 1) by lia. exact Lo'.
Qed.

Lemma Pos_iter_xO (m d : positive) :
  Z.pos (Pos.iter xO m d) = Z.pos m * 2 ^ Z.pos d.
Proof.
  induction d as [|d IH] using Pos.peano_ind.
  - simpl. lia.
  - rewrite Pos.iter_succ, Pos2Z.inj_succ, Z.pow_succ_r by lia.
    rewrite Pos2Z.inj_xO, IH. ring.
Qed.

(** [binary_round] returns a well-formed number of the sign it is given
    whose value is the rounded value of the input, capped at the infinity. *)
Lemma binary_round_spec (s : bool) (m : positive) (e : Z) :
  let x := binary_round prec emax s m e in
  wf x /\ has_sign s x /\
  ext x = sign_factor s *
          Z.min huge (rnd_mant (Z.pos m) e * 2 ^ (rnd_exp (Z.pos m) e - emin)).
Proof.
  cbv zeta. unfold binary_round, shl_align.
  fold (fexp (Z.pos (digits2_pos m) + e)).
  change (fexp (Z.pos (digits2_pos m) + e)) with (rnd_exp (Z.pos m) e).
  pose proof (rnd_mant_bounds (Z.pos m) e ltac:(lia)) as [B1 B2].
  pose proof (rnd_exp_ge_emin (Z.pos m) e) as B3.
  unfold rnd_mant in *.
  set (E := rnd_exp (Z.pos m) e) in *.
  destruct (Z.leb_spec e E) as [L|G].
  - replace (let '(mz, ez) := match E - e with
                               | Z.neg d => (Pos.iter xO m d, E)
                               | _ => (m, e)
                               end in
             binary_round_aux prec emax s (Z.pos mz) ez loc_Exact)
      with (binary_round_aux prec emax s (Z.pos m) e loc_Exact)
      by (destruct (E - e) eqn:Q; try lia; reflexivity).
    rewrite binary_round_aux_exact by (fold E; lia). fold E.
    apply finish_spec; assumption.
  - destruct (E - e) as [|d|d] eqn:Q; try lia.
    assert (Hd : e - E = Z.pos d) by lia.
    assert (Hz : Z.pos (Pos.iter xO m d) = Z.pos m * 2 ^ (e - E))
      by (rewrite Hd; apply Pos_iter_xO).
    assert (HE : rnd_exp (Z.pos (Pos.iter xO m d)) E = E).
    { unfold rnd_exp. rewrite Hz, Zdigits2_shift by lia.
      replace (Zdigits2 (Z.pos m) + (e - E) + E) with (Zdigits2 (Z.pos m) + e) by lia.
      reflexivity. }
    rewrite binary_round_aux_exact by lia.
    rewrite HE, Z.sub_diag, rne_0, Hz.
    apply finish_spec; assumption.
Qed.

(** ** The rounded value *)

Lemma rnd_0 (e : Z) : rnd 0 e = 0.
Proof. reflexivity. Qed.

Lemma rnd_opp (n e : Z) : rnd (- n) e = - rnd n e.
Proof. unfold rnd. rewrite Z.sgn_opp, Z.abs_opp. ring. Qed.

Lemma rnd_pos (m e : Z) :
  0 < m -> rnd m e = rnd_mant m e * 2 ^ (rnd_exp m e - emin).
Proof.
  intros Hm. unfold rnd. rewrite Z.sgn_pos, Z.abs_eq by lia. ring.
Qed.

Lemma rnd_pos_nonneg (m e : Z) : 0 < m -> 0 <= rnd m e.
Proof.
  intros Hm. rewrite rnd_pos by assumption.
  pose proof (rnd_mant_bounds m e Hm) as [[B _] _].
  pose proof (rnd_exp_ge_emin m e).
  pose proof (pow2_pos (rnd_exp m e - emin) ltac:(lia)). nia.
Qed.

Lemma rnd_sign (n e : Z) : 0 <= n -> 0 <= rnd n e.
Proof.
  intros Hn. destruct (Z.eq_dec n 0) as [->|]; [rewrite rnd_0; lia|].
  apply rnd_pos_nonneg. lia.
Qed.

(** The rounded value depends on the value only, not on how it is split
    into mantissa and exponent. *)
Lemma rnd_scale_pos (m e k : Z) :
  0 < m -> 0 <= k -> rnd (m * 2 ^ k) e = rnd m (e + k).
Proof.
  intros Hm Hk. pose proof (pow2_pos k Hk) as Pk.
  rewrite !rnd_pos by nia.
  assert (HE : rnd_exp (m * 2 ^ k) e = rnd_exp m (e + k)).
  { unfold rnd_exp. rewrite Zdigits2_shift by lia. f_equal. lia. }
  rewrite HE. f_equal. unfold rnd_mant. rewrite HE.
  set (E := rnd_exp m (e + k)).
  destruct (Z.leb_spec e E) as [L|G], (Z.leb_spec (e + k) E) as [L'|G']; try lia.
  - replace (E - e) with (E - (e + k) + k) by lia.
    apply rne_scale; lia.
  - replace k with ((e + k - E) + (E - e)) at 1 by lia.
    rewrite pow2_split, Z.mul_assoc by lia.
    apply rne_exact. lia.
  - replace (e + k - E) with (k + (e - E)) by lia.
    rewrite pow2_split by lia. ring.
Qed.

Lemma rnd_scale (n e k : Z) : 0 <= k -> rnd (n * 2 ^ k) e = rnd n (e + k).
Proof.
  intros Hk. destruct (Z.lt_trichotomy n 0) as [N|[->|P]].
  - pose proof (rnd_scale_pos (- n) e k ltac:(lia) Hk) as H.
    rewrite Z.mul_opp_l, !rnd_opp in H. lia.
  - reflexivity.
  - apply rnd_scale_pos; lia.
Qed.

Lemma rnd_mono_pos (m m' e : Z) : 0 < m <= m' -> rnd m e <= rnd m' e.
Proof.
  intros [Hm Hmm]. pose proof prec_eq as Hp.
  rewrite !rnd_pos by lia.
  pose proof (rnd_mant_bounds m e ltac:(lia)) as [[B0 B1] _].
  pose proof (rnd_mant_bounds m' e ltac:(lia)) as [[B0' _] B2'].
  pose proof (rnd_exp_ge_emin m e) as G.
  assert (HEE : rnd_exp m e <= rnd_exp m' e).
  { unfold rnd_exp. rewrite !fexp_eq.
    pose proof (Zdigits2_mono m m' ltac:(lia)). lia. }
  destruct (Z.eq_dec (rnd_exp m e) (rnd_exp m' e)) as [Q|N].
  - assert (rnd_mant m e <= rnd_mant m' e).
    { unfold rnd_mant. rewrite <- Q.
      destruct (Z.leb_spec e (rnd_exp m e)).
      - apply rne_mono; lia.
      - pose proof (pow2_pos (e - rnd_exp m e) ltac:(lia)). nia. }
    rewrite <- Q.
    pose proof (pow2_pos (rnd_exp m e - emin) ltac:(lia)). nia.
  - destruct B2' as [B2'|B2']; [|lia].
    apply Z.le_trans with (2 ^ (prec + (rnd_exp m e - emin))).
    + rewrite pow2_split by lia.
      pose proof (pow2_pos (rnd_exp m e - emin) ltac:(lia)). nia.
    + apply Z.le_trans with (2 ^ (prec - 1 + (rnd_exp m' e - emin))).
      * apply pow2_le. lia.
      * apply scaled_ge; lia.
Qed.

(** Rounding is monotone. *)
Lemma rnd_mono (n n' e : Z) : n <= n' -> rnd n e <= rnd n' e.
Proof.
  intros H.
  destruct (Z.lt_trichotomy n 0) as [N|[->|P]].
  - pose proof (rnd_opp n e) as On.
    pose proof (rnd_pos_nonneg (- n) e ltac:(lia)).
    destruct (Z.lt_trichotomy n' 0) as [N'|[->|P']].
    + pose proof (rnd_opp n' e) as On'.
      pose proof (rnd_mono_pos (- n') (- n) e ltac:(lia)). lia.
    + rewrite rnd_0. lia.
    + pose proof (rnd_pos_nonneg n' e P'). lia.
  - apply rnd_sign. lia.
  - apply rnd_mono_pos. lia.
Qed.

(** A canonical mantissa and exponent are their own rounding. *)
Lemma rnd_canonical (m e : Z) :
  0 < m -> fexp (Zdigits2 m + e) = e -> rnd m e = m * 2 ^ (e - emin).
Proof.
  intros Hm He. rewrite rnd_pos by assumption.
  unfold rnd_mant. fold (rnd_exp m e) in He. rewrite He.
  rewrite Z.leb_refl, Z.sub_diag, rne_0. reflexivity.
Qed.

(** Integers of at most [prec] digits are their own rounding. *)
Lemma rnd_integer (n : Z) :
  Z.abs n < 2 ^ prec -> rnd n 0 = n * 2 ^ (- emin).
Proof.
  intros Hn. pose proof prec_eq as Hp. pose proof emin_eq as Hmin.
  assert (P : forall m, 0 < m < 2 ^ prec -> rnd m 0 = m * 2 ^ (- emin)).
  { intros m [Hm Hb]. rewrite rnd_pos by assumption.
    pose proof (Zdigits2_bounds m Hm) as [Lo Hi].
    assert (Hd : 1 <= Zdigits2 m <= prec).
    { pose proof (Zdigits2_nonneg m). split.
      - destruct (Z.eq_dec (Zdigits2 m) 0) as [E0|]; [|lia].
        rewrite E0 in Hi. simpl in Hi. lia.
      - destruct (Z_lt_le_dec prec (Zdigits2 m)) as [G|]; [|lia].
        assert (2 ^ prec <= 2 ^ (Zdigits2 m - 1)) by (apply pow2_le; lia). lia. }
    assert (HE : rnd_exp m 0 = Zdigits2 m - prec).
    { unfold rnd_exp. rewrite fexp_eq. lia. }
    unfold rnd_mant. rewrite HE.
    destruct (Z.leb_spec 0 (Zdigits2 m - prec)) as [L|G].
    - replace (Zdigits2 m - prec - 0) with 0 by lia.
      rewrite rne_0. replace (Zdigits2 m - prec) with 0 by lia. reflexivity.
    - rewrite <- Z.mul_assoc, <- pow2_split by lia. f_equal. f_equal. lia. }
  destruct (Z.lt_trichotomy n 0) as [N|[->|Q]].
  - pose proof (rnd_opp n 0) as On. pose proof (P (- n) ltac:(lia)) as Pn. lia.
  - reflexivity.
  - apply P. lia.
Qed.

(** ** Numbers and their integer reading *)

Lemma valid_finite_bounds (s : bool) (m : positive) (e : Z) :
  valid (S754_finite s m e) ->
  emin <= e <= emax - prec /\ Z.pos m < 2 ^ prec /\
  (2 ^ (prec - 1) <= Z.pos m \/ e = emin) /\
  0 < Z.pos m * 2 ^ (e - emin) < huge.
Proof.
  intros V. apply valid_finite_iff in V. destruct V as [C B].
  pose proof prec_eq as Hp. pose proof emin_eq as Hmin. pose proof emax_eq as Hmax.
  rewrite fexp_eq in C.
  pose proof (Zdigits2_bounds (Z.pos m) ltac:(lia)) as [Lo Hi].
  assert (Hd : Zdigits2 (Z.pos m) <= prec) by lia.
  assert (Hlt : Z.pos m < 2 ^ prec).
  { apply Z.lt_le_trans with (1 := Hi). apply pow2_le.
    pose proof (Zdigits2_nonneg (Z.pos m)). lia. }
  assert (He : emin <= e) by lia.
  pose proof (pow2_pos (e - emin) ltac:(lia)) as Pk.
  repeat split; try lia.
  - destruct (Z.eq_dec e emin) as [|N]; [right; assumption|left].
    replace (prec - 1) with (Zdigits2 (Z.pos m) - 1) by lia. exact Lo.
  - rewrite huge_eq.
    apply Z.lt_le_trans with (2 ^ (prec + (e - emin))).
    + apply scaled_lt; lia.
    + apply pow2_le. lia.
Qed.

Lemma ext_finite_bounds (s : bool) (m : positive) (e : Z) :
  valid (S754_finite s m e) ->
  if s then - huge < ext (S754_finite s m e) < 0
  else 0 < ext (S754_finite s m e) < huge.
Proof.
  intros V. destruct (valid_finite_bounds s m e V) as (_ & _ & _ & B).
  cbn [ext]. unfold signed. destruct s; [change (Z.neg m) with (- Z.pos m)|]; lia.
Qed.

Lemma ext_bounds (x : number) : valid x -> - huge <= ext x <= huge.
Proof.
  pose proof huge_pos.
  destruct x as [s|s| |s m e]; intros V; cbn [ext]; try destruct s; try lia.
  - pose proof (ext_finite_bounds true m e V) as B. cbn [ext] in B. lia.
  - pose proof (ext_finite_bounds false m e V) as B. cbn [ext] in B. lia.
Qed.

(** Among canonical numbers the smaller exponent has the smaller value. *)
Lemma canonical_exponent_lt (s1 s2 : bool) (m1 m2 : positive) (e1 e2 : Z) :
  valid (S754_finite s1 m1 e1) -> valid (S754_finite s2 m2 e2) -> e1 < e2 ->
  Z.pos m1 * 2 ^ (e1 - emin) < Z.pos m2 * 2 ^ (e2 - emin).
Proof.
  intros V1 V2 H. pose proof prec_eq as Hp.
  destruct (valid_finite_bounds _ _ _ V1) as (B1 & M1 & _ & _).
  destruct (valid_finite_bounds _ _ _ V2) as (B2 & _ & [N2|N2] & _); [|lia].
  apply Z.lt_le_trans with (2 ^ (prec + (e1 - emin))).
  - apply scaled_lt; lia.
  - apply Z.le_trans with (2 ^ (prec - 1 + (e2 - emin))).
    + apply pow2_le. lia.
    + apply scaled_ge; lia.
Qed.

Lemma compare_lt (a b : Z) : a < b -> (a ?= b) = Lt.
Proof. apply Z.compare_lt_iff. Qed.

Lemma compare_gt (a b : Z) : b < a -> (a ?= b) = Gt.
Proof. apply Z.compare_gt_iff. Qed.

(** The comparison of two well-formed numbers is the comparison of their
    integer readings. *)
Lemma SFcompare_ext (x y : number) :
  wf x -> wf y -> SFcompare x y = Some (ext x ?= ext y).
Proof.
  intros [Vx Nx] [Vy Ny]. pose proof huge_pos as Hh.
  destruct x as [sx|sx| |sx mx ex]; try (exfalso; apply Nx; reflexivity);
  destruct y as [sy|sy| |sy my ey]; try (exfalso; apply Ny; reflexivity);
    try (pose proof (ext_finite_bounds _ _ _ Vx) as Bx);
    try (pose proof (ext_finite_bounds _ _ _ Vy) as By);
    cbn [SFcompare]; cbn [ext] in *.
  - reflexivity.
  - destruct sy; [rewrite compare_gt by lia|rewrite compare_lt by lia];
      reflexivity.
  - destruct sy; [rewrite compare_gt by lia|rewrite compare_lt by lia];
      reflexivity.
  - destruct sx; [rewrite compare_lt by lia|rewrite compare_gt by lia];
      reflexivity.
  - destruct sx, sy;
      [rewrite Z.compare_refl|rewrite compare_lt by lia
      |rewrite compare_gt by lia|rewrite Z.compare_refl]; reflexivity.
  - destruct sx, sy;
      [rewrite compare_lt by lia|rewrite compare_lt by lia
      |rewrite compare_gt by lia|rewrite compare_gt by lia]; reflexivity.
  - destruct sx; [rewrite compare_lt by lia|rewrite compare_gt by lia];
      reflexivity.
  - destruct sx, sy;
      [rewrite compare_gt by lia|rewrite compare_lt by lia
      |rewrite compare_gt by lia|rewrite compare_lt by lia]; reflexivity.
  - destruct sx, sy.
    + cbn [signed]. change (Z.neg mx) with (- Z.pos mx).
      change (Z.neg my) with (- Z.pos my).
      destruct (Z.compare_spec ex ey) as [E|L|G].
      * subst ey. rewrite Z.mul_opp_l, Z.mul_opp_l, Z.compare_opp.
        destruct (valid_finite_bounds _ _ _ Vx) as ((Be & _) & _).
        pose proof (pow2_pos (ex - emin) ltac:(lia)) as Pk.
        change (Pos.compare_cont Eq mx my) with (Z.pos mx ?= Z.pos my).
        destruct (Z.compare_spec (Z.pos mx) (Z.pos my)) as [Q|Q|Q]; cbn [CompOpp].
        -- rewrite Q, Z.compare_refl. reflexivity.
        -- rewrite compare_gt by nia. reflexivity.
        -- rewrite compare_lt by nia. reflexivity.
      * pose proof (canonical_exponent_lt _ _ _ _ _ _ Vx Vy L).
        rewrite compare_gt by lia. reflexivity.
      * pose proof (canonical_exponent_lt _ _ _ _ _ _ Vy Vx G).
        rewrite compare_lt by lia. reflexivity.
    + rewrite compare_lt by lia. reflexivity.
    + rewrite compare_gt by lia. reflexivity.
    + cbn [signed].
      destruct (Z.compare_spec ex ey) as [E|L|G].
      * subst ey.
        destruct (valid_finite_bounds _ _ _ Vx) as ((Be & _) & _).
        pose proof (pow2_pos (ex - emin) ltac:(lia)) as Pk.
        change (Pos.compare_cont Eq mx my) with (Z.pos mx ?= Z.pos my).
        destruct (Z.compare_spec (Z.pos mx) (Z.pos my)) as [Q|Q|Q].
        -- rewrite Q, Z.compare_refl. reflexivity.
        -- rewrite compare_lt by nia. reflexivity.
        -- rewrite compare_gt by nia. reflexivity.
      * pose proof (canonical_exponent_lt _ _ _ _ _ _ Vx Vy L).
        rewrite compare_lt by lia. reflexivity.
      * pose proof (canonical_exponent_lt _ _ _ _ _ _ Vy Vx G).
        rewrite compare_gt by lia. reflexivity.
Qed.

(** ** Specification of the arithmetic operations *)

Lemma saturate_mono (u v : Z) : u <= v -> saturate u <= saturate v.
Proof. unfold saturate. lia. Qed.

Lemma saturate_bounds (v : Z) : - huge <= saturate v <= huge.
Proof. pose proof huge_pos. unfold saturate. lia. Qed.

Lemma saturate_id (v : Z) : - huge <= v <= huge -> saturate v = v.
Proof. unfold saturate. lia. Qed.

Lemma binary_round_ext (s : bool) (m : positive) (e : Z) :
  wf (binary_round prec emax s m e) /\
  has_sign s (binary_round prec emax s m e) /\
  ext (binary_round prec emax s m e) = saturate (rnd (signed s m) e).
Proof.
  destruct (binary_round_spec s m e) as (W & S & E).
  split; [exact W|split; [exact S|]].
  rewrite E, <- rnd_pos by lia.
  pose proof (rnd_pos_nonneg (Z.pos m) e ltac:(lia)).
  pose proof huge_pos.
  destruct s; unfold sign_factor, signed, saturate.
  - change (Z.neg m) with (- Z.pos m). rewrite rnd_opp. lia.
  - lia.
Qed.

Lemma binary_normalize_spec (n e : Z) :
  wf (binary_normalize prec emax n e false) /\
  ext (binary_normalize prec emax n e false) = saturate (rnd n e).
Proof.
  pose proof huge_pos.
  destruct n as [|m|m]; cbn [binary_normalize].
  - split; [split; [reflexivity|discriminate]|].
    rewrite rnd_0. unfold saturate. simpl ext. lia.
  - destruct (binary_round_ext false m e) as (W & _ & E). split; assumption.
  - destruct (binary_round_ext true m e) as (W & _ & E). split; assumption.
Qed.

Lemma scaled_integer_bound (n : Z) :
  Z.abs n < 2 ^ prec -> - huge <= n * 2 ^ (- emin) <= huge.
Proof.
  intros Hn. pose proof prec_eq. pose proof emin_eq. pose proof emax_eq.
  assert (A : Z.abs n * 2 ^ (- emin) < 2 ^ (prec + - emin))
    by (apply scaled_lt; lia).
  assert (B : 2 ^ (prec + - emin) <= huge)
    by (rewrite huge_eq; apply pow2_le; lia).
  pose proof (pow2_pos (- emin) ltac:(lia)). nia.
Qed.

(** An integer literal of at most [prec] digits denotes itself. *)
Lemma of_Z_spec (n : Z) :
  Z.abs n < 2 ^ prec -> wf (of_Z n) /\ ext (of_Z n) = n * 2 ^ (- emin).
Proof.
  intros Hn. unfold of_Z.
  destruct (binary_normalize_spec n 0) as (W & E).
  split; [exact W|].
  rewrite E, rnd_integer by assumption.
  apply saturate_id, scaled_integer_bound, Hn.
Qed.

Lemma signed_opp (s : bool) (m : positive) :
  signed s m = sign_factor s * Z.pos m.
Proof. destruct s; reflexivity. Qed.

(** Rounding leaves the value of a finite number unchanged. *)
Lemma rnd_ext (x : number) :
  valid x -> is_finite x = true -> saturate (rnd (ext x) emin) = ext x.
Proof.
  intros V F. pose proof huge_pos as Hh.
  destruct x as [s|s| |s m e]; try discriminate F; cbn [ext].
  - rewrite rnd_0. unfold saturate. lia.
  - destruct (valid_finite_bounds s m e V) as ((Be & _) & _ & _ & B).
    pose proof (proj1 (valid_finite_iff s m e) V) as [C _].
    rewrite rnd_scale by lia.
    replace (emin + (e - emin)) with e by lia.
    assert (R : rnd (signed s m) e = signed s m * 2 ^ (e - emin)).
    { pose proof (rnd_canonical (Z.pos m) e ltac:(lia) C) as R.
      destruct s; cbn [signed]; [|exact R].
      change (Z.neg m) with (- Z.pos m). rewrite rnd_opp, R. ring. }
    rewrite R. apply saturate_id.
    rewrite signed_opp. destruct s; unfold sign_factor; lia.
Qed.

Lemma is_finite_ext (x : number) :
  wf x -> (is_finite x = true <-> - huge < ext x < huge).
Proof.
  intros [V N]. pose proof huge_pos.
  destruct x as [s|s| |s m e]; cbn [is_finite ext].
  - split; [lia|reflexivity].
  - split; [discriminate|destruct s; lia].
  - exfalso; apply N; reflexivity.
  - pose proof (ext_finite_bounds s m e V) as B. cbn [ext] in B.
    split; [destruct s; lia|reflexivity].
Qed.

(** *** Multiplication *)

Lemma Zdigits2_pow2 (k : Z) : 0 <= k -> Zdigits2 (2 ^ k) = k + 1.
Proof.
  intros Hk. pose proof (pow2_pos k Hk).
  apply Zdigits2_unique; [lia|].
  replace (k + 1 - 1) with k by lia. rewrite pow2_split by lia.
  change (2 ^ 1) with 2. lia.
Qed.

Lemma Zdigits2_ge_1 (m : Z) : 0 < m -> 1 <= Zdigits2 m.
Proof.
  intros Hm. pose proof (Zdigits2_bounds m Hm) as [_ Hi].
  pose proof (Zdigits2_nonneg m).
  destruct (Z.eq_dec (Zdigits2 m) 0) as [E0|]; [|lia].
  rewrite E0 in Hi. simpl in Hi. lia.
Qed.

Lemma Zdigits2_mul (a b : Z) :
  0 < a -> 0 < b -> Zdigits2 a + Zdigits2 b - 1 <= Zdigits2 (a * b).
Proof.
  intros Ha Hb.
  pose proof (Zdigits2_bounds a Ha) as [La _].
  pose proof (Zdigits2_bounds b Hb) as [Lb _].
  pose proof (Zdigits2_ge_1 a Ha). pose proof (Zdigits2_ge_1 b Hb).
  assert (P : 2 ^ (Zdigits2 a + Zdigits2 b - 2) <= a * b).
  { replace (Zdigits2 a + Zdigits2 b - 2) with ((Zdigits2 a - 1) + (Zdigits2 b - 1)) by lia.
    rewrite pow2_split by lia.
    pose proof (pow2_pos (Zdigits2 a - 1) ltac:(lia)).
    pose proof (pow2_pos (Zdigits2 b - 1) ltac:(lia)). nia. }
  pose proof (pow2_pos (Zdigits2 a + Zdigits2 b - 2) ltac:(lia)).
  pose proof (Zdigits2_mono _ _ (conj (Z.lt_le_incl _ _ H1) P)) as M.
  rewrite Zdigits2_pow2 in M by lia. lia.
Qed.

(** On an input that needs no left shift [binary_round] is the kernel. *)
Lemma binary_round_no_shift (s : bool) (m : positive) (e : Z) :
  e <= rnd_exp (Z.pos m) e ->
  binary_round_aux prec emax s (Z.pos m) e loc_Exact = binary_round prec emax s m e.
Proof.
  intros H. unfold binary_round, shl_align.
  fold (fexp (Z.pos (digits2_pos m) + e)).
  change (fexp (Z.pos (digits2_pos m) + e)) with (rnd_exp (Z.pos m) e).
  destruct (rnd_exp (Z.pos m) e - e) eqn:Q; try lia; reflexivity.
Qed.

Lemma mul_finite_spec (sx sy : bool) (mx my : positive) (ex ey : Z) :
  valid (S754_finite sx mx ex) -> valid (S754_finite sy my ey) ->
  mul (S754_finite sx mx ex) (S754_finite sy my ey) =
  binary_round prec emax (xorb sx sy) (mx * my) (ex + ey).
Proof.
  intros Vx Vy. unfold mul. cbn [SFmul].
  apply binary_round_no_shift.
  apply valid_finite_iff in Vx, Vy. destruct Vx as [Cx _], Vy as [Cy _].
  rewrite fexp_eq in Cx, Cy. unfold rnd_exp. rewrite fexp_eq.
  pose proof (Zdigits2_mul (Z.pos mx) (Z.pos my) ltac:(lia) ltac:(lia)) as D.
  pose proof (Zdigits2_ge_1 (Z.pos mx) ltac:(lia)).
  pose proof (Zdigits2_ge_1 (Z.pos my) ltac:(lia)).
  pose proof emin_eq. rewrite Pos2Z.inj_mul. lia.
Qed.

(** The product of two finite numbers is the rounded exact product. *)
Lemma mul_spec (x y : number) :
  valid x -> valid y -> is_finite x = true -> is_finite y = true ->
  wf (mul x y) /\ ext (mul x y) = saturate (rnd (ext x * ext y) (2 * emin)).
Proof.
  intros Vx Vy Fx Fy. pose proof huge_pos as Hh.
  assert (Z0 : saturate (rnd 0 (2 * emin)) = 0)
    by (rewrite rnd_0; unfold saturate; lia).
  destruct x as [sx|sx| |sx mx ex]; try discriminate Fx;
  destruct y as [sy|sy| |sy my ey]; try discriminate Fy; cbn [ext];
    try (rewrite ?Z.mul_0_l, ?Z.mul_0_r, Z0;
         split; [split; [reflexivity|discriminate]|reflexivity]).
  rewrite mul_finite_spec by assumption.
  destruct (binary_round_ext (xorb sx sy) (mx * my) (ex + ey)) as (W & _ & E).
  split; [exact W|]. rewrite E. f_equal.
  destruct (valid_finite_bounds _ _ _ Vx) as ((Bx & _) & _).
  destruct (valid_finite_bounds _ _ _ Vy) as ((By & _) & _).
  replace (signed sx mx * 2 ^ (ex - emin) * (signed sy my * 2 ^ (ey - emin)))
    with (signed (xorb sx sy) (mx * my) * 2 ^ (ex - emin + (ey - emin))).
  - rewrite rnd_scale by lia. f_equal. lia.
  - rewrite pow2_split, !signed_opp, Pos2Z.inj_mul by lia.
    destruct sx, sy; unfold sign_factor; cbn [xorb]; ring.
Qed.

(** Multiplying by a positive finite constant. *)
Lemma mul_pos_spec (x : number) (mc : positive) (ec : Z) :
  let c := S754_finite false mc ec in
  wf x -> valid c ->
  wf (mul x c) /\
  ext (mul x c) =
  if is_finite x then saturate (rnd (ext x * ext c) (2 * emin)) else ext x.
Proof.
  intros c [Vx Nx] Vc.
  destruct (is_finite x) eqn:F.
  - apply mul_spec; auto.
  - destruct x as [s|s| |s m e]; try discriminate F.
    + unfold mul, c. cbn [SFmul]. rewrite xorb_false_r.
      split; [split; [reflexivity|discriminate]|reflexivity].
    + exfalso; apply Nx; reflexivity.
Qed.

(** Multiplication by a positive finite constant is monotone. *)
Lemma mul_pos_mono (x y : number) (mc : positive) (ec : Z) :
  let c := S754_finite false mc ec in
  wf x -> wf y -> valid c -> ext x <= ext y ->
  ext (mul x c) <= ext (mul y c).
Proof.
  intros c Wx Wy Vc H.
  destruct (mul_pos_spec x mc ec Wx Vc) as (_ & Ex).
  destruct (mul_pos_spec y mc ec Wy Vc) as (_ & Ey).
  fold c in Ex, Ey. rewrite Ex, Ey.
  pose proof (ext_finite_bounds false mc ec Vc) as Bc.
  cbv beta iota in Bc. fold c in Bc.
  pose proof (is_finite_ext x Wx) as Fx. pose proof (is_finite_ext y Wy) as Fy.
  pose proof (ext_bounds x (proj1 Wx)). pose proof (ext_bounds y (proj1 Wy)).
  pose proof (saturate_bounds (rnd (ext x * ext c) (2 * emin))).
  pose proof (saturate_bounds (rnd (ext y * ext c) (2 * emin))).
  destruct (is_finite x), (is_finite y).
  - apply saturate_mono, rnd_mono, Z.mul_le_mono_nonneg_r; lia.
  - assert (~ (- huge < ext y < huge)) by (intros Q; apply Fy in Q; discriminate Q).
    lia.
  - assert (~ (- huge < ext x < huge)) by (intros Q; apply Fx in Q; discriminate Q).
    lia.
  - exact H.
Qed.

(** *** Addition *)

Lemma shl_align_fst (m : positive) (e ez : Z) :
  ez <= e -> Z.pos (fst (shl_align m e ez)) = Z.pos m * 2 ^ (e - ez).
Proof.
  intros H. unfold shl_align.
  destruct (ez - e) as [|d|d] eqn:Q; try lia; cbn [fst].
  - replace (e - ez) with 0 by lia. simpl. lia.
  - rewrite Pos_iter_xO. f_equal. f_equal. lia.
Qed.

Lemma cond_Zopp_signed (s : bool) (m : positive) :
  cond_Zopp s (Z.pos m) = signed s m.
Proof. destruct s; reflexivity. Qed.

(** The sum of two finite numbers is the rounded exact sum. *)
Lemma add_spec (x y : number) :
  valid x -> valid y -> is_finite x = true -> is_finite y = true ->
  wf (add x y) /\ ext (add x y) = saturate (rnd (ext x + ext y) emin).
Proof.
  intros Vx Vy Fx Fy. pose proof huge_pos as Hh.
  destruct x as [sx|sx| |sx mx ex]; try discriminate Fx;
  destruct y as [sy|sy| |sy my ey]; try discriminate Fy.
  - assert (E : exists u, add (S754_zero sx) (S754_zero sy) = S754_zero u)
      by apply add_zero_zero.
    destruct E as [u ->]. cbn [ext]. rewrite rnd_0.
    split; [split; [reflexivity|discriminate]|unfold saturate; lia].
  - change (add (S754_zero sx) (S754_finite sy my ey)) with (S754_finite sy my ey).
    split; [split; [assumption|discriminate]|].
    change (ext (S754_zero sx)) with 0. rewrite Z.add_0_l.
    symmetry. apply rnd_ext; auto.
  - change (add (S754_finite sx mx ex) (S754_zero sy)) with (S754_finite sx mx ex).
    split; [split; [assumption|discriminate]|].
    change (ext (S754_zero sy)) with 0. rewrite Z.add_0_r.
    symmetry. apply rnd_ext; auto.
  - unfold add. cbn [SFadd].
    rewrite !cond_Zopp_signed.
    destruct (valid_finite_bounds _ _ _ Vx) as ((Bx & _) & _).
    destruct (valid_finite_bounds _ _ _ Vy) as ((By & _) & _).
    set (ez := Z.min ex ey).
    assert (Hx : Z.pos (fst (shl_align mx ex ez)) = Z.pos mx * 2 ^ (ex - ez))
      by (apply shl_align_fst; unfold ez; lia).
    assert (Hy : Z.pos (fst (shl_align my ey ez)) = Z.pos my * 2 ^ (ey - ez))
      by (apply shl_align_fst; unfold ez; lia).
    destruct (binary_normalize_spec
                (signed sx (fst (shl_align mx ex ez)) +
                 signed sy (fst (shl_align my ey ez))) ez) as (W & E).
    split; [exact W|]. rewrite E. f_equal. cbn [ext].
    rewrite !signed_opp, Hx, Hy.
    replace (sign_factor sx * Z.pos mx * 2 ^ (ex - emin) +
             sign_factor sy * Z.pos my * 2 ^ (ey - emin))
      with ((sign_factor sx * (Z.pos mx * 2 ^ (ex - ez)) +
             sign_factor sy * (Z.pos my * 2 ^ (ey - ez))) * 2 ^ (ez - emin)).
    + rewrite rnd_scale by (unfold ez; lia). f_equal. lia.
    + replace (ex - emin) with ((ex - ez) + (ez - emin)) by lia.
      replace (ey - emin) with ((ey - ez) + (ez - emin)) by lia.
      rewrite !pow2_split by (unfold ez; lia). ring.
Qed.

(** Adding two numbers neither of which is the positive infinity. *)
Lemma add_below_spec (x y : number) :
  wf x -> wf y -> ext x < huge -> ext y < huge ->
  wf (add x y) /\
  ext (add x y) =
  if is_finite x && is_finite y then saturate (rnd (ext x + ext y) emin)
  else - huge.
Proof.
  intros [Vx Nx] [Vy Ny] Hx Hy. pose proof huge_pos as Hh.
  destruct (is_finite x) eqn:Fx, (is_finite y) eqn:Fy; cbn [andb].
  - apply add_spec; assumption.
  - destruct y as [sy|sy| |sy my ey]; try discriminate Fy;
      [|exfalso; apply Ny; reflexivity].
    destruct sy; [|cbn [ext] in Hy; lia].
    destruct x as [sx|sx| |sx mx ex]; try discriminate Fx;
      (split; [split; [reflexivity|discriminate]|reflexivity]).
  - destruct x as [sx|sx| |sx mx ex]; try discriminate Fx;
      [|exfalso; apply Nx; reflexivity].
    destruct sx; [|cbn [ext] in Hx; lia].
    destruct y as [sy|sy| |sy my ey]; try discriminate Fy;
      (split; [split; [reflexivity|discriminate]|reflexivity]).
  - destruct x as [sx|sx| |sx mx ex]; try discriminate Fx;
      [|exfalso; apply Nx; reflexivity].
    destruct y as [sy|sy| |sy my ey]; try discriminate Fy;
      [|exfalso; apply Ny; reflexivity].
    destruct sx; [|cbn [ext] in Hx; lia].
    destruct sy; [|cbn [ext] in Hy; lia].
    split; [split; [reflexivity|discriminate]|reflexivity].
Qed.

(** Addition is monotone in both arguments. *)
Lemma add_mono (x x' y y' : number) :
  wf x -> wf x' -> wf y -> wf y' ->
  ext x <= ext x' -> ext y <= ext y' -> ext x' < huge -> ext y' < huge ->
  ext (add x y) <= ext (add x' y').
Proof.
  intros Wx Wx' Wy Wy' Hx Hy Bx By.
  destruct (add_below_spec x y Wx Wy ltac:(lia) ltac:(lia)) as (_ & E).
  destruct (add_below_spec x' y' Wx' Wy' Bx By) as (_ & E').
  rewrite E, E'.
  pose proof (is_finite_ext x Wx) as Fx. pose proof (is_finite_ext y Wy) as Fy.
  pose proof (is_finite_ext x' Wx') as Fx'. pose proof (is_finite_ext y' Wy') as Fy'.
  pose proof (ext_bounds x (proj1 Wx)). pose proof (ext_bounds y (proj1 Wy)).
  pose proof (saturate_bounds (rnd (ext x + ext y) emin)).
  pose proof (saturate_bounds (rnd (ext x' + ext y') emin)).
  assert (Nx' : is_finite x' = false -> ext x' = - huge).
  { intros Q. rewrite Q in Fx'.
    assert (~ (- huge < ext x' < huge)) by (intros R; apply Fx' in R; discriminate R).
    pose proof (ext_bounds x' (proj1 Wx')). lia. }
  assert (Ny' : is_finite y' = false -> ext y' = - huge).
  { intros Q. rewrite Q in Fy'.
    assert (~ (- huge < ext y' < huge)) by (intros R; apply Fy' in R; discriminate R).
    pose proof (ext_bounds y' (proj1 Wy')). lia. }
  destruct (is_finite x) eqn:Qx, (is_finite y) eqn:Qy; cbn [andb];
    destruct (is_finite x') eqn:Qx', (is_finite y') eqn:Qy'; cbn [andb]; try lia;
    try (apply saturate_mono, rnd_mono; lia);
    try (specialize (Nx' eq_refl)); try (specialize (Ny' eq_refl));
    try (assert (- huge < ext x < huge) by (apply Fx; reflexivity));
    try (assert (- huge < ext y < huge) by (apply Fy; reflexivity)); lia.
Qed.

Lemma add_wf (x y : number) :
  wf x -> wf y -> ext x < huge -> ext y < huge -> wf (add x y).
Proof. intros Wx Wy Hx Hy. apply (add_below_spec x y Wx Wy Hx Hy). Qed.

(** *** Subtraction *)

Lemma sub_add_opp (x y : number) : sub x y = add x (SFopp y).
Proof.
  destruct x as [sx|sx| |sx mx ex], y as [sy|sy| |sy my ey];
    try reflexivity; destruct sx, sy; reflexivity.
Qed.

Lemma SFopp_wf (x : number) : wf x -> wf (SFopp x).
Proof.
  intros [V N]. destruct x; try (exfalso; apply N; reflexivity);
    (split; [exact V|discriminate]).
Qed.

Lemma SFopp_ext (x : number) : ext (SFopp x) = - ext x.
Proof.
  destruct x as [s|s| |s m e]; cbn [SFopp ext]; try reflexivity.
  - destruct s; cbn [negb]; lia.
  - rewrite !signed_opp. destruct s; unfold sign_factor; cbn [negb]; ring.
Qed.

(** *** Minimum and maximum *)

Lemma Math_min_spec (a b : number) :
  wf a -> wf b ->
  wf (Math_min a b) /\ ext (Math_min a b) = Z.min (ext a) (ext b).
Proof.
  intros Wa Wb. unfold Math_min. rewrite (SFcompare_ext a b Wa Wb).
  destruct (Z.compare_spec (ext a) (ext b)) as [E|L|G].
  - destruct b as [[|]| | |]; (split; [assumption|lia]).
  - split; [assumption|lia].
  - split; [assumption|lia].
Qed.

Lemma Math_max_spec (a b : number) :
  wf a -> wf b ->
  wf (Math_max a b) /\ ext (Math_max a b) = Z.max (ext a) (ext b).
Proof.
  intros Wa Wb. unfold Math_max. rewrite (SFcompare_ext a b Wa Wb).
  destruct (Z.compare_spec (ext a) (ext b)) as [E|L|G].
  - destruct b as [[|]| | |]; (split; [assumption|lia]).
  - split; [assumption|lia].
  - split; [assumption|lia].
Qed.

(** *** Rounding to an integer *)

Lemma roundZ_mono (u v : Z) : u <= v -> roundZ u <= roundZ v.
Proof.
  intros H. unfold roundZ. apply Z.div_le_mono; [|lia].
  apply pow2_pos. rewrite emin_eq. lia.
Qed.

Lemma roundZ_integer (k : Z) : roundZ (k * 2 ^ (- emin)) = k.
Proof.
  pose proof emin_eq as Hmin.
  pose proof (pow2_pos (- emin) ltac:(lia)) as P.
  unfold roundZ.
  replace (1 - emin) with (1 + - emin) by lia.
  rewrite pow2_split by lia. change (2 ^ 1) with 2.
  replace (2 * (k * 2 ^ (- emin)) + 2 ^ (- emin)) with ((2 * k + 1) * 2 ^ (- emin)) by ring.
  rewrite Z.div_mul_cancel_r by lia.
  symmetry. apply Z.div_unique with (r := 1); lia.
Qed.

Lemma round_to_Z_roundZ (s : bool) (m : positive) (e : Z) :
  emin <= e < 0 ->
  round_to_Z s m e = roundZ (signed s m * 2 ^ (e - emin)).
Proof.
  intros He. pose proof emin_eq as Hmin.
  unfold round_to_Z, roundZ.
  set (P := 2 ^ (e - emin + 1)).
  assert (HP : 0 < P) by (apply pow2_pos; lia).
  assert (E1 : 2 * (signed s m * 2 ^ (e - emin)) = signed s m * P).
  { unfold P. rewrite (pow2_split (e - emin) 1) by lia. change (2 ^ 1) with 2. ring. }
  assert (E2 : 2 ^ (- emin) = 2 ^ (- e - 1) * P).
  { unfold P. rewrite <- pow2_split by lia. f_equal. lia. }
  assert (E3 : 2 ^ (1 - emin) = 2 ^ (- e) * P).
  { unfold P. rewrite <- pow2_split by lia. f_equal. lia. }
  rewrite E1, E2, E3, <- Z.mul_add_distr_r.
  pose proof (pow2_pos (- e) ltac:(lia)).
  rewrite Z.div_mul_cancel_r by lia. reflexivity.
Qed.

Lemma round_to_Z_bound (s : bool) (m : positive) (e : Z) :
  Z.pos m < 2 ^ prec -> e < 0 -> Z.abs (round_to_Z s m e) < 2 ^ prec.
Proof.
  intros Hm He. unfold round_to_Z.
  assert (HD : 2 * 2 ^ (- e - 1) = 2 ^ (- e)).
  { rewrite <- Z.pow_succ_r by lia. f_equal. lia. }
  pose proof (pow2_pos (- e - 1) ltac:(lia)) as Ph.
  set (h := 2 ^ (- e - 1)) in *. set (D := 2 ^ (- e)) in *.
  assert (HN : - 2 ^ prec < signed s m < 2 ^ prec).
  { rewrite signed_opp. destruct s; unfold sign_factor; lia. }
  pose proof (pow2_pos prec ltac:(rewrite prec_eq; lia)) as Pp.
  assert (U : (signed s m + h) / D < 2 ^ prec).
  { apply Z.div_lt_upper_bound; [lia|]. nia. }
  assert (L : - 2 ^ prec + 1 <= (signed s m + h) / D).
  { apply Z.div_le_lower_bound; [lia|]. nia. }
  lia.
Qed.

(** [Math.round] on a well-formed number: infinities are kept, a finite
    value [v] becomes the integer [floor (v + 1/2)]. *)
Lemma Math_round_spec (x : number) :
  wf x ->
  wf (Math_round x) /\
  ext (Math_round x) =
  if is_finite x then roundZ (ext x) * 2 ^ (- emin) else ext x.
Proof.
  intros [V N]. pose proof emin_eq as Hmin.
  destruct x as [s|s| |s m e]; cbn [is_finite].
  - split; [split; [exact V|exact N]|].
    change (ext (Math_round (S754_zero s))) with 0. cbn [ext].
    rewrite <- (Z.mul_0_l (2 ^ (- emin))) at 2. rewrite roundZ_integer. reflexivity.
  - split; [split; [exact V|exact N]|reflexivity].
  - exfalso; apply N; reflexivity.
  - destruct (valid_finite_bounds s m e V) as ((Be & _) & Bm & _).
    unfold Math_round. destruct (Z.leb_spec 0 e) as [L|G].
    + split; [split; [exact V|exact N]|]. cbn [ext].
      replace (e - emin) with (e + - emin) by lia.
      rewrite pow2_split, Z.mul_assoc, roundZ_integer by lia. reflexivity.
    + cbn [ext]. rewrite <- round_to_Z_roundZ by lia.
      pose proof (round_to_Z_bound s m e Bm G) as B.
      destruct (of_Z_spec (round_to_Z s m e) B) as (W & E).
      destruct (round_to_Z s m e) as [|n|n] eqn:Q.
      * split; [split; [reflexivity|discriminate]|reflexivity].
      * split; assumption.
      * split; assumption.
Qed.

(** *** Division *)

Lemma shr_iter_m (mrs : shr_record) (k : nat) :
  0 <= shr_m mrs ->
  shr_m (Nat.iter k shr_1 mrs) = shr_m mrs / 2 ^ Z.of_nat k.
Proof.
  intros Hm. induction k as [|k IH].
  - simpl. rewrite Z.div_1_r. reflexivity.
  - rewrite Nat.iter_succ.
    assert (P : 0 < 2 ^ Z.of_nat k) by (apply pow2_pos; lia).
    assert (Q : 0 <= shr_m (Nat.iter k shr_1 mrs))
      by (rewrite IH; apply Z.div_pos; lia).
    destruct (Nat.iter k shr_1 mrs) as [m r s] eqn:E.
    cbn [shr_m] in *. rewrite shr_1_spec by assumption. cbn [shr_m].
    rewrite IH, Z.div_div by lia.
    rewrite Nat2Z.inj_succ, Z.pow_succ_r by lia.
    f_equal. ring.
Qed.

Lemma round_nearest_even_bounds (q : Z) (l : location) :
  q <= round_nearest_even q l <= q + 1.
Proof.
  destruct l as [|[| |]]; cbn [round_nearest_even]; try lia.
  destruct (Z.even q); lia.
Qed.

Lemma shr_record_of_loc_m (m : Z) (l : location) :
  shr_m (shr_record_of_loc m l) = m.
Proof. destruct l as [|[| |]]; reflexivity. Qed.

(** Whatever the location of the discarded part, the kernel returns a
    well-formed number of the sign it is given. *)
Lemma binary_round_aux_wf (s : bool) (m e : Z) (l : location) :
  0 <= m -> e <= rnd_exp m e ->
  wf (binary_round_aux prec emax s m e l) /\
  has_sign s (binary_round_aux prec emax s m e l).
Proof.
  intros Hm He. pose proof prec_eq as Hp.
  rewrite binary_round_aux_finish.
  unfold shr_fexp, shr. fold (fexp (Zdigits2 m + e)). fold (rnd_exp m e).
  assert (HE : rnd_exp m e = Z.max (Zdigits2 m + e - prec) emin)
    by (unfold rnd_exp; apply fexp_eq).
  set (E := rnd_exp m e) in *.
  set (p := E - e).
  assert (Hq : 0 <= m / 2 ^ p < 2 ^ prec /\ (2 ^ (prec - 1) <= m / 2 ^ p \/ E = emin)).
  { assert (Hpn : 0 <= p) by (unfold p; lia).
    pose proof (pow2_pos p Hpn) as Pp.
    destruct (Z.eq_dec m 0) as [->|Nz].
    - rewrite Z.div_0_l by lia.
      pose proof (pow2_pos prec ltac:(lia)).
      split; [lia|right]. change (Zdigits2 0) with 0 in HE. lia.
    - pose proof (Zdigits2_bounds m ltac:(lia)) as [Lo Hi].
      pose proof (Zdigits2_ge_1 m ltac:(lia)).
      split; [split|].
      + apply Z.div_pos; lia.
      + apply Z.div_lt_upper_bound; [lia|].
        rewrite Z.mul_comm, <- pow2_split by lia.
        apply Z.lt_le_trans with (1 := Hi). apply pow2_le. unfold p. lia.
      + destruct (Z.eq_dec E emin) as [|N]; [right; assumption|left].
        apply Z.div_le_lower_bound; [lia|].
        rewrite Z.mul_comm, <- pow2_split by lia.
        replace (prec - 1 + p) with (Zdigits2 m - 1) by (unfold p; lia).
        exact Lo. }
  assert (G : forall mrs e', shr_m mrs = m / 2 ^ p -> e' = E ->
              wf (finish s (round_nearest_even (shr_m mrs) (loc_of_shr_record mrs)) e') /\
              has_sign s (finish s (round_nearest_even (shr_m mrs) (loc_of_shr_record mrs)) e')).
  { intros mrs e' Em ->. rewrite Em.
    pose proof (round_nearest_even_bounds (m / 2 ^ p) (loc_of_shr_record mrs)) as B.
    destruct (finish_spec s (round_nearest_even (m / 2 ^ p) (loc_of_shr_record mrs)) E)
      as (W & S & _); [lia|lia| |split; assumption].
    destruct Hq as (_ & [Q|Q]); [left; lia|right; exact Q]. }
  fold p. destruct p as [|q|q] eqn:Ep.
  - apply G; [|lia]. rewrite shr_record_of_loc_m. simpl. rewrite Z.div_1_r. reflexivity.
  - apply G; [|lia].
    rewrite iter_pos_nat, shr_iter_m by (rewrite shr_record_of_loc_m; lia).
    rewrite shr_record_of_loc_m, positive_nat_Z. reflexivity.
  - unfold p in Ep. lia.
Qed.

(** The quotient and exponent the division hands to the kernel need no left
    shift. *)
Lemma SFdiv_core_binary_shape (mx my : positive) (ex ey : Z) (sx sy : bool) :
  valid (S754_finite sx mx ex) -> valid (S754_finite sy my ey) ->
  let '(q, e', l) := SFdiv_core_binary prec emax (Z.pos mx) ex (Z.pos my) ey in
  0 <= q /\ e' <= rnd_exp q e'.
Proof.
  intros Vx Vy. pose proof prec_eq as Hp. pose proof emin_eq as Hmin.
  apply valid_finite_iff in Vx, Vy. destruct Vx as [Cx _], Vy as [Cy _].
  rewrite fexp_eq in Cx, Cy.
  unfold SFdiv_core_binary.
  fold (fexp (Zdigits2 (Z.pos mx) + ex - (Zdigits2 (Z.pos my) + ey))).
  rewrite fexp_eq.
  set (d1 := Zdigits2 (Z.pos mx)) in *. set (d2 := Zdigits2 (Z.pos my)) in *.
  pose proof (Zdigits2_ge_1 (Z.pos mx) ltac:(lia)) as D1. fold d1 in D1.
  pose proof (Zdigits2_ge_1 (Z.pos my) ltac:(lia)) as D2. fold d2 in D2.
  pose proof (Zdigits2_bounds (Z.pos mx) ltac:(lia)) as [Lo1 Hi1]. fold d1 in Lo1, Hi1.
  pose proof (Zdigits2_bounds (Z.pos my) ltac:(lia)) as [Lo2 Hi2]. fold d2 in Lo2, Hi2.
  set (e' := Z.min (Z.max (d1 + ex - (d2 + ey) - prec) emin) (ex - ey)).
  set (s := ex - ey - e').
  assert (Hs : 0 <= s) by (unfold s, e'; lia).
  set (m' := match s with
             | 0 => Z.pos mx
             | Z.pos _ => Z.shiftl (Z.pos mx) s
             | Z.neg _ => 0
             end).
  assert (Hm' : m' = Z.pos mx * 2 ^ s).
  { unfold m'. clearbody s. destruct s as [|t|t]; try lia.
    apply Z.shiftl_mul_pow2. lia. }
  pose proof (pow2_pos s Hs) as Ps.
  assert (Hq : Z.div_eucl m' (Z.pos my) = (m' / Z.pos my, m' mod Z.pos my)).
  { unfold Z.div, Z.modulo. destruct (Z.div_eucl m' (Z.pos my)); reflexivity. }
  rewrite Hq.
  assert (Q0 : 0 <= m' / Z.pos my) by (apply Z.div_pos; nia).
  split; [exact Q0|].
  unfold rnd_exp. rewrite fexp_eq.
  destruct (Z_le_gt_dec e' emin) as [L|G]; [lia|].
  assert (He' : e' = d1 + ex - (d2 + ey) - prec) by (unfold e'; lia).
  assert (Hsv : s = prec + d2 - d1) by (unfold s; lia).
  assert (B : 2 ^ (prec - 1) <= m' / Z.pos my).
  { apply Z.div_le_lower_bound; [lia|].
    rewrite Hm', Hsv.
    assert (A : 2 ^ (prec - 1) * 2 ^ d2 <= Z.pos mx * 2 ^ (prec + d2 - d1)).
    { rewrite <- pow2_split by lia.
      replace (prec - 1 + d2) with ((d1 - 1) + (prec + d2 - d1)) by lia.
      apply scaled_ge; lia. }
    pose proof (pow2_pos (prec - 1) ltac:(lia)). nia. }
  pose proof (pow2_pos (prec - 1) ltac:(lia)) as Pp.
  pose proof (Zdigits2_mono (2 ^ (prec - 1)) (m' / Z.pos my) ltac:(lia)) as M.
  rewrite Zdigits2_pow2 in M by lia. lia.
Qed.

(** Dividing a number that is not negative by a positive finite one gives a
    well-formed number that is not negative. *)
Lemma div_nonneg (x : number) (mc : positive) (ec : Z) :
  let c := S754_finite false mc ec in
  wf x -> valid c -> 0 <= ext x ->
  wf (div x c) /\ 0 <= ext (div x c).
Proof.
  intros c [Vx Nx] Vc H. pose proof huge_pos as Hh.
  destruct x as [s|s| |s m e].
  - split; [split; [reflexivity|discriminate]|simpl; lia].
  - destruct s; [cbn [ext] in H; lia|].
    split; [split; [reflexivity|discriminate]|simpl; lia].
  - exfalso; apply Nx; reflexivity.
  - pose proof (ext_finite_bounds s m e Vx) as B.
    destruct s; [lia|].
    unfold div, c. cbn [SFdiv xorb].
    pose proof (SFdiv_core_binary_shape m mc e ec false false Vx Vc) as S.
    destruct (SFdiv_core_binary prec emax (Z.pos m) e (Z.pos mc) ec) as [[q e'] l].
    destruct S as [Q E].
    destruct (binary_round_aux_wf false q e' l Q E) as (W & Sg).
    split; [exact W|].
    destruct (binary_round_aux prec emax false q e' l) as [t|t| |t n k];
      cbn [has_sign] in Sg; subst; cbn [ext]; try lia.
    pose proof (ext_finite_bounds false n k (proj1 W)) as Bn. cbn [ext] in Bn. lia.
Qed.

(** ** Comparisons and equality through the integer reading *)

Lemma lt_ext (a b : number) : wf a -> wf b -> lt a b = (ext a <? ext b).
Proof.
  intros Wa Wb. unfold lt, SFltb, Z.ltb. rewrite (SFcompare_ext a b Wa Wb).
  reflexivity.
Qed.

Lemma ge_ext (a b : number) : wf a -> wf b -> ge a b = (ext b <=? ext a).
Proof.
  intros Wa Wb. unfold ge, SFleb, Z.leb. rewrite (SFcompare_ext b a Wb Wa).
  destruct (ext b ?= ext a); reflexivity.
Qed.

Lemma SFeqb_ext (a b : number) : wf a -> wf b -> SFeqb a b = (ext a =? ext b).
Proof.
  intros Wa Wb. unfold SFeqb. rewrite (SFcompare_ext a b Wa Wb), Z.eqb_compare.
  reflexivity.
Qed.

(** A true comparison with a well-formed number shows the other side is not
    NaN. *)
Lemma ge_not_nan_l (a b : number) : ge a b = true -> a <> NaN.
Proof.
  intros H ->. unfold ge, SFleb in H.
  destruct b; discriminate H.
Qed.

Lemma ge_not_nan_r (a b : number) : ge a b = true -> b <> NaN.
Proof. intros H ->. discriminate H. Qed.

Lemma lt_not_nan_l (a b : number) : lt a b = true -> a <> NaN.
Proof. intros H ->. discriminate H. Qed.

Lemma lt_not_nan_r (a b : number) : lt a b = true -> b <> NaN.
Proof.
  intros H ->. unfold lt, SFltb in H. destruct a; discriminate H.
Qed.

(** Two well-formed numbers of equal value are the same number, up to the
    sign of zero. *)
Lemma ext_inj (a b : number) :
  wf a -> wf b -> ext a = ext b -> SameValueZero a b.
Proof.
  intros Wa Wb E.
  pose proof (SFcompare_ext a b Wa Wb) as C.
  rewrite E, Z.compare_refl in C.
  destruct Wa as [Va Na], Wb as [Vb Nb].
  destruct a as [sa|sa| |sa ma ea]; try (exfalso; apply Na; reflexivity);
  destruct b as [sb|sb| |sb mb eb]; try (exfalso; apply Nb; reflexivity);
    cbn [SFcompare] in C.
  - right; eauto.
  - destruct sb; discriminate C.
  - destruct sb; discriminate C.
  - destruct sa; discriminate C.
  - destruct sa, sb; try discriminate C; left; reflexivity.
  - destruct sa; discriminate C.
  - destruct sa; discriminate C.
  - destruct sb; discriminate C.
  - left. destruct sa, sb; try discriminate C;
      destruct (Z.compare_spec ea eb) as [Q|Q|Q]; try discriminate C;
      subst eb; f_equal.
    + destruct (Pos.compare_cont Eq ma mb) eqn:P; try discriminate C.
      apply Pos.compare_eq. exact P.
    + apply Pos.compare_eq. injection C as C. exact C.
Qed.

(** ** Monotonicity of the building blocks of the scorers *)

Lemma mul_const_mono (x y c : number) :
  wf x -> wf y -> valid c -> is_finite c = true -> 0 < ext c ->
  ext x <= ext y ->
  wf (mul x c) /\ wf (mul y c) /\ ext (mul x c) <= ext (mul y c).
Proof.
  intros Wx Wy Vc Fc Pc H.
  destruct c as [s|s| |s m e]; try discriminate Fc; [cbn [ext] in Pc; lia|].
  pose proof (ext_finite_bounds s m e Vc) as B.
  destruct s; [lia|].
  split; [apply (mul_pos_spec x m e Wx Vc)|].
  split; [apply (mul_pos_spec y m e Wy Vc)|].
  apply mul_pos_mono; assumption.
Qed.

Lemma mul_const_nonneg (x c : number) :
  wf x -> valid c -> is_finite c = true -> 0 < ext c -> 0 <= ext x ->
  wf (mul x c) /\ 0 <= ext (mul x c).
Proof.
  intros Wx Vc Fc Pc H.
  assert (W0 : wf (S754_zero false)) by (split; [reflexivity|discriminate]).
  destruct (mul_const_mono (S754_zero false) x c W0 Wx Vc Fc Pc H) as (_ & W & M).
  split; [exact W|].
  destruct c as [s|s| |s m e]; try discriminate Fc; [cbn [ext] in Pc; lia|].
  exact M.
Qed.

Lemma Math_round_mono (x y : number) :
  wf x -> wf y -> ext x <= ext y ->
  ext (Math_round x) <= ext (Math_round y).
Proof.
  intros Wx Wy H.
  destruct (Math_round_spec x Wx) as (Wrx & Ex).
  destruct (Math_round_spec y Wy) as (Wry & Ey).
  pose proof (ext_bounds _ (proj1 Wrx)) as Bx.
  pose proof (ext_bounds _ (proj1 Wry)) as By.
  pose proof (is_finite_ext x Wx) as Fx. pose proof (is_finite_ext y Wy) as Fy.
  pose proof (ext_bounds x (proj1 Wx)). pose proof (ext_bounds y (proj1 Wy)).
  pose proof (pow2_pos (- emin) ltac:(rewrite emin_eq; lia)) as P.
  destruct (is_finite x) eqn:Qx, (is_finite y) eqn:Qy.
  - rewrite Ex, Ey. pose proof (roundZ_mono _ _ H). nia.
  - assert (~ (- huge < ext y < huge)) by (intros R; apply Fy in R; discriminate R).
    rewrite Ey. lia.
  - assert (~ (- huge < ext x < huge)) by (intros R; apply Fx in R; discriminate R).
    rewrite Ex. lia.
  - rewrite Ex, Ey. exact H.
Qed.

Lemma add_nonneg (x y : number) :
  wf x -> wf y -> 0 <= ext x < huge -> 0 <= ext y < huge ->
  wf (add x y) /\ 0 <= ext (add x y).
Proof.
  intros Wx Wy Hx Hy.
  split; [apply add_wf; (assumption || lia)|].
  assert (W0 : wf (S754_zero false)) by (split; [reflexivity|discriminate]).
  apply (add_mono (S754_zero false) x (S754_zero false) y); try assumption;
    simpl ext; lia.
Qed.

(** ** Bounds of the weighted sums *)

Ltac closed_wf := split; [vm_compute; reflexivity|vm_compute; discriminate].
Ltac closed_posConst := repeat split; vm_compute; reflexivity.

Lemma wf_0 : wf (of_Z 0).
Proof. closed_wf. Qed.

Lemma wf_100 : wf (of_Z 100).
Proof. closed_wf. Qed.

Lemma ext_0 : ext (of_Z 0) = 0.
Proof. reflexivity. Qed.

Lemma ext_100_lt_huge : ext (of_Z 100) < huge.
Proof. vm_compute. reflexivity. Qed.

Lemma posConst_weights :
  posConst (lit 4 10) /\ posConst (lit 3 10) /\ posConst (lit 7 10) /\
  posConst (lit 6 10).
Proof. repeat split; vm_compute; reflexivity. Qed.

Lemma posConst_factors :
  posConst (of_Z 2) /\ posConst (of_Z 10) /\ posConst (of_Z 12) /\
  posConst (of_Z 20) /\ posConst (of_Z 25).
Proof. repeat split; vm_compute; reflexivity. Qed.

Lemma nonneg_of_ge (x : number) :
  valid x -> ge x (of_Z 0) = true -> wf x /\ 0 <= ext x.
Proof.
  intros V H.
  assert (W : wf x) by (split; [exact V|exact (ge_not_nan_l _ _ H)]).
  split; [exact W|].
  rewrite (ge_ext x (of_Z 0) W wf_0), ext_0 in H. apply Z.leb_le, H.
Qed.

Lemma unit100_of_ge (x : number) :
  valid x -> ge x (of_Z 0) = true -> ge (of_Z 100) x = true -> unit100 x.
Proof.
  intros V H0 H1. destruct (nonneg_of_ge x V H0) as (W & L).
  split; [exact W|split; [exact L|]].
  rewrite (ge_ext (of_Z 100) x wf_100 W) in H1. apply Z.leb_le, H1.
Qed.

Lemma cap_spec (x : number) :
  wf x -> wf (cap x) /\ ext (cap x) = Z.min (ext (of_Z 100)) (ext x).
Proof. intros W. apply Math_min_spec; [exact wf_100|exact W]. Qed.

Lemma cap_unit100 (x : number) : wf x -> 0 <= ext x -> unit100 (cap x).
Proof.
  intros W H. destruct (cap_spec x W) as (Wc & E).
  pose proof ext_100_lt_huge.
  assert (0 <= ext (of_Z 100)) by (vm_compute; discriminate).
  split; [exact Wc|rewrite E; lia].
Qed.

Lemma cap_mono (x y : number) :
  wf x -> wf y -> ext x <= ext y -> ext (cap x) <= ext (cap y).
Proof.
  intros Wx Wy H.
  destruct (cap_spec x Wx) as (_ & ->), (cap_spec y Wy) as (_ & ->). lia.
Qed.

(** A term of a weighted sum: a value between 0 and 100 times a weight. *)
Lemma term_bounds (x c : number) :
  unit100 x -> posConst c ->
  wf (mul x c) /\ 0 <= ext (mul x c) <= ext (mul (of_Z 100) c).
Proof.
  intros (W & L & U) (Vc & Fc & Pc).
  destruct (mul_const_nonneg x c W Vc Fc Pc L) as (Wm & Lm).
  destruct (mul_const_mono x (of_Z 100) c W wf_100 Vc Fc Pc U) as (_ & _ & Um).
  split; [exact Wm|split; assumption].
Qed.

(** A term capped from above only. *)
Lemma capped_term_bounds (x c : number) :
  wf x -> posConst c ->
  wf (mul (cap x) c) /\ ext (mul (cap x) c) <= ext (mul (of_Z 100) c).
Proof.
  intros W (Vc & Fc & Pc). destruct (cap_spec x W) as (Wc & E).
  destruct (mul_const_mono (cap x) (of_Z 100) c Wc wf_100 Vc Fc Pc) as (Wm & _ & Um).
  - rewrite E. lia.
  - split; assumption.
Qed.

Lemma capped_term_mono (x y c : number) :
  wf x -> wf y -> posConst c -> ext x <= ext y ->
  ext (mul (cap x) c) <= ext (mul (cap y) c).
Proof.
  intros Wx Wy (Vc & Fc & Pc) H.
  apply (mul_const_mono (cap x) (cap y) c); try assumption.
  - apply cap_spec, Wx.
  - apply cap_spec, Wy.
  - apply cap_mono; assumption.
Qed.

(** Sums of three terms below finite tops. *)
Lemma sum3_mono (a a' b b' c c' A B C : number) :
  wf a -> wf a' -> wf b -> wf b' -> wf c -> wf c' -> wf A -> wf B -> wf C ->
  ext a <= ext a' -> ext a' <= ext A ->
  ext b <= ext b' -> ext b' <= ext B ->
  ext c <= ext c' -> ext c' <= ext C ->
  ext A < huge -> ext B < huge -> ext C < huge -> ext (add A B) < huge ->
  wf (add (add a b) c) /\ wf (add (add a' b') c') /\
  ext (add (add a b) c) <= ext (add (add a' b') c') /\
  ext (add (add a' b') c') <= ext (add (add A B) C).
Proof.
  intros Wa Wa' Wb Wb' Wc Wc' WA WB WC La Ua Lb Ub Lc Uc HA HB HC HAB.
  assert (Wab : wf (add a b)) by (apply add_wf; (assumption || lia)).
  assert (Wab' : wf (add a' b')) by (apply add_wf; (assumption || lia)).
  assert (WAB : wf (add A B)) by (apply add_wf; (assumption || lia)).
  assert (M1 : ext (add a b) <= ext (add a' b'))
    by (apply add_mono; (assumption || lia)).
  assert (M2 : ext (add a' b') <= ext (add A B))
    by (apply add_mono; (assumption || lia)).
  split; [apply add_wf; (assumption || lia)|].
  split; [apply add_wf; (assumption || lia)|].
  split; apply add_mono; (assumption || lia).
Qed.

Lemma top_facts :
  wf top3 /\ is_finite top3 = true /\ roundZ (ext top3) = 100 /\
  wf top2 /\ is_finite top2 = true /\ roundZ (ext top2) = 100.
Proof. repeat split; try (vm_compute; reflexivity); vm_compute; discriminate. Qed.

Lemma tops_below_huge :
  ext (mul (of_Z 100) (lit 4 10)) < huge /\
  ext (mul (of_Z 100) (lit 3 10)) < huge /\
  ext (mul (of_Z 100) (lit 7 10)) < huge /\
  ext (add (mul (of_Z 100) (lit 4 10)) (mul (of_Z 100) (lit 3 10))) < huge /\
  wf (mul (of_Z 100) (lit 4 10)) /\ wf (mul (of_Z 100) (lit 3 10)) /\
  wf (mul (of_Z 100) (lit 7 10)).
Proof. repeat split; try (vm_compute; reflexivity); vm_compute; discriminate. Qed.

(** Rounding a sum between 0 and a top that rounds to 100 gives a score. *)
Lemma isScore_round (s top : number) :
  wf s -> wf top -> is_finite top = true -> roundZ (ext top) = 100 ->
  0 <= ext s <= ext top ->
  isScore (Math_round s) = true.
Proof.
  intros Ws Wt Ft Rt [L U]. pose proof huge_pos as Hh.
  pose proof (proj1 (is_finite_ext top Wt) Ft) as Bt.
  assert (Fs : is_finite s = true) by (apply (is_finite_ext s Ws); lia).
  destruct (Math_round_spec s Ws) as (Wr & Er). rewrite Fs in Er.
  pose proof (roundZ_mono _ _ L) as K0. pose proof (roundZ_mono _ _ U) as K1.
  rewrite Rt in K1.
  change 0 with (0 * 2 ^ (- emin)) in K0 at 1. rewrite roundZ_integer in K0.
  set (k := roundZ (ext s)) in *.
  pose proof (pow2_pos (- emin) ltac:(rewrite emin_eq; lia)) as P.
  destruct (of_Z_spec 100 ltac:(reflexivity)) as (_ & E100).
  assert (Fr : is_finite (Math_round s) = true).
  { apply (is_finite_ext _ Wr). rewrite Er.
    pose proof ext_100_lt_huge. rewrite E100 in *. nia. }
  destruct (Math_round_spec (Math_round s) Wr) as (Wrr & Err).
  rewrite Fr, Er, roundZ_integer in Err.
  unfold isScore, isInteger.
  rewrite (ge_ext _ _ Wr wf_0), (ge_ext _ _ wf_100 Wr), (SFeqb_ext _ _ Wrr Wr).
  rewrite Err, Er, ext_0, E100.
  rewrite Z.eqb_refl, andb_true_r, andb_true_iff, !Z.leb_le. nia.
Qed.

Lemma div_const_nonneg (x c : number) :
  wf x -> posConst c -> 0 <= ext x -> wf (div x c) /\ 0 <= ext (div x c).
Proof.
  intros W (Vc & Fc & Pc) H.
  destruct c as [s|s| |s m e]; try discriminate Fc; [cbn [ext] in Pc; lia|].
  pose proof (ext_finite_bounds s m e Vc) as B.
  destruct s; [lia|]. apply div_nonneg; assumption.
Qed.

(** A scaled count capped at 100: [Math.min(100, x * c)]. *)
Lemma capped_scale_unit100 (x c : number) :
  wf x -> posConst c -> 0 <= ext x -> unit100 (cap (mul x c)).
Proof.
  intros W (Vc & Fc & Pc) H.
  destruct (mul_const_nonneg x c W Vc Fc Pc H) as (Wm & Lm).
  apply cap_unit100; assumption.
Qed.

(** The three-term weighted sum of values between 0 and 100 rounds to a
    score. *)
Lemma isScore_weighted3 (x y z : number) :
  unit100 x -> unit100 y -> unit100 z ->
  isScore (Math_round (add (add (mul x (lit 4 10)) (mul y (lit 3 10)))
                             (mul z (lit 3 10)))) = true.
Proof.
  intros Ux Uy Uz.
  destruct posConst_weights as (P4 & P3 & _ & _).
  destruct tops_below_huge as (H4 & H3 & _ & H43 & W4 & W3 & _).
  destruct top_facts as (Wt & Ft & Rt & _).
  destruct (term_bounds x _ Ux P4) as (Wa & La & Ua).
  destruct (term_bounds y _ Uy P3) as (Wb & Lb & Ub).
  destruct (term_bounds z _ Uz P3) as (Wc & Lc & Uc).
  assert (W0 : wf (S754_zero false)) by (split; [reflexivity|discriminate]).
  destruct (sum3_mono (S754_zero false) (mul x (lit 4 10))
                      (S754_zero false) (mul y (lit 3 10))
                      (S754_zero false) (mul z (lit 3 10))
                      (mul (of_Z 100) (lit 4 10)) (mul (of_Z 100) (lit 3 10))
                      (mul (of_Z 100) (lit 3 10)))
    as (_ & Ws & L & U); try assumption.
  apply (isScore_round _ top3); try assumption.
  split; [exact L|exact U].
Qed.

(** The two-term weighted sum of the decentralization score. *)
Lemma isScore_weighted2 (x y : number) :
  unit100 x -> unit100 y ->
  isScore (Math_round (add (mul x (lit 7 10)) (mul y (lit 3 10)))) = true.
Proof.
  intros Ux Uy.
  destruct posConst_weights as (_ & P3 & P7 & _).
  destruct tops_below_huge as (_ & H3 & H7 & _ & _ & W3 & W7).
  destruct top_facts as (_ & _ & _ & Wt & Ft & Rt).
  destruct (term_bounds x _ Ux P7) as (Wa & La & Ua).
  destruct (term_bounds y _ Uy P3) as (Wb & Lb & Ub).
  apply (isScore_round _ top2); try assumption.
  - apply add_wf; (assumption || lia).
  - split.
    + apply add_nonneg; (assumption || lia).
    + apply add_mono; (assumption || lia).
Qed.

(** The inverted concentration [Math.max(0, 100 - c)] of a concentration
    that is not negative. *)
Lemma concentration_unit100 (c : number) :
  wf c -> 0 <= ext c -> unit100 (Math_max (of_Z 0) (sub (of_Z 100) c)).
Proof.
  intros W H. pose proof huge_pos as Hh. pose proof ext_100_lt_huge as H100.
  rewrite sub_add_opp.
  pose proof (SFopp_wf c W) as Wo. pose proof (SFopp_ext c) as Eo.
  assert (W0 : wf (S754_zero false)) by (split; [reflexivity|discriminate]).
  assert (Ws : wf (add (of_Z 100) (SFopp c)))
    by (apply add_wf; (exact wf_100 || assumption || lia)).
  assert (U : ext (add (of_Z 100) (SFopp c)) <= ext (add (of_Z 100) (S754_zero false))).
  { apply add_mono; try assumption; try exact wf_100; try lia.
    simpl ext at 2. lia. }
  change (add (of_Z 100) (S754_zero false)) with (of_Z 100) in U.
  destruct (Math_max_spec (of_Z 0) _ wf_0 Ws) as (Wm & Em).
  assert (0 <= ext (of_Z 100)) by (vm_compute; discriminate).
  split; [exact Wm|]. rewrite Em, ext_0. lia.
Qed.

(** ** The risk detector *)

Lemma identifyRisks_fired (m : DAOMetrics) (cs : CategoryScores) :
  identifyRisks m cs = fired (combine (map fst canonicalRuleset) ruleRecords) m.
Proof.
  unfold identifyRisks, RiskDetector.push, fired; simpl.
  destruct (lt (avgVoterTurnout m) (of_Z 10)),
           (gt (tokenConcentration m) (of_Z 70)),
           (lt (totalProposals m) (of_Z 5)),
           (lt (proposalSuccessRate m) (of_Z 30)),
           (lt (delegateActivity m) (of_Z 20)); reflexivity.
Qed.

(** C3: the detector returns, in rule-declaration order, exactly the records
    of the rules whose threshold condition holds (turnout < 10, concentration
    > 70, proposals < 5, success rate < 30, delegate activity < 20), each with
    the severity and category of the canonical ruleset, so every rule is
    evaluated on every call and nothing else is produced; the comparison is
    strict: a turnout of 10 raises no low-turnout risk while 9.999 does. *)
Theorem C3_identifyRisks_ruleset (m : DAOMetrics) (cs : CategoryScores) :
  identifyRisks m cs = fired (combine (map fst canonicalRuleset) ruleRecords) m /\
  map (fun r => (type r, category r)) (identifyRisks m cs) = fired canonicalRuleset m /\
  map (fun r => (type r, category r)) ruleRecords = map snd canonicalRuleset /\
  ~ In lowTurnoutRisk (identifyRisks (withTurnout (of_Z 10) m) cs) /\
  In lowTurnoutRisk (identifyRisks (withTurnout (lit 9999 1000) m) cs).
Proof.
  split; [apply identifyRisks_fired|].
  split.
  { rewrite identifyRisks_fired. unfold fired; simpl.
    destruct (lt (avgVoterTurnout m) (of_Z 10)),
             (gt (tokenConcentration m) (of_Z 70)),
             (lt (totalProposals m) (of_Z 5)),
             (lt (proposalSuccessRate m) (of_Z 30)),
             (lt (delegateActivity m) (of_Z 20)); reflexivity. }
  split; [reflexivity|].
  rewrite !identifyRisks_fired. unfold fired, withTurnout.
  cbn [canonicalRuleset ruleRecords map combine filter fst snd avgVoterTurnout
       tokenConcentration totalProposals proposalSuccessRate delegateActivity].
  change (lt (of_Z 10) (of_Z 10)) with false.
  change (lt (lit 9999 1000) (of_Z 10)) with true.
  destruct (gt (tokenConcentration m) (of_Z 70)),
           (lt (totalProposals m) (of_Z 5)),
           (lt (proposalSuccessRate m) (of_Z 30)),
           (lt (delegateActivity m) (of_Z 20)); cbn [map snd In];
    (split; [intros H; repeat (destruct H as [H|H]; [discriminate H|]); exact H
            |left; reflexivity]).
Qed.

(** ** The recommendation generator *)

(** C5: the generator returns exactly the recommendations whose conditions
    hold, in the fixed order of the five rules, and the empty list when no
    condition holds. *)
Theorem C5_generateRecommendations_rules (m : DAOMetrics) (risks : list Risk) :
  generateRecommendations m risks = fired recommendationRules (m, risks) /\
  (forallb (fun rule => negb (fst rule (m, risks))) recommendationRules = true ->
   generateRecommendations m risks = []).
Proof.
  unfold generateRecommendations, GovernanceAnalyzer.push, fired, isHigh; simpl.
  destruct (lt (avgVoterTurnout m) (of_Z 20)),
           (gt (tokenConcentration m) (of_Z 50)),
           (lt (delegateActivity m) (of_Z 30)),
           (0 <? List.length (filter (fun r => RiskType_eqb (type r) HIGH) risks))%nat,
           (lt (proposalSuccessRate m) (of_Z 40));
    simpl; split; try reflexivity; intros H; discriminate H.
Qed.

Lemma C5_generateRecommendations_rules_witness :
  forallb (fun rule => negb (fst rule (scenarioA, @nil Risk))) recommendationRules = true /\
  generateRecommendations scenarioA [] = [].
Proof.
  split; [vm_compute; reflexivity|].
  apply (proj2 (C5_generateRecommendations_rules scenarioA [])).
  vm_compute; reflexivity.
Defined.

(** ** Scenario B *)

(** C6: on the metrics of scenario B the detector returns five risks, three
    of them HIGH, the risk level is CRITICAL, and the overall score computed
    from the five category scores is 16, hence below 40. *)
Theorem C6_scenarioB :
  let scores := calculateCategoryScores scenarioB in
  let risks := identifyRisks scenarioB scores in
  let overall := calculateOverallScore (Object_entries scores) in
  List.length risks = 5%nat /\
  List.length (filter (fun r => RiskType_eqb (type r) HIGH) risks) = 3%nat /\
  getRiskLevel risks = "CRITICAL"%string /\
  overall = of_Z 16 /\ lt overall (of_Z 40) = true /\
  getInvestmentSignal overall = "AVOID"%string.
Proof. vm_compute. repeat split. Qed.

(** ** Risk level of the detector's output *)

(** C9: whatever the metrics, the risk level of the detector's own output is
    CRITICAL, HIGH or LOW and never MEDIUM: a list of more than three risks
    holds a HIGH one. *)
Theorem C9_riskLevel_never_medium (m : DAOMetrics) (cs : CategoryScores) :
  let risks := identifyRisks m cs in
  getRiskLevel risks <> "MEDIUM"%string /\
  (getRiskLevel risks = "CRITICAL" \/ getRiskLevel risks = "HIGH" \/
   getRiskLevel risks = "LOW")%string /\
  ((3 < List.length risks)%nat -> existsb isHigh risks = true).
Proof.
  unfold identifyRisks, RiskDetector.push; simpl.
  destruct (lt (avgVoterTurnout m) (of_Z 10)),
           (gt (tokenConcentration m) (of_Z 70)),
           (lt (totalProposals m) (of_Z 5)),
           (lt (proposalSuccessRate m) (of_Z 30)),
           (lt (delegateActivity m) (of_Z 20));
    vm_compute; (split; [discriminate|split; [tauto|]]);
    try reflexivity; intros H; exfalso; clear -H;
    repeat (apply le_S_n in H); inversion H.
Qed.

Lemma C9_riskLevel_never_medium_witness :
  (3 < List.length (identifyRisks scenarioB (calculateCategoryScores scenarioB)))%nat /\
  existsb isHigh (identifyRisks scenarioB (calculateCategoryScores scenarioB)) = true.
Proof.
  split; [vm_compute; repeat constructor|].
  apply (proj2 (proj2 (C9_riskLevel_never_medium scenarioB (calculateCategoryScores scenarioB)))).
  vm_compute; repeat constructor.
Defined.

(** ** The transparency score *)

(** C10: the transparency score is one of 76, 64, 58 and 46, selected by the
    two predicates [totalProposals > 10] and [avgProposalDuration > 3], and
    each of the four is reached; so it lies between 46 and 76 and is neither
    0 nor 100, whatever the input. *)
Theorem C10_transparency_four_values (m : DAOMetrics) :
  let t := calculateTransparencyScore m in
  t = of_Z (transparencyTable (gt (totalProposals m) (of_Z 10))
                              (gt (avgProposalDuration m) (of_Z 3))) /\
  (t = of_Z 46 \/ t = of_Z 58 \/ t = of_Z 64 \/ t = of_Z 76) /\
  SFleb (of_Z 46) t = true /\ SFleb t (of_Z 76) = true /\
  t <> of_Z 0 /\ t <> of_Z 100 /\
  (forall many long : bool,
     calculateTransparencyScore
       (metricsOf (if many then of_Z 11 else of_Z 10) (of_Z 0) (of_Z 0) (of_Z 0)
                  (of_Z 0) (of_Z 0) (if long then of_Z 4 else of_Z 3) (of_Z 0)
                  (of_Z 0))
     = of_Z (transparencyTable many long)).
Proof.
  assert (R : forall many long : bool,
             calculateTransparencyScore
               (metricsOf (if many then of_Z 11 else of_Z 10) (of_Z 0) (of_Z 0)
                          (of_Z 0) (of_Z 0) (of_Z 0)
                          (if long then of_Z 4 else of_Z 3) (of_Z 0) (of_Z 0))
             = of_Z (transparencyTable many long))
    by (intros [|] [|]; vm_compute; reflexivity).
  unfold calculateTransparencyScore.
  destruct (gt (totalProposals m) (of_Z 10)), (gt (avgProposalDuration m) (of_Z 3));
    (split; [vm_compute; reflexivity|
     split; [vm_compute; tauto|
     split; [vm_compute; reflexivity|
     split; [vm_compute; reflexivity|
     split; [vm_compute; discriminate|
     split; [vm_compute; discriminate|exact R]]]]]]).
Qed.

(** ** Determinism

    The program text of the four operations, run by the interpreter in an
    arbitrary world, computes what their embeddings as functions compute. *)

Lemma script_participation (fuel : nat) (w : Script.World) (m : DAOMetrics) :
  Script.invoke Script.HealthScorer (S fuel) "calculateParticipationScore"
                [Script.ofMetrics m] w
  = Some (Script.VNumber (calculateParticipationScore m), w).
Proof. reflexivity. Qed.

Lemma script_decentralization (fuel : nat) (w : Script.World) (m : DAOMetrics) :
  Script.invoke Script.HealthScorer (S fuel) "calculateDecentralizationScore"
                [Script.ofMetrics m] w
  = Some (Script.VNumber (calculateDecentralizationScore m), w).
Proof. reflexivity. Qed.

Lemma script_activity (fuel : nat) (w : Script.World) (m : DAOMetrics) :
  Script.invoke Script.HealthScorer (S fuel) "calculateActivityScore"
                [Script.ofMetrics m] w
  = Some (Script.VNumber (calculateActivityScore m), w).
Proof. reflexivity. Qed.

Lemma script_stability (fuel : nat) (w : Script.World) (m : DAOMetrics) :
  Script.invoke Script.HealthScorer (S fuel) "calculateStabilityScore"
                [Script.ofMetrics m] w
  = Some (Script.VNumber (calculateStabilityScore m), w).
Proof. reflexivity. Qed.

Lemma script_transparency (fuel : nat) (w : Script.World) (m : DAOMetrics) :
  Script.invoke Script.HealthScorer (S fuel) "calculateTransparencyScore"
                [Script.ofMetrics m] w
  = Some (Script.VNumber (calculateTransparencyScore m), w).
Proof.
  unfold calculateTransparencyScore.
  cbn.
  destruct (gt (totalProposals m) (of_Z 10)), (gt (avgProposalDuration m) (of_Z 3));
    reflexivity.
Qed.

Lemma script_categoryScores (fuel : nat) (w : Script.World) (m : DAOMetrics) :
  Script.invoke Script.HealthScorer (S (S fuel)) "calculateCategoryScores"
                [Script.ofMetrics m] w
  = Some (Script.ofObject (Object_entries (calculateCategoryScores m)), w).
Proof.
  unfold calculateCategoryScores, calculateTransparencyScore.
  cbn.
  destruct (gt (totalProposals m) (of_Z 10)), (gt (avgProposalDuration m) (of_Z 3));
    reflexivity.
Qed.

Lemma script_find_weights (k : string) :
  Script.find (map (fun entry => (fst entry, Script.VNumber (snd entry))) weights) k
  = match get weights k with
    | Some x => Some (Script.VNumber x)
    | None => None
    end.
Proof.
  induction weights as [|[k' x] l IHl]; [reflexivity|].
  cbn [map Script.find get fst snd]. destruct (String.eqb k' k); [reflexivity|].
  exact IHl.
Qed.

(** One round of the reduce. *)
Lemma script_reduce_step (call : string -> Script.value -> Script.World -> Script.result)
    (env : list (string * Script.value)) (k : string) (total v : number)
    (w : Script.World) :
  Script.find env "weights"%string = Some (Script.ofObject weights) ->
  Script.eval call w
    (("total", Script.VNumber total) :: ("category", Script.VString k)
     :: ("score", Script.VNumber v) :: env)%string
    (Script.Bin Script.Add (Script.Var "total")
       (Script.Bin Script.Mul (Script.Var "score")
          (Script.Index (Script.Var "weights") (Script.Var "category"))))
  = Some (Script.VNumber (add total (mul v (ToNumber (get weights k)))), w).
Proof.
  intros E.
  cbn [Script.eval Script.find String.eqb Ascii.eqb Bool.eqb].
  rewrite E. cbn [Script.index Script.member Script.ofObject].
  rewrite script_find_weights.
  destruct (get weights k) as [x|]; reflexivity.
Qed.

(** The loop of the reduce is a fold. *)
Lemma script_reduce (step : Script.value -> string -> Script.value -> Script.World ->
                            Script.result)
    (f : number -> string -> number -> number) (o : object) (total : number)
    (w : Script.World) :
  (forall acc k v w', step (Script.VNumber acc) k (Script.VNumber v) w'
                      = Some (Script.VNumber (f acc k v), w')) ->
  Script.reduceEntries step
    (map (fun entry => (fst entry, Script.VNumber (snd entry))) o)
    (Script.VNumber total) w
  = Some (Script.VNumber
            (fold_left (fun total entry => let '(k, v) := entry in f total k v) o total),
          w).
Proof.
  intros H. revert total. induction o as [|[k v] o IH]; intros total.
  - reflexivity.
  - cbn [map fold_left Script.reduceEntries fst snd]. rewrite H. apply IH.
Qed.

Lemma script_overallScore (fuel : nat) (w : Script.World) (o : object) :
  Script.invoke Script.HealthScorer (S fuel) "calculateOverallScore"
                [Script.ofObject o] w
  = Some (Script.VNumber (calculateOverallScore o), w).
Proof.
  unfold calculateOverallScore.
  cbn [Script.invoke Script.find Script.HealthScorer String.eqb Ascii.eqb Bool.eqb
       Script.params Script.body combine Script.exec Script.eval Script.object_literal
       fold_left fst snd app Script.ofObject].
  rewrite (script_reduce _ (fun acc k v => add acc (mul v (ToNumber (get weights k))))).
  - reflexivity.
  - intros acc k v w'.
    exact (script_reduce_step
             (fun m' arg w'' => Script.invoke Script.HealthScorer fuel m' [arg] w'')
             [("weights"%string, Script.ofObject weights);
              ("categoryScores"%string, Script.ofObject o)]
             k acc v w' eq_refl).
Qed.

Lemma script_identifyRisks (fuel : nat) (w : Script.World) (m : DAOMetrics)
    (categoryScores : Script.value) (cs : CategoryScores) :
  Script.invoke Script.RiskDetector (S fuel) "identifyRisks"
                [Script.ofMetrics m; categoryScores] w
  = Some (Script.ofRisks (identifyRisks m cs), w).
Proof.
  unfold identifyRisks, RiskDetector.push. cbn.
  destruct (lt (avgVoterTurnout m) (of_Z 10)),
           (gt (tokenConcentration m) (of_Z 70)),
           (lt (totalProposals m) (of_Z 5)),
           (lt (proposalSuccessRate m) (of_Z 30)),
           (lt (delegateActivity m) (of_Z 20)); reflexivity.
Qed.

Lemma script_filter (test : Script.value -> Script.World -> Script.result)
    (p : Risk -> bool) (risks : list Risk) (w : Script.World) :
  (forall r w', test (Script.ofRisk r) w' = Some (Script.VBoolean (p r), w')) ->
  Script.filterElements test (map Script.ofRisk risks) w
  = Some (map Script.ofRisk (filter p risks), w).
Proof.
  intros H. induction risks as [|r risks IH]; [reflexivity|].
  cbn [map Script.filterElements filter]. rewrite H, IH.
  destruct (p r); reflexivity.
Qed.

(** The length of a list, as a number, is positive exactly when the list is
    not empty. *)
Lemma gt_of_nat (n : nat) : gt (of_Z (Z.of_nat n)) (of_Z 0) = (0 <? n)%nat.
Proof.
  destruct n as [|n]; [reflexivity|].
  cbn [Nat.ltb Nat.leb].
  assert (K : 0 < Z.of_nat (S n)) by lia.
  generalize dependent (Z.of_nat (S n)). intros k K.
  pose proof huge_pos as Hh. pose proof emin_eq as Hm.
  destruct (binary_normalize_spec k 0) as (W & E).
  fold (of_Z k) in W, E.
  change (lt (of_Z 0) (of_Z k) = true).
  rewrite (lt_ext _ _ wf_0 W), ext_0, E.
  pose proof (rnd_mono 1 k 0 ltac:(lia)) as M.
  rewrite (rnd_integer 1) in M by (rewrite prec_eq; lia).
  pose proof (pow2_pos (- emin) ltac:(lia)) as P.
  apply Z.ltb_lt. unfold saturate. lia.
Qed.

Lemma script_generateRecommendations (fuel : nat) (w : Script.World) (m : DAOMetrics)
    (risks : list Risk) :
  Script.invoke Script.GovernanceAnalyzer (S fuel) "generateRecommendations"
                [Script.ofMetrics m; Script.ofRisks risks] w
  = Some (Script.ofStrings (generateRecommendations m risks), w).
Proof.
  unfold generateRecommendations, GovernanceAnalyzer.push.
  rewrite <- (gt_of_nat (List.length (filter isHigh risks))).
  cbn [Script.invoke Script.find Script.GovernanceAnalyzer String.eqb Ascii.eqb Bool.eqb
       Script.params Script.body combine Script.exec Script.eval Script.ofMetrics
       Script.ofRisks Script.member Script.binary Script.comparison Script.toNumber].
  rewrite !(script_filter _ isHigh).
  - cbn [Script.member String.eqb Ascii.eqb Bool.eqb Script.comparison Script.toNumber].
    rewrite !length_map.
    destruct (lt (avgVoterTurnout m) (of_Z 20)),
             (gt (tokenConcentration m) (of_Z 50)),
             (lt (delegateActivity m) (of_Z 30)),
             (gt (of_Z (Z.of_nat (List.length (filter isHigh risks)))) (of_Z 0)),
             (lt (proposalSuccessRate m) (of_Z 40)); reflexivity.
  - intros [[| |] c d i mi] w'; reflexivity.
Qed.

(** C8: the four operations are deterministic and stateless.  Run from their
    program text in any world, whatever the clock reads, whatever
    [Math.random] would return, whatever the fields of the instance hold
    and whatever earlier calls did, each of them returns, with fuel for its
    calls on [this], the value its embedding as a function gives, which
    depends on the arguments alone, and leaves the world as it found it; the
    detector does not read its second argument.  The interpreter does tell
    the difference: [new Date()], which [analyzeDAO] puts into the field
    [lastUpdated] of its result, has no value that is the same in every
    world. *)
Theorem C8_deterministic (fuel : nat) (m : DAOMetrics) (o : object)
    (categoryScores : Script.value) (cs : CategoryScores) (risks : list Risk) :
  Script.stateless Script.HealthScorer (S (S fuel)) "calculateCategoryScores"
    [Script.ofMetrics m]
    (Script.ofObject (Object_entries (calculateCategoryScores m))) /\
  Script.stateless Script.HealthScorer (S fuel) "calculateOverallScore"
    [Script.ofObject o] (Script.VNumber (calculateOverallScore o)) /\
  Script.stateless Script.RiskDetector (S fuel) "identifyRisks"
    [Script.ofMetrics m; categoryScores] (Script.ofRisks (identifyRisks m cs)) /\
  Script.stateless Script.GovernanceAnalyzer (S fuel) "generateRecommendations"
    [Script.ofMetrics m; Script.ofRisks risks]
    (Script.ofStrings (generateRecommendations m risks)) /\
  ~ (exists r, forall call w env,
       Script.eval call w env Script.lastUpdated = Some (r, w)).
Proof.
  split; [intros w; apply script_categoryScores|].
  split; [intros w; apply script_overallScore|].
  split; [intros w; apply script_identifyRisks|].
  split; [intros w; apply script_generateRecommendations|].
  intros (r & H).
  pose proof (H (fun _ _ _ => None)
                {| Script.clock := 0; Script.random := []; Script.fields := [] |} [])
    as H0.
  pose proof (H (fun _ _ _ => None)
                {| Script.clock := 1; Script.random := []; Script.fields := [] |} [])
    as H1.
  cbn [Script.eval Script.lastUpdated Script.clock] in H0, H1.
  injection H0 as <-. injection H1 as H1. vm_compute in H1. discriminate H1.
Qed.

(** ** The overall score *)

(** C2, as stated, fails: the aggregator adds the terms in the order in
    which the keys of its argument were created.  With the scores 0, 0, 1,
    46 and 16 the formula gives 10 (the sum is the tie 9.5), and so does the
    aggregator on the keys in the order of the record; on the same five keys
    and scores created in the reverse order the sum is just below 9.5 and
    the aggregator returns 9. *)
Lemma C2_counterexample :
  calculateOverallScore (entriesIn (rev categories) tieScores) = of_Z 9 /\
  Math_round (weightedSum (participation tieScores) (decentralization tieScores)
                          (activity tieScores) (transparency tieScores)
                          (stability tieScores)) = of_Z 10 /\
  calculateOverallScore (Object_entries tieScores) = of_Z 10 /\
  Permutation (entriesIn (rev categories) tieScores) (Object_entries tieScores) /\
  ~ SameValueZero
      (calculateOverallScore (entriesIn (rev categories) tieScores))
      (Math_round (weightedSum (participation tieScores) (decentralization tieScores)
                               (activity tieScores) (transparency tieScores)
                               (stability tieScores))).
Proof.
  split; [vm_compute; reflexivity|].
  split; [vm_compute; reflexivity|].
  split; [vm_compute; reflexivity|].
  split; [apply Permutation_sym, Permutation_rev|].
  vm_compute. intros [H|(s & t & H & _)]; discriminate H.
Qed.

(** C2, amended: on the five category scores under keys created in the
    order participation, decentralization, activity, transparency,
    stability, which is the order of the object [calculateCategoryScores]
    returns, the aggregator returns the weighted sum
    0.25 P + 0.25 D + 0.20 A + 0.15 T + 0.15 S, evaluated from left to right,
    rounded once, after the summation; the two results are the same number,
    the sign of a zero apart.  Rounding every term on its own gives another
    function. *)
Theorem C2_overall_weighted_sum (c : CategoryScores) :
  SameValueZero
    (calculateOverallScore (Object_entries c))
    (Math_round (weightedSum (participation c) (decentralization c) (activity c)
                             (transparency c) (stability c))) /\
  calculateOverallScore
    (Object_entries (Build_CategoryScores (of_Z 1) (of_Z 1) (of_Z 1) (of_Z 1) (of_Z 1)))
  <> roundedPerTerm (of_Z 1) (of_Z 1) (of_Z 1) (of_Z 1) (of_Z 1).
Proof.
  split; [|vm_compute; discriminate].
  unfold calculateOverallScore, weightedSum, Object_entries. simpl.
  apply Math_round_SameValueZero.
  repeat apply add_SameValueZero;
    try (rewrite mul_comm; apply SameValueZero_refl).
  rewrite mul_comm. apply add_0_l.
Qed.

(** ** The participation score *)

(** C4, as stated, fails: with a turnout of -50 and no delegate activity or
    engagement the code returns -40 where the formula with the two-sided
    clamp gives 0. *)
Lemma C4_counterexample :
  calculateParticipationScore negativeTurnout = of_Z (-40) /\
  participationFormula clamp negativeTurnout = of_Z 0 /\
  ~ SameValueZero (calculateParticipationScore negativeTurnout)
                  (participationFormula clamp negativeTurnout).
Proof.
  split; [vm_compute; reflexivity|].
  split; [vm_compute; reflexivity|].
  vm_compute. intros [H|(s & t & H & _)]; discriminate H.
Qed.

(** C4, amended: the participation score is the rounded weighted sum of the
    three terms capped at 100 from above only; it agrees with the formula of
    the two-sided clamp whenever turnout, delegate activity and community
    engagement are not negative. *)
Theorem C4_participation_formula (m : DAOMetrics) :
  calculateParticipationScore m = participationFormula cap m /\
  (ge (avgVoterTurnout m) (of_Z 0) = true ->
   ge (delegateActivity m) (of_Z 0) = true ->
   ge (communityEngagement m) (of_Z 0) = true ->
   SameValueZero (calculateParticipationScore m) (participationFormula clamp m)).
Proof.
  assert (E : calculateParticipationScore m = participationFormula cap m).
  { unfold calculateParticipationScore, participationFormula, cap.
    rewrite !(mul_comm (Math_min _ _)). reflexivity. }
  split; [exact E|].
  intros Ht Hd He. rewrite E.
  unfold participationFormula, cap, clamp.
  apply Math_round_SameValueZero.
  repeat apply add_SameValueZero;
    rewrite !(mul_comm (lit _ _)); apply mul_SameValueZero;
    apply Math_min_100_SameValueZero.
  - apply Math_max_0_mul_2, Ht.
  - apply Math_max_0_nonneg, Hd.
  - apply Math_max_0_nonneg, He.
Qed.

Lemma C4_participation_formula_witness :
  ge (avgVoterTurnout scenarioB) (of_Z 0) = true /\
  ge (delegateActivity scenarioB) (of_Z 0) = true /\
  ge (communityEngagement scenarioB) (of_Z 0) = true /\
  SameValueZero (calculateParticipationScore scenarioB)
                (participationFormula clamp scenarioB).
Proof.
  repeat split; try (vm_compute; reflexivity).
  apply (proj2 (C4_participation_formula scenarioB)); vm_compute; reflexivity.
Defined.

(** C7: of two inputs that differ in the voter turnout only, the one with
    the larger turnout has a participation score at least as large; from a
    turnout of 50 on the turnout term is saturated at 100 and the score no
    longer changes. *)
Theorem C7_participation_monotone (m1 m2 : DAOMetrics) :
  wfMetrics m1 -> wfMetrics m2 ->
  m2 = withTurnout (avgVoterTurnout m2) m1 ->
  lt (avgVoterTurnout m1) (avgVoterTurnout m2) = true ->
  ge (calculateParticipationScore m2) (calculateParticipationScore m1) = true /\
  (ge (avgVoterTurnout m1) (of_Z 50) = true ->
   calculateParticipationScore m2 = calculateParticipationScore m1).
Proof.
  intros (_ & _ & Wt1 & _ & Wd & _ & _ & _ & We) (_ & _ & Wt2 & _) Hm Hlt.
  assert (Ed : delegateActivity m2 = delegateActivity m1) by (rewrite Hm; reflexivity).
  assert (Ee : communityEngagement m2 = communityEngagement m1) by (rewrite Hm; reflexivity).
  unfold calculateParticipationScore. rewrite Ed, Ee.
  fold (cap (mul (avgVoterTurnout m1) (of_Z 2))).
  fold (cap (mul (avgVoterTurnout m2) (of_Z 2))).
  fold (cap (delegateActivity m1)). fold (cap (communityEngagement m1)).
  set (t1 := avgVoterTurnout m1) in *. set (t2 := avgVoterTurnout m2) in *.
  set (d := delegateActivity m1) in *. set (e := communityEngagement m1) in *.
  destruct posConst_weights as (P4 & P3 & _ & _).
  destruct posConst_factors as (P2 & _).
  destruct tops_below_huge as (H4 & H3 & _ & H43 & W4 & W3 & _).
  assert (Ht : ext t1 <= ext t2).
  { rewrite (lt_ext t1 t2 Wt1 Wt2) in Hlt. apply Z.ltb_lt in Hlt. lia. }
  destruct P2 as (V2 & F2 & X2).
  destruct (mul_const_mono t1 t2 (of_Z 2) Wt1 Wt2 V2 F2 X2 Ht) as (Wm1 & Wm2 & Hm12).
  destruct (capped_term_bounds (mul t1 (of_Z 2)) _ Wm1 P4) as (Wa1 & Ua1).
  destruct (capped_term_bounds (mul t2 (of_Z 2)) _ Wm2 P4) as (Wa2 & Ua2).
  destruct (capped_term_bounds d _ Wd P3) as (Wb & Ub).
  destruct (capped_term_bounds e _ We P3) as (Wc & Uc).
  pose proof (capped_term_mono _ _ _ Wm1 Wm2 P4 Hm12) as Ma.
  split.
  - destruct (sum3_mono (mul (cap (mul t1 (of_Z 2))) (lit 4 10))
                        (mul (cap (mul t2 (of_Z 2))) (lit 4 10))
                        (mul (cap d) (lit 3 10)) (mul (cap d) (lit 3 10))
                        (mul (cap e) (lit 3 10)) (mul (cap e) (lit 3 10))
                        (mul (of_Z 100) (lit 4 10)) (mul (of_Z 100) (lit 3 10))
                        (mul (of_Z 100) (lit 3 10)))
      as (Ws1 & Ws2 & M & _); try assumption; try lia.
    pose proof (Math_round_mono _ _ Ws1 Ws2 M) as R.
    rewrite ge_ext by (apply Math_round_spec; assumption).
    apply Z.leb_le, R.
  - intros H50.
    assert (W50 : wf (of_Z 50)) by closed_wf.
    rewrite (ge_ext t1 (of_Z 50) Wt1 W50) in H50. apply Z.leb_le in H50.
    assert (S : forall t, wf t -> ext (of_Z 50) <= ext t ->
                cap (mul t (of_Z 2)) = of_Z 100).
    { intros t Wt H.
      destruct (mul_const_mono (of_Z 50) t (of_Z 2) W50 Wt V2 F2 X2 H) as (_ & Wm & Hm').
      change (mul (of_Z 50) (of_Z 2)) with (of_Z 100) in Hm'.
      unfold cap, Math_min. rewrite (SFcompare_ext _ _ wf_100 Wm).
      destruct (Z.compare_spec (ext (of_Z 100)) (ext (mul t (of_Z 2)))) as [Q|Q|Q];
        try reflexivity; [|lia].
      destruct (mul t (of_Z 2)) as [[|]| | |]; try reflexivity.
      vm_compute in Q. discriminate Q. }
    rewrite (S t1 Wt1 H50), (S t2 Wt2 ltac:(lia)). reflexivity.
Qed.

Lemma C7_participation_monotone_witness :
  ge (calculateParticipationScore (withTurnout (of_Z 40) scenarioB))
     (calculateParticipationScore scenarioB) = true.
Proof.
  apply (C7_participation_monotone scenarioB (withTurnout (of_Z 40) scenarioB)).
  - repeat split; try (vm_compute; reflexivity); vm_compute; discriminate.
  - repeat split; try (vm_compute; reflexivity); vm_compute; discriminate.
  - reflexivity.
  - vm_compute. reflexivity.
Defined.

(** ** Range of the category scores *)

(** C1, as stated, fails: on an input with a negative turnout, a negative
    concentration and a success rate of 1000 the participation score is
    negative and the decentralization, activity and stability scores exceed
    100. *)
Lemma C1_counterexample :
  let c := calculateCategoryScores adversarial in
  participation c = of_Z (-7) /\ decentralization c = of_Z 123 /\
  activity c = of_Z 339 /\ stability c = of_Z 439 /\
  isScore (participation c) = false /\ isScore (decentralization c) = false /\
  isScore (activity c) = false /\ isScore (stability c) = false.
Proof. vm_compute. repeat split. Qed.

(** C1, amended: when every numeric field is a number that is not negative
    and the success rate and the treasury health are at most 100, each of
    the five category scores is an integer between 0 and 100; the scorers
    cap from above the terms that can be huge, whatever their size. *)
Theorem C1_scores_in_range (m : DAOMetrics) :
  wfMetrics m -> inExpectedRange m = true ->
  let c := calculateCategoryScores m in
  isScore (participation c) = true /\ isScore (decentralization c) = true /\
  isScore (activity c) = true /\ isScore (transparency c) = true /\
  isScore (stability c) = true.
Proof.
  intros (Wtp & Wap & Wvt & Wtc & Wda & Wsr & Wpd & Wth & Wce) R.
  unfold inExpectedRange in R. rewrite !andb_true_iff in R.
  destruct R as ((((((((((Gtp & Gap) & Gvt) & Gtc) & Gda) & Gsr) & Gpd) & Gth) & Gce)
                   & Lsr) & Lth).
  destruct (nonneg_of_ge _ (proj1 Wtp) Gtp) as (_ & Ntp).
  destruct (nonneg_of_ge _ (proj1 Wap) Gap) as (_ & Nap).
  destruct (nonneg_of_ge _ (proj1 Wvt) Gvt) as (_ & Nvt).
  destruct (nonneg_of_ge _ (proj1 Wtc) Gtc) as (_ & Ntc).
  destruct (nonneg_of_ge _ (proj1 Wda) Gda) as (_ & Nda).
  destruct (nonneg_of_ge _ (proj1 Wpd) Gpd) as (_ & Npd).
  destruct (nonneg_of_ge _ (proj1 Wce) Gce) as (_ & Nce).
  pose proof (unit100_of_ge _ (proj1 Wsr) Gsr Lsr) as Usr.
  pose proof (unit100_of_ge _ (proj1 Wth) Gth Lth) as Uth.
  destruct posConst_factors as (P2 & P10 & P12 & P20 & P25).
  cbv zeta. unfold calculateCategoryScores.
  cbn [participation decentralization activity transparency stability].
  repeat split.
  - apply isScore_weighted3.
    + apply capped_scale_unit100; assumption.
    + apply cap_unit100; assumption.
    + apply cap_unit100; assumption.
  - apply isScore_weighted2.
    + apply concentration_unit100; assumption.
    + apply cap_unit100; assumption.
  - apply isScore_weighted3.
    + destruct (div_const_nonneg _ _ Wtp P12 Ntp) as (Wq & Nq).
      apply capped_scale_unit100; assumption.
    + apply capped_scale_unit100; assumption.
    + exact Usr.
  - unfold calculateTransparencyScore.
    destruct (gt (totalProposals m) (of_Z 10)), (gt (avgProposalDuration m) (of_Z 3));
      vm_compute; reflexivity.
  - apply isScore_weighted3.
    + exact Usr.
    + exact Uth.
    + apply capped_scale_unit100; assumption.
Qed.

Lemma C1_scores_in_range_witness :
  let c := calculateCategoryScores scenarioB in
  isScore (participation c) = true /\ isScore (decentralization c) = true /\
  isScore (activity c) = true /\ isScore (transparency c) = true /\
  isScore (stability c) = true.
Proof.
  apply (C1_scores_in_range scenarioB).
  - repeat split; try (vm_compute; reflexivity); vm_compute; discriminate.
  - vm_compute. reflexivity.
Defined.

(** * Further properties of the analyzer *)

(** ** The two rule lists as concatenations *)

Lemma identifyRisks_app (m : DAOMetrics) (cs : CategoryScores) :
  identifyRisks m cs =
  (if lt (avgVoterTurnout m) (of_Z 10) then [lowTurnoutRisk] else []) ++
  (if gt (tokenConcentration m) (of_Z 70) then [concentrationRisk] else []) ++
  (if lt (totalProposals m) (of_Z 5) then [lowActivityRisk] else []) ++
  (if lt (proposalSuccessRate m) (of_Z 30) then [lowSuccessRisk] else []) ++
  (if lt (delegateActivity m) (of_Z 20) then [lowDelegateRisk] else []).
Proof.
  unfold identifyRisks, RiskDetector.push.
  destruct (lt (avgVoterTurnout m) (of_Z 10)),
           (gt (tokenConcentration m) (of_Z 70)),
           (lt (totalProposals m) (of_Z 5)),
           (lt (proposalSuccessRate m) (of_Z 30)),
           (lt (delegateActivity m) (of_Z 20)); reflexivity.
Qed.

Lemma generateRecommendations_app (m : DAOMetrics) (risks : list Risk) :
  generateRecommendations m risks =
  (if lt (avgVoterTurnout m) (of_Z 20) then [recTurnout] else []) ++
  (if gt (tokenConcentration m) (of_Z 50) then [recConcentration] else []) ++
  (if lt (delegateActivity m) (of_Z 30) then [recDelegates] else []) ++
  (if (0 <? List.length (filter isHigh risks))%nat then [recHighRisks] else []) ++
  (if lt (proposalSuccessRate m) (of_Z 40) then [recSuccessRate] else []).
Proof.
  unfold generateRecommendations, GovernanceAnalyzer.push.
  destruct (lt (avgVoterTurnout m) (of_Z 20)),
           (gt (tokenConcentration m) (of_Z 50)),
           (lt (delegateActivity m) (of_Z 30)),
           (0 <? List.length (filter isHigh risks))%nat,
           (lt (proposalSuccessRate m) (of_Z 40)); reflexivity.
Qed.

(** ** What the detector never does *)

(** X1: the detector returns at most five risks, of which at most three are
    HIGH, never the same risk twice and never one of severity LOW. *)
Theorem identifyRisks_invariants (m : DAOMetrics) (cs : CategoryScores) :
  let found := identifyRisks m cs in
  NoDup found /\ (List.length found <= 5)%nat /\
  (List.length (filter isHigh found) <= 3)%nat /\
  (forall r, In r found -> type r = HIGH \/ type r = MEDIUM).
Proof.
  cbv zeta. rewrite identifyRisks_app.
  destruct (lt (avgVoterTurnout m) (of_Z 10)),
           (gt (tokenConcentration m) (of_Z 70)),
           (lt (totalProposals m) (of_Z 5)),
           (lt (proposalSuccessRate m) (of_Z 30)),
           (lt (delegateActivity m) (of_Z 20));
    cbn [app];
    (split; [repeat constructor; cbn [In]; intuition discriminate|]);
    (split; [cbn [List.length]; lia|]);
    (split; [cbn; lia|]);
    intros r H; cbn [In] in H;
    repeat (destruct H as [<-|H]; [cbn; tauto|]); contradiction.
Qed.

(** ** The risk level of any list of risks *)

Lemma filter_Permutation {A : Type} (f : A -> bool) (l l' : list A) :
  Permutation l l' -> Permutation (filter f l) (filter f l').
Proof.
  induction 1 as [|x l l' _ IH|x y l|l l' l'' _ IH1 _ IH2]; cbn [filter].
  - constructor.
  - destruct (f x); [constructor|]; exact IH.
  - destruct (f x), (f y); try apply Permutation_refl. apply perm_swap.
  - eapply Permutation_trans; eassumption.
Qed.

Lemma getRiskLevel_cases (l : list Risk) :
  getRiskLevel l =
  (if (2 <? List.length (filter isHigh l))%nat then "CRITICAL"
   else if (0 <? List.length (filter isHigh l))%nat then "HIGH"
   else if (3 <? List.length l)%nat then "MEDIUM" else "LOW")%string.
Proof. reflexivity. Qed.

(** X2: the risk level depends on the risks, not on their order, and adding
    risks to a list never lowers it. *)
Theorem getRiskLevel_order_and_growth (l l' more : list Risk) :
  (Permutation l l' -> getRiskLevel l = getRiskLevel l') /\
  (levelRank (getRiskLevel l) <= levelRank (getRiskLevel (l ++ more)))%nat.
Proof.
  split.
  - intros P. rewrite !getRiskLevel_cases.
    rewrite (Permutation_length (filter_Permutation isHigh l l' P)).
    rewrite (Permutation_length P). reflexivity.
  - rewrite !getRiskLevel_cases, filter_app, !length_app.
    set (h := List.length (filter isHigh l)).
    set (h' := List.length (filter isHigh more)).
    set (n := List.length l). set (n' := List.length more).
    destruct (Nat.ltb_spec 2 h), (Nat.ltb_spec 2 (h + h'));
      destruct (Nat.ltb_spec 0 h), (Nat.ltb_spec 0 (h + h'));
      destruct (Nat.ltb_spec 3 n), (Nat.ltb_spec 3 (n + n'));
      try lia; cbn; lia.
Qed.

Lemma getRiskLevel_order_and_growth_witness :
  getRiskLevel (identifyRisks scenarioB (calculateCategoryScores scenarioB)) =
  getRiskLevel (rev (identifyRisks scenarioB (calculateCategoryScores scenarioB))).
Proof.
  apply (proj1 (getRiskLevel_order_and_growth _ _ [])).
  apply Permutation_rev.
Defined.

(** ** The risk level and the recommendation on high-priority risks *)

(** X3: the recommendation to address high-priority risks is given exactly
    when the risk level of the same list is HIGH or CRITICAL. *)
Theorem recHighRisks_iff_level (m : DAOMetrics) (l : list Risk) :
  In recHighRisks (generateRecommendations m l) <->
  (2 <= levelRank (getRiskLevel l))%nat.
Proof.
  rewrite generateRecommendations_app, getRiskLevel_cases.
  rewrite !in_app_iff.
  assert (D : forall (b : bool) (s : string),
             s <> recHighRisks -> ~ In recHighRisks (if b then [s] else [])).
  { intros b s N. destruct b; cbn [In]; tauto. }
  pose proof (D (lt (avgVoterTurnout m) (of_Z 20)) recTurnout ltac:(discriminate)).
  pose proof (D (gt (tokenConcentration m) (of_Z 50)) recConcentration ltac:(discriminate)).
  pose proof (D (lt (delegateActivity m) (of_Z 30)) recDelegates ltac:(discriminate)).
  pose proof (D (lt (proposalSuccessRate m) (of_Z 40)) recSuccessRate ltac:(discriminate)).
  set (h := List.length (filter isHigh l)).
  destruct (Nat.ltb_spec 0 h) as [P|P].
  - split; [intros _|intros _; right; right; right; left; left; reflexivity].
    destruct (Nat.ltb_spec 2 h); cbn; lia.
  - split; [intros H'; cbn [In] in H'; tauto|].
    destruct (Nat.ltb_spec 2 h); [lia|].
    destruct (3 <? List.length l)%nat; cbn; lia.
Qed.

(** ** The risk sections of the report *)

Lemma concat_lines_nonempty (sep first : string) (rest : list string) :
  exists tail, String.concat sep (("- " ++ first)%string :: rest)
               = String "-"%char tail.
Proof. destruct rest; cbn; eauto. Qed.

Lemma riskLine_dash (r : Risk) : exists s, Report.riskLine r = ("- " ++ s)%string.
Proof. unfold Report.riskLine. cbn. eauto. Qed.

Lemma risk_section (f : Risk -> bool) (l : list Risk) :
  let text := Report.orElse (String.concat Report.newline
                               (map Report.riskLine (filter f l)))
                            "None identified" in
  text <> ""%string /\
  (text = "None identified"%string <-> filter f l = []).
Proof.
  cbv zeta. destruct (filter f l) as [|r rest].
  - cbn. split; [discriminate|tauto].
  - cbn [map]. destruct (riskLine_dash r) as [s ->].
    destruct (concat_lines_nonempty Report.newline s (map Report.riskLine rest))
      as [tail ->].
    cbn. split; [discriminate|]. split; discriminate.
Qed.

(** X4: a risk section of the report reads "None identified" exactly when
    the list holds no risk of its severity, and is never empty; the
    recommendation section has no such fallback and is empty exactly when
    there is no recommendation. *)
Theorem report_sections (l : list Risk) (recs : list string) :
  (Report.highPriorityRisks l = "None identified"%string <-> filter isHigh l = []) /\
  (Report.mediumPriorityRisks l = "None identified"%string <->
   filter Report.isMedium l = []) /\
  Report.highPriorityRisks l <> ""%string /\
  Report.mediumPriorityRisks l <> ""%string /\
  (Report.recommendationLines recs = ""%string <-> recs = []).
Proof.
  pose proof (risk_section isHigh l) as [H1 H2].
  pose proof (risk_section Report.isMedium l) as [M1 M2].
  repeat split; try apply H2; try apply M2; try assumption.
  - unfold Report.recommendationLines. destruct recs as [|r rest]; [reflexivity|].
    cbn [map].
    destruct (concat_lines_nonempty Report.newline r
                (map (fun rec => ("- " ++ rec)%string) rest)) as [tail ->].
    discriminate.
  - intros ->. reflexivity.
Qed.

(** ** Bounds and monotonicity of the weighted sums, continued *)

Lemma wf_zero : wf (S754_zero false).
Proof. split; [reflexivity|discriminate]. Qed.

Lemma posConst_overall_weights :
  posConst (lit 25 100) /\ posConst (lit 20 100) /\ posConst (lit 15 100).
Proof. repeat split; vm_compute; reflexivity. Qed.

(** One more term added to a running sum. *)
Lemma add_step (s s' a a' T A : number) :
  wf s -> wf s' -> wf a -> wf a' -> wf T -> wf A ->
  ext s <= ext s' -> ext s' <= ext T -> ext a <= ext a' -> ext a' <= ext A ->
  ext T < huge -> ext A < huge ->
  wf (add s a) /\ wf (add s' a') /\ wf (add T A) /\
  ext (add s a) <= ext (add s' a') /\ ext (add s' a') <= ext (add T A).
Proof.
  intros Ws Ws' Wa Wa' WT WA L1 U1 L2 U2 HT HA.
  split; [apply add_wf; (assumption || lia)|].
  split; [apply add_wf; (assumption || lia)|].
  split; [apply add_wf; (assumption || lia)|].
  split; apply add_mono; (assumption || lia).
Qed.

(** A term of a weighted sum, bounded from above only. *)
Lemma term_mono (x x' c : number) :
  wf x -> wf x' -> posConst c -> ext x <= ext x' -> ext x' <= ext (of_Z 100) ->
  wf (mul x c) /\ wf (mul x' c) /\
  ext (mul x c) <= ext (mul x' c) /\ ext (mul x' c) <= ext (mul (of_Z 100) c).
Proof.
  intros W W' (Vc & Fc & Pc) L U.
  destruct (mul_const_mono x x' c W W' Vc Fc Pc L) as (Wm & Wm' & M).
  destruct (mul_const_mono x' (of_Z 100) c W' wf_100 Vc Fc Pc U) as (_ & _ & M').
  split; [exact Wm|split; [exact Wm'|split; assumption]].
Qed.

Lemma weighted3_mono (x x' y y' z z' : number) :
  wf x -> wf x' -> wf y -> wf y' -> wf z -> wf z' ->
  ext x <= ext x' -> ext x' <= ext (of_Z 100) ->
  ext y <= ext y' -> ext y' <= ext (of_Z 100) ->
  ext z <= ext z' -> ext z' <= ext (of_Z 100) ->
  let S := add (add (mul x (lit 4 10)) (mul y (lit 3 10))) (mul z (lit 3 10)) in
  let S' := add (add (mul x' (lit 4 10)) (mul y' (lit 3 10))) (mul z' (lit 3 10)) in
  wf S /\ wf S' /\ ext S <= ext S' /\ ext S' <= ext top3.
Proof.
  intros Wx Wx' Wy Wy' Wz Wz' Lx Ux Ly Uy Lz Uz.
  destruct posConst_weights as (P4 & P3 & _ & _).
  destruct tops_below_huge as (H4 & H3 & _ & H43 & W4 & W3 & _).
  destruct (term_mono x x' _ Wx Wx' P4 Lx Ux) as (Wa & Wa' & La & Ua).
  destruct (term_mono y y' _ Wy Wy' P3 Ly Uy) as (Wb & Wb' & Lb & Ub).
  destruct (term_mono z z' _ Wz Wz' P3 Lz Uz) as (Wc & Wc' & Lc & Uc).
  cbv zeta. apply sum3_mono; assumption.
Qed.

Lemma weighted2_mono (x x' y y' : number) :
  wf x -> wf x' -> wf y -> wf y' ->
  ext x <= ext x' -> ext x' <= ext (of_Z 100) ->
  ext y <= ext y' -> ext y' <= ext (of_Z 100) ->
  let S := add (mul x (lit 7 10)) (mul y (lit 3 10)) in
  let S' := add (mul x' (lit 7 10)) (mul y' (lit 3 10)) in
  wf S /\ wf S' /\ ext S <= ext S' /\ ext S' <= ext top2.
Proof.
  intros Wx Wx' Wy Wy' Lx Ux Ly Uy.
  destruct posConst_weights as (_ & P3 & P7 & _).
  destruct tops_below_huge as (_ & H3 & H7 & _ & _ & W3 & W7).
  destruct (term_mono x x' _ Wx Wx' P7 Lx Ux) as (Wa & Wa' & La & Ua).
  destruct (term_mono y y' _ Wy Wy' P3 Ly Uy) as (Wb & Wb' & Lb & Ub).
  cbv zeta.
  split; [apply add_wf; (assumption || lia)|].
  split; [apply add_wf; (assumption || lia)|].
  split; apply add_mono; (assumption || lia).
Qed.

(** Rounding a sum between 0 and a top that rounds to 100. *)
Lemma round_unit100 (s top : number) :
  wf s -> wf top -> is_finite top = true -> roundZ (ext top) = 100 ->
  0 <= ext s <= ext top -> unit100 (Math_round s).
Proof.
  intros Ws Wt Ft Rt B.
  pose proof (isScore_round s top Ws Wt Ft Rt B) as I.
  unfold isScore in I. rewrite !andb_true_iff in I. destruct I as ((G0 & G1) & _).
  apply unit100_of_ge; try assumption.
  apply (Math_round_spec s Ws).
Qed.

Lemma unit100_bounds (x : number) :
  unit100 x -> wf x /\ ext (S754_zero false) <= ext x /\ ext x <= ext (of_Z 100).
Proof. intros (W & L & U). split; [exact W|split; assumption]. Qed.

Lemma weighted3_unit100 (x y z : number) :
  unit100 x -> unit100 y -> unit100 z ->
  unit100 (Math_round (add (add (mul x (lit 4 10)) (mul y (lit 3 10)))
                            (mul z (lit 3 10)))).
Proof.
  intros Ux Uy Uz.
  destruct (unit100_bounds x Ux) as (Wx & Lx & Hx).
  destruct (unit100_bounds y Uy) as (Wy & Ly & Hy).
  destruct (unit100_bounds z Uz) as (Wz & Lz & Hz).
  destruct top_facts as (Wt & Ft & Rt & _).
  destruct (weighted3_mono _ x _ y _ z wf_zero Wx wf_zero Wy wf_zero Wz
                           Lx Hx Ly Hy Lz Hz) as (_ & Ws & L & U).
  apply (round_unit100 _ top3); try assumption.
  split; [exact L|exact U].
Qed.

Lemma weighted2_unit100 (x y : number) :
  unit100 x -> unit100 y ->
  unit100 (Math_round (add (mul x (lit 7 10)) (mul y (lit 3 10)))).
Proof.
  intros Ux Uy.
  destruct (unit100_bounds x Ux) as (Wx & Lx & Hx).
  destruct (unit100_bounds y Uy) as (Wy & Ly & Hy).
  destruct top_facts as (_ & _ & _ & Wt & Ft & Rt).
  destruct (weighted2_mono _ x _ y wf_zero Wx wf_zero Wy Lx Hx Ly Hy)
    as (_ & Ws & L & U).
  apply (round_unit100 _ top2); try assumption.
  split; [exact L|exact U].
Qed.

(** The terms the scorers feed to the weighted sums, for an input in the
    expected range. *)
Lemma scorer_terms (m : DAOMetrics) :
  wfMetrics m -> inExpectedRange m = true ->
  unit100 (cap (mul (avgVoterTurnout m) (of_Z 2))) /\
  unit100 (cap (delegateActivity m)) /\
  unit100 (cap (communityEngagement m)) /\
  unit100 (Math_max (of_Z 0) (sub (of_Z 100) (tokenConcentration m))) /\
  unit100 (cap (mul (div (totalProposals m) (of_Z 12)) (of_Z 20))) /\
  unit100 (cap (mul (activeProposals m) (of_Z 25))) /\
  unit100 (proposalSuccessRate m) /\ unit100 (treasuryHealth m) /\
  unit100 (cap (mul (avgProposalDuration m) (of_Z 10))).
Proof.
  intros (Wtp & Wap & Wvt & Wtc & Wda & Wsr & Wpd & Wth & Wce) R.
  unfold inExpectedRange in R. rewrite !andb_true_iff in R.
  destruct R as ((((((((((Gtp & Gap) & Gvt) & Gtc) & Gda) & Gsr) & Gpd) & Gth) & Gce)
                   & Lsr) & Lth).
  destruct (nonneg_of_ge _ (proj1 Wtp) Gtp) as (_ & Ntp).
  destruct (nonneg_of_ge _ (proj1 Wap) Gap) as (_ & Nap).
  destruct (nonneg_of_ge _ (proj1 Wvt) Gvt) as (_ & Nvt).
  destruct (nonneg_of_ge _ (proj1 Wtc) Gtc) as (_ & Ntc).
  destruct (nonneg_of_ge _ (proj1 Wda) Gda) as (_ & Nda).
  destruct (nonneg_of_ge _ (proj1 Wpd) Gpd) as (_ & Npd).
  destruct (nonneg_of_ge _ (proj1 Wce) Gce) as (_ & Nce).
  destruct posConst_factors as (P2 & P10 & P12 & P20 & P25).
  destruct (div_const_nonneg _ _ Wtp P12 Ntp) as (Wq & Nq).
  split; [apply capped_scale_unit100; assumption|].
  split; [apply cap_unit100; assumption|].
  split; [apply cap_unit100; assumption|].
  split; [apply concentration_unit100; assumption|].
  split; [apply capped_scale_unit100; assumption|].
  split; [apply capped_scale_unit100; assumption|].
  split; [apply unit100_of_ge; (assumption || apply Wsr)|].
  split; [apply unit100_of_ge; (assumption || apply Wth)|].
  apply capped_scale_unit100; assumption.
Qed.

Lemma transparency_unit100 (m : DAOMetrics) :
  unit100 (calculateTransparencyScore m).
Proof.
  unfold calculateTransparencyScore.
  destruct (gt (totalProposals m) (of_Z 10)), (gt (avgProposalDuration m) (of_Z 3));
    (split; [closed_wf|vm_compute; split; discriminate]).
Qed.

(** For an input in the expected range the five category scores are
    well-formed numbers between 0 and 100. *)
Lemma category_scores_unit100 (m : DAOMetrics) :
  wfMetrics m -> inExpectedRange m = true ->
  unit100 (calculateParticipationScore m) /\
  unit100 (calculateDecentralizationScore m) /\
  unit100 (calculateActivityScore m) /\
  unit100 (calculateTransparencyScore m) /\
  unit100 (calculateStabilityScore m).
Proof.
  intros W R.
  destruct (scorer_terms m W R) as (T1 & T2 & T3 & T4 & T5 & T6 & T7 & T8 & T9).
  split; [|split; [|split; [|split]]].
  - apply weighted3_unit100; assumption.
  - apply weighted2_unit100; assumption.
  - apply weighted3_unit100; assumption.
  - apply transparency_unit100.
  - apply weighted3_unit100; assumption.
Qed.

(** ** The overall score *)

Lemma overall_unfold (c : CategoryScores) :
  calculateOverallScore (Object_entries c) =
  Math_round
    (add (add (add (add (add (of_Z 0) (mul (participation c) (lit 25 100)))
                        (mul (decentralization c) (lit 25 100)))
                   (mul (activity c) (lit 20 100)))
              (mul (transparency c) (lit 15 100)))
         (mul (stability c) (lit 15 100))).
Proof. reflexivity. Qed.

Lemma overall_tops :
  ext (of_Z 0) < huge /\
  ext (mul (of_Z 100) (lit 25 100)) < huge /\
  ext (mul (of_Z 100) (lit 20 100)) < huge /\
  ext (mul (of_Z 100) (lit 15 100)) < huge /\
  ext (add (of_Z 0) (mul (of_Z 100) (lit 25 100))) < huge /\
  ext (add (add (of_Z 0) (mul (of_Z 100) (lit 25 100)))
           (mul (of_Z 100) (lit 25 100))) < huge /\
  ext (add (add (add (of_Z 0) (mul (of_Z 100) (lit 25 100)))
                (mul (of_Z 100) (lit 25 100)))
           (mul (of_Z 100) (lit 20 100))) < huge /\
  ext (add (add (add (add (of_Z 0) (mul (of_Z 100) (lit 25 100)))
                     (mul (of_Z 100) (lit 25 100)))
                (mul (of_Z 100) (lit 20 100)))
           (mul (of_Z 100) (lit 15 100))) < huge /\
  wf top5 /\ is_finite top5 = true /\ roundZ (ext top5) = 100 /\
  wf (mul (of_Z 100) (lit 25 100)) /\ wf (mul (of_Z 100) (lit 20 100)) /\
  wf (mul (of_Z 100) (lit 15 100)).
Proof.
  repeat match goal with |- _ /\ _ => split end;
    try (vm_compute; reflexivity); closed_wf.
Qed.

(** The weighted sum of the aggregator is monotone in the five scores, as
    long as the larger ones are at most 100. *)
Lemma overall_sum_mono (p p' d d' a a' t t' s s' : number) :
  wf p -> wf p' -> wf d -> wf d' -> wf a -> wf a' -> wf t -> wf t' ->
  wf s -> wf s' ->
  ext p <= ext p' -> ext p' <= ext (of_Z 100) ->
  ext d <= ext d' -> ext d' <= ext (of_Z 100) ->
  ext a <= ext a' -> ext a' <= ext (of_Z 100) ->
  ext t <= ext t' -> ext t' <= ext (of_Z 100) ->
  ext s <= ext s' -> ext s' <= ext (of_Z 100) ->
  let sum := fun p d a t s =>
    add (add (add (add (add (of_Z 0) (mul p (lit 25 100))) (mul d (lit 25 100)))
                  (mul a (lit 20 100)))
             (mul t (lit 15 100)))
        (mul s (lit 15 100)) in
  wf (sum p d a t s) /\ wf (sum p' d' a' t' s') /\
  ext (sum p d a t s) <= ext (sum p' d' a' t' s') /\
  ext (sum p' d' a' t' s') <= ext top5.
Proof.
  intros Wp Wp' Wd Wd' Wa Wa' Wt Wt' Ws Ws' Lp Up Ld Ud La Ua Lt Ut Ls Us.
  destruct posConst_overall_weights as (P25 & P20 & P15).
  destruct overall_tops as (H0 & H25 & H20 & H15 & H1 & H2 & H3 & H4 & _ & _ & _
                            & W25 & W20 & W15).
  destruct (term_mono p p' _ Wp Wp' P25 Lp Up) as (Wtp & Wtp' & Ltp & Utp).
  destruct (term_mono d d' _ Wd Wd' P25 Ld Ud) as (Wtd & Wtd' & Ltd & Utd).
  destruct (term_mono a a' _ Wa Wa' P20 La Ua) as (Wta & Wta' & Lta & Uta).
  destruct (term_mono t t' _ Wt Wt' P15 Lt Ut) as (Wtt & Wtt' & Ltt & Utt).
  destruct (term_mono s s' _ Ws Ws' P15 Ls Us) as (Wts & Wts' & Lts & Uts).
  destruct (add_step (of_Z 0) (of_Z 0) _ _ (of_Z 0) _ wf_0 wf_0 Wtp Wtp' wf_0 W25
                     (Z.le_refl _) (Z.le_refl _) Ltp Utp H0 H25)
    as (A1 & A1' & T1 & L1 & U1).
  destruct (add_step _ _ _ _ _ _ A1 A1' Wtd Wtd' T1 W25 L1 U1 Ltd Utd H1 H25)
    as (A2 & A2' & T2 & L2 & U2).
  destruct (add_step _ _ _ _ _ _ A2 A2' Wta Wta' T2 W20 L2 U2 Lta Uta H2 H20)
    as (A3 & A3' & T3 & L3 & U3).
  destruct (add_step _ _ _ _ _ _ A3 A3' Wtt Wtt' T3 W15 L3 U3 Ltt Utt H3 H15)
    as (A4 & A4' & T4 & L4 & U4).
  destruct (add_step _ _ _ _ _ _ A4 A4' Wts Wts' T4 W15 L4 U4 Lts Uts H4 H15)
    as (A5 & A5' & T5 & L5 & U5).
  cbv zeta. split; [exact A5|split; [exact A5'|split; [exact L5|exact U5]]].
Qed.

(** X5: on five scores that are numbers between 0 and 100 the aggregator
    returns an integer between 0 and 100; hence so is the overall score of
    every input in the expected range. *)
Theorem overall_score_in_range (c : CategoryScores) (m : DAOMetrics) :
  (unit100 (participation c) -> unit100 (decentralization c) ->
   unit100 (activity c) -> unit100 (transparency c) -> unit100 (stability c) ->
   isScore (calculateOverallScore (Object_entries c)) = true) /\
  (wfMetrics m -> inExpectedRange m = true -> isScore (overallOf m) = true).
Proof.
  assert (G : forall c : CategoryScores,
    unit100 (participation c) -> unit100 (decentralization c) ->
    unit100 (activity c) -> unit100 (transparency c) -> unit100 (stability c) ->
    isScore (calculateOverallScore (Object_entries c)) = true).
  { clear c. intros c Up Ud Ua Ut Us.
    destruct (unit100_bounds _ Up) as (Wp & Lp & Hp).
    destruct (unit100_bounds _ Ud) as (Wd & Ld & Hd).
    destruct (unit100_bounds _ Ua) as (Wa & La & Ha).
    destruct (unit100_bounds _ Ut) as (Wt & Lt & Ht).
    destruct (unit100_bounds _ Us) as (Ws & Ls & Hs).
    destruct overall_tops as (_ & _ & _ & _ & _ & _ & _ & _ & Wtop & Ftop & Rtop & _).
    destruct (overall_sum_mono _ (participation c) _ (decentralization c)
                _ (activity c) _ (transparency c) _ (stability c)
                wf_zero Wp wf_zero Wd wf_zero Wa wf_zero Wt wf_zero Ws
                Lp Hp Ld Hd La Ha Lt Ht Ls Hs) as (_ & W & L & U).
    rewrite overall_unfold.
    apply (isScore_round _ top5); try assumption.
    split; [exact L|exact U]. }
  split; [apply G|].
  intros W R.
  destruct (category_scores_unit100 m W R) as (U1 & U2 & U3 & U4 & U5).
  apply (G (calculateCategoryScores m)); assumption.
Qed.

Lemma overall_score_in_range_witness :
  isScore (overallOf scenarioA) = true.
Proof.
  apply (proj2 (overall_score_in_range (calculateCategoryScores scenarioA) scenarioA)).
  - repeat split; try (vm_compute; reflexivity); vm_compute; discriminate.
  - vm_compute. reflexivity.
Defined.

Lemma overall_le (c c' : CategoryScores) :
  scoresIn100 c -> scoresIn100 c' -> scoresGe c' c = true ->
  ge (calculateOverallScore (Object_entries c'))
     (calculateOverallScore (Object_entries c)) = true.
Proof.
  intros (Up & Ud & Ua & Ut & Us) (Up' & Ud' & Ua' & Ut' & Us') G.
  unfold scoresGe in G. rewrite !andb_true_iff in G.
  destruct G as ((((Gp & Gd) & Ga) & Gt) & Gs).
  destruct Up as (Wp & Bp), Ud as (Wd & Bd), Ua as (Wa & Ba), Ut as (Wt & Bt),
           Us as (Ws & Bs).
  destruct Up' as (Wp' & Bp'), Ud' as (Wd' & Bd'), Ua' as (Wa' & Ba'),
           Ut' as (Wt' & Bt'), Us' as (Ws' & Bs').
  rewrite ge_ext in Gp, Gd, Ga, Gt, Gs by assumption.
  apply Z.leb_le in Gp, Gd, Ga, Gt, Gs.
  destruct (overall_sum_mono (participation c) (participation c')
              (decentralization c) (decentralization c')
              (activity c) (activity c') (transparency c) (transparency c')
              (stability c) (stability c')) as (W & W' & L & _);
    try assumption; try lia.
  rewrite !overall_unfold.
  rewrite ge_ext by (apply Math_round_spec; assumption).
  apply Z.leb_le, Math_round_mono; assumption.
Qed.

(** *** The aggregator under any order of the keys *)

Lemma of_Z_small (n : Z) :
  0 <= n < 2 ^ prec ->
  wf (of_Z n) /\ ext (of_Z n) = n * 2 ^ (- emin) /\ 0 <= ext (of_Z n) < huge.
Proof.
  intros H. pose proof prec_eq as Hp. pose proof emin_eq as Hm. pose proof emax_eq as Hx.
  destruct (of_Z_spec n ltac:(lia)) as (W & E).
  split; [exact W|split; [exact E|]]. rewrite E.
  pose proof (pow2_pos (- emin) ltac:(lia)) as P.
  split; [nia|].
  apply Z.lt_le_trans with (2 ^ (prec + - emin)).
  - apply scaled_lt; lia.
  - rewrite huge_eq. apply pow2_le. lia.
Qed.

(** Small integers are added exactly. *)
Lemma add_of_Z (a b : Z) :
  0 <= a -> 0 <= b -> a + b < 2 ^ prec ->
  ext (add (of_Z a) (of_Z b)) = (a + b) * 2 ^ (- emin).
Proof.
  intros Ha Hb Hs. pose proof emin_eq as Hm.
  destruct (of_Z_small a ltac:(lia)) as (Wa & Ea & Ba).
  destruct (of_Z_small b ltac:(lia)) as (Wb & Eb & Bb).
  pose proof huge_pos as Hh.
  assert (Fa : is_finite (of_Z a) = true) by (apply (is_finite_ext _ Wa); lia).
  assert (Fb : is_finite (of_Z b) = true) by (apply (is_finite_ext _ Wb); lia).
  destruct (add_spec _ _ (proj1 Wa) (proj1 Wb) Fa Fb) as (_ & E).
  rewrite E, Ea, Eb, <- Z.mul_add_distr_r, rnd_scale by lia.
  replace (emin + - emin) with 0 by lia.
  rewrite rnd_integer by lia.
  apply saturate_id, scaled_integer_bound. lia.
Qed.

Lemma weight_tops :
  mul (of_Z 100) (lit 25 100) = of_Z 25 /\
  mul (of_Z 100) (lit 20 100) = of_Z 20 /\
  mul (of_Z 100) (lit 15 100) = of_Z 15 /\
  ext (of_Z 20) <= ext (of_Z 25) /\ ext (of_Z 15) <= ext (of_Z 25).
Proof.
  repeat match goal with |- _ /\ _ => split end;
    try (vm_compute; reflexivity); vm_compute; discriminate.
Qed.

(** What the aggregator reads under one of the five keys: a score of the
    record and the weight of the category. *)
Lemma category_entry (k : string) (c c' : CategoryScores) :
  In k categories -> scoresIn100 c -> scoresIn100 c' -> scoresGe c' c = true ->
  let v := ToNumber (get (Object_entries c) k) in
  let v' := ToNumber (get (Object_entries c') k) in
  let w := ToNumber (get weights k) in
  unit100 v /\ unit100 v' /\ ext v <= ext v' /\ posConst w /\
  ext (mul (of_Z 100) w) <= ext (of_Z 25).
Proof.
  intros K (Up & Ud & Ua & Ut & Us) (Up' & Ud' & Ua' & Ut' & Us') G.
  unfold scoresGe in G. rewrite !andb_true_iff in G.
  destruct G as ((((Gp & Gd) & Ga) & Gt) & Gs).
  rewrite ge_ext in Gp by (apply Up || apply Up').
  rewrite ge_ext in Gd by (apply Ud || apply Ud').
  rewrite ge_ext in Ga by (apply Ua || apply Ua').
  rewrite ge_ext in Gt by (apply Ut || apply Ut').
  rewrite ge_ext in Gs by (apply Us || apply Us').
  apply Z.leb_le in Gp, Gd, Ga, Gt, Gs.
  destruct posConst_overall_weights as (P25 & P20 & P15).
  destruct weight_tops as (E25 & E20 & E15 & L20 & L15).
  unfold categories in K. cbn [In] in K.
  destruct K as [<-|[<-|[<-|[<-|[<-|[]]]]]]; cbv zeta;
    cbn [Object_entries weights get String.eqb Ascii.eqb Bool.eqb ToNumber
         participation decentralization activity transparency stability];
    (split; [assumption|split; [assumption|split; [assumption|split; [assumption|]]]]);
    rewrite ?E25, ?E20, ?E15; (assumption || apply Z.le_refl).
Qed.

Lemma overall_fold_mono (keys : list string) (c c' : CategoryScores) :
  Forall (fun k => In k categories) keys ->
  scoresIn100 c -> scoresIn100 c' -> scoresGe c' c = true ->
  forall (s s' : number) (n : Z),
    wf s -> wf s' -> ext s <= ext s' -> ext s' <= ext (of_Z n) -> 0 <= n ->
    n + 25 * Z.of_nat (List.length keys) < 2 ^ prec ->
    let step := fun (total : number) (entry : string * number) =>
                  let '(category, score) := entry in
                  add total (mul score (ToNumber (get weights category))) in
    wf (fold_left step (entriesIn keys c) s) /\
    wf (fold_left step (entriesIn keys c') s') /\
    ext (fold_left step (entriesIn keys c) s)
    <= ext (fold_left step (entriesIn keys c') s').
Proof.
  intros F U U' G. induction F as [|k keys K F IH]; intros s s' n Ws Ws' L B N Hn step.
  - cbn. split; [exact Ws|split; [exact Ws'|exact L]].
  - cbn [entriesIn map fold_left]. fold (entriesIn keys c). fold (entriesIn keys c').
    cbn [List.length] in Hn.
    destruct (category_entry k c c' K U U' G) as (Uv & Uv' & Lv & Pw & Tw).
    destruct (term_mono _ _ _ (proj1 Uv) (proj1 Uv') Pw Lv (proj2 (proj2 Uv')))
      as (Wa & Wa' & La & Ua).
    destruct (of_Z_small n ltac:(lia)) as (Wn & En & Bn).
    destruct (of_Z_small 25 ltac:(rewrite prec_eq; lia)) as (W25 & E25 & B25).
    destruct (of_Z_small (n + 25) ltac:(lia)) as (_ & En' & _).
    destruct (add_step s s' _ _ (of_Z n) (of_Z 25) Ws Ws' Wa Wa' Wn W25 L B La
                ltac:(lia) ltac:(lia) ltac:(lia)) as (W1 & W1' & _ & L1 & B1).
    rewrite (add_of_Z n 25 N ltac:(lia) ltac:(lia)), <- En' in B1.
    apply (IH _ _ (n + 25) W1 W1' L1 B1 ltac:(lia) ltac:(lia)).
Qed.

(** X6: the aggregator is monotone under every order of the five keys: of
    two objects that hold category scores between 0 and 100 under the same
    keys created in the same order, the one whose scores are at least as
    large in every category gets an overall score at least as large. *)
Theorem overall_monotone_in_scores (keys : list string) (c c' : CategoryScores) :
  Permutation keys categories ->
  scoresIn100 c -> scoresIn100 c' -> scoresGe c' c = true ->
  ge (calculateOverallScore (entriesIn keys c'))
     (calculateOverallScore (entriesIn keys c)) = true.
Proof.
  intros P U U' G.
  assert (F : Forall (fun k => In k categories) keys).
  { apply Forall_forall. intros k K. exact (Permutation_in k P K). }
  assert (Hn : 0 + 25 * Z.of_nat (List.length keys) < 2 ^ prec).
  { rewrite (Permutation_length P). vm_compute. reflexivity. }
  destruct (overall_fold_mono keys c c' F U U' G (of_Z 0) (of_Z 0) 0 wf_0 wf_0
              (Z.le_refl _) (Z.le_refl _) (Z.le_refl _) Hn) as (W & W' & L).
  unfold calculateOverallScore.
  rewrite ge_ext by (apply Math_round_spec; assumption).
  apply Z.leb_le, Math_round_mono; assumption.
Qed.

Lemma overall_monotone_in_scores_witness :
  ge (calculateOverallScore
        (entriesIn (rev categories) (calculateCategoryScores scenarioA)))
     (calculateOverallScore
        (entriesIn (rev categories) (calculateCategoryScores scenarioB))) = true.
Proof.
  apply (overall_monotone_in_scores (rev categories)
           (calculateCategoryScores scenarioB) (calculateCategoryScores scenarioA)).
  - apply Permutation_sym, Permutation_rev.
  - repeat split; try (vm_compute; reflexivity); vm_compute; discriminate.
  - repeat split; try (vm_compute; reflexivity); vm_compute; discriminate.
  - vm_compute. reflexivity.
Defined.

(** ** Response of the scores to the inputs *)

(** The concentration term [Math.max(0, 100 - c)] falls as [c] grows. *)
Lemma concentration_antitone (c c' : number) :
  wf c -> wf c' -> 0 <= ext c -> ext c <= ext c' ->
  ext (Math_max (of_Z 0) (sub (of_Z 100) c')) <=
  ext (Math_max (of_Z 0) (sub (of_Z 100) c)).
Proof.
  intros W W' H L. pose proof huge_pos as Hh. pose proof ext_100_lt_huge as H100.
  rewrite !sub_add_opp.
  pose proof (SFopp_wf c W) as Wo. pose proof (SFopp_ext c) as Eo.
  pose proof (SFopp_wf c' W') as Wo'. pose proof (SFopp_ext c') as Eo'.
  assert (Ws : wf (add (of_Z 100) (SFopp c)))
    by (apply add_wf; (exact wf_100 || assumption || lia)).
  assert (Ws' : wf (add (of_Z 100) (SFopp c')))
    by (apply add_wf; (exact wf_100 || assumption || lia)).
  assert (M : ext (add (of_Z 100) (SFopp c')) <= ext (add (of_Z 100) (SFopp c))).
  { apply add_mono; try assumption; try exact wf_100; lia. }
  destruct (Math_max_spec (of_Z 0) _ wf_0 Ws) as (_ & ->).
  destruct (Math_max_spec (of_Z 0) _ wf_0 Ws') as (_ & ->).
  lia.
Qed.

(** X7: among inputs in the expected range with the same number of
    proposals, the one that is at least as good in every other respect
    (more turnout, delegate activity, engagement, active proposals, success
    rate, proposal duration and treasury health, less token concentration)
    has each of the five category scores, and the overall score, at least
    as large. *)
Theorem scores_monotone (m1 m2 : DAOMetrics) :
  wfMetrics m1 -> wfMetrics m2 ->
  inExpectedRange m1 = true -> inExpectedRange m2 = true ->
  totalProposals m2 = totalProposals m1 ->
  improves m2 m1 = true ->
  scoresGe (calculateCategoryScores m2) (calculateCategoryScores m1) = true /\
  ge (overallOf m2) (overallOf m1) = true.
Proof.
  intros W1 W2 R1 R2 Etp I.
  destruct (scorer_terms m1 W1 R1) as (T1 & T2 & T3 & T4 & T5 & T6 & T7 & T8 & T9).
  destruct (scorer_terms m2 W2 R2)
    as (T1' & T2' & T3' & T4' & T5' & T6' & T7' & T8' & T9').
  destruct (category_scores_unit100 m1 W1 R1) as (U1 & U2 & U3 & U4 & U5).
  destruct (category_scores_unit100 m2 W2 R2) as (U1' & U2' & U3' & U4' & U5').
  destruct W1 as (Wtp1 & Wap1 & Wt1 & Wc1 & Wd1 & Ws1 & Wp1 & Wh1 & We1).
  destruct W2 as (Wtp2 & Wap2 & Wt2 & Wc2 & Wd2 & Ws2 & Wp2 & Wh2 & We2).
  unfold improves in I. rewrite !andb_true_iff in I.
  destruct I as (((((((Iap & It) & Ic) & Id) & Is) & Ip) & Ih) & Ie).
  rewrite ge_ext in Iap, It, Ic, Id, Is, Ip, Ih, Ie by assumption.
  apply Z.leb_le in Iap, It, Ic, Id, Is, Ip, Ih, Ie.
  assert (N2 : 0 <= ext (tokenConcentration m2)).
  { unfold inExpectedRange in R2. rewrite !andb_true_iff in R2.
    destruct R2 as ((((((((((_ & _) & _) & G) & _) & _) & _) & _) & _) & _) & _).
    apply (nonneg_of_ge _ (proj1 Wc2) G). }
  destruct posConst_factors as ((V2 & F2 & X2) & (V10 & F10 & X10) & _ & _
                                & (V25 & F25 & X25)).
  destruct (mul_const_mono _ _ (of_Z 2) Wt1 Wt2 V2 F2 X2 It) as (Wm1 & Wm2 & Mm).
  destruct (mul_const_mono _ _ (of_Z 25) Wap1 Wap2 V25 F25 X25 Iap) as (Wa1 & Wa2 & Ma).
  destruct (mul_const_mono _ _ (of_Z 10) Wp1 Wp2 V10 F10 X10 Ip) as (Wq1 & Wq2 & Mq).
  pose proof (cap_mono _ _ Wm1 Wm2 Mm) as Ct.
  pose proof (cap_mono _ _ Wd1 Wd2 Id) as Cd.
  pose proof (cap_mono _ _ We1 We2 Ie) as Ce.
  pose proof (cap_mono _ _ Wa1 Wa2 Ma) as Ca.
  pose proof (cap_mono _ _ Wq1 Wq2 Mq) as Cq.
  pose proof (concentration_antitone _ _ Wc2 Wc1 N2 Ic) as Cc.
  unfold cap in *.
  assert (P : ge (calculateParticipationScore m2) (calculateParticipationScore m1) = true).
  { unfold calculateParticipationScore.
    destruct (weighted3_mono _ _ _ _ _ _ (proj1 T1) (proj1 T1') (proj1 T2) (proj1 T2')
                (proj1 T3) (proj1 T3') Ct (proj2 (proj2 T1')) Cd (proj2 (proj2 T2'))
                Ce (proj2 (proj2 T3'))) as (Ws & Ws' & L & _).
    cbv zeta. rewrite ge_ext by (apply Math_round_spec; assumption).
    apply Z.leb_le, Math_round_mono; assumption. }
  assert (D : ge (calculateDecentralizationScore m2)
                 (calculateDecentralizationScore m1) = true).
  { unfold calculateDecentralizationScore.
    destruct (weighted2_mono _ _ _ _ (proj1 T4) (proj1 T4') (proj1 T2) (proj1 T2')
                Cc (proj2 (proj2 T4')) Cd (proj2 (proj2 T2'))) as (Ws & Ws' & L & _).
    cbv zeta. rewrite ge_ext by (apply Math_round_spec; assumption).
    apply Z.leb_le, Math_round_mono; assumption. }
  assert (A : ge (calculateActivityScore m2) (calculateActivityScore m1) = true).
  { unfold calculateActivityScore. rewrite Etp in T5' |- *.
    destruct (weighted3_mono _ _ _ _ _ _ (proj1 T5) (proj1 T5') (proj1 T6) (proj1 T6')
                (proj1 T7) (proj1 T7') (Z.le_refl _) (proj2 (proj2 T5'))
                Ca (proj2 (proj2 T6')) Is (proj2 (proj2 T7'))) as (Ws & Ws' & L & _).
    cbv zeta. rewrite ge_ext by (apply Math_round_spec; assumption).
    apply Z.leb_le, Math_round_mono; assumption. }
  assert (T : ge (calculateTransparencyScore m2) (calculateTransparencyScore m1) = true).
  { unfold calculateTransparencyScore. rewrite Etp.
    assert (W3 : wf (of_Z 3)) by closed_wf.
    unfold gt at 2 4. rewrite !lt_ext by assumption.
    destruct (Z.ltb_spec (ext (of_Z 3)) (ext (avgProposalDuration m1))),
             (Z.ltb_spec (ext (of_Z 3)) (ext (avgProposalDuration m2)));
      try lia;
      destruct (gt (totalProposals m1) (of_Z 10)); vm_compute; reflexivity. }
  assert (S : ge (calculateStabilityScore m2) (calculateStabilityScore m1) = true).
  { unfold calculateStabilityScore.
    destruct (weighted3_mono _ _ _ _ _ _ (proj1 T7) (proj1 T7') (proj1 T8) (proj1 T8')
                (proj1 T9) (proj1 T9') Is (proj2 (proj2 T7')) Ih (proj2 (proj2 T8'))
                Cq (proj2 (proj2 T9'))) as (Ws & Ws' & L & _).
    cbv zeta. rewrite ge_ext by (apply Math_round_spec; assumption).
    apply Z.leb_le, Math_round_mono; assumption. }
  assert (G : scoresGe (calculateCategoryScores m2) (calculateCategoryScores m1) = true).
  { unfold scoresGe, calculateCategoryScores;
      cbn [participation decentralization activity transparency stability].
    rewrite P, D, A, T, S. reflexivity. }
  split; [exact G|].
  unfold overallOf. apply overall_le; [| |exact G].
  - split; [exact U1|split; [exact U2|split; [exact U3|split; [exact U4|exact U5]]]].
  - split; [exact U1'|split; [exact U2'|split; [exact U3'|split; [exact U4'|exact U5']]]].
Qed.

Lemma scores_monotone_witness :
  ge (overallOf (withDelegateActivity (of_Z 40) (withConcentration (of_Z 60) scenarioB)))
     (overallOf scenarioB) = true.
Proof.
  apply (scores_monotone scenarioB
           (withDelegateActivity (of_Z 40) (withConcentration (of_Z 60) scenarioB))).
  - repeat split; try (vm_compute; reflexivity); vm_compute; discriminate.
  - repeat split; try (vm_compute; reflexivity); vm_compute; discriminate.
  - vm_compute. reflexivity.
  - vm_compute. reflexivity.
  - reflexivity.
  - vm_compute. reflexivity.
Defined.

(** ** NaN *)

Lemma mul_nan_l (x : number) : mul NaN x = NaN.
Proof. reflexivity. Qed.

Lemma mul_nan_r (x : number) : mul x NaN = NaN.
Proof. destruct x; reflexivity. Qed.

Lemma add_nan_l (x : number) : add NaN x = NaN.
Proof. reflexivity. Qed.

Lemma add_nan_r (x : number) : add x NaN = NaN.
Proof. destruct x; reflexivity. Qed.

Lemma sub_nan_r (x : number) : sub x NaN = NaN.
Proof. destruct x; reflexivity. Qed.

Lemma div_nan_l (x : number) : div NaN x = NaN.
Proof. reflexivity. Qed.

Lemma Math_min_nan_r (x : number) : Math_min x NaN = NaN.
Proof. destruct x; reflexivity. Qed.

Lemma Math_max_nan_r (x : number) : Math_max x NaN = NaN.
Proof. destruct x; reflexivity. Qed.

Lemma Math_round_nan : Math_round NaN = NaN.
Proof. reflexivity. Qed.

Create Rewrite HintDb nan.
#[local] Hint Rewrite mul_nan_l mul_nan_r add_nan_l add_nan_r sub_nan_r div_nan_l
  Math_min_nan_r Math_max_nan_r Math_round_nan : nan.

(** X8: NaN is contagious through the whole scoring: as soon as one numeric
    field of the input is NaN the overall score is NaN, and then the
    investment signal is AVOID and the governance maturity of the report is
    Low. *)
Theorem nan_poisons_the_analysis (m : DAOMetrics) :
  hasNaN m ->
  overallOf m = NaN /\
  getInvestmentSignal (overallOf m) = "AVOID"%string /\
  Report.governanceMaturity (overallOf m) = "Low"%string.
Proof.
  intros H.
  assert (E : overallOf m = NaN).
  { unfold overallOf. rewrite overall_unfold.
    unfold calculateCategoryScores;
      cbn [participation decentralization activity transparency stability].
    unfold calculateParticipationScore, calculateDecentralizationScore,
      calculateActivityScore, calculateStabilityScore.
    destruct H as [H|[H|[H|[H|[H|[H|[H|[H|H]]]]]]]]; rewrite H;
      autorewrite with nan; reflexivity. }
  rewrite E. split; [reflexivity|split; reflexivity].
Qed.

Lemma nan_poisons_the_analysis_witness :
  getInvestmentSignal (overallOf (withTurnout NaN scenarioA)) = "AVOID"%string.
Proof.
  apply (nan_poisons_the_analysis (withTurnout NaN scenarioA)).
  right; right; left. reflexivity.
Defined.

(** ** Signal, maturity and risk level *)

Lemma threshold_order :
  ext (of_Z 40) < ext (of_Z 50) /\ ext (of_Z 50) < ext (of_Z 60) /\
  ext (of_Z 60) < ext (of_Z 70) /\ ext (of_Z 70) < ext (of_Z 80) /\
  wf (of_Z 40) /\ wf (of_Z 50) /\ wf (of_Z 60) /\ wf (of_Z 70) /\ wf (of_Z 80).
Proof.
  repeat match goal with |- _ /\ _ => split end;
    try (vm_compute; reflexivity); closed_wf.
Qed.

Lemma valid_cases (x : number) : valid x -> x = NaN \/ wf x.
Proof.
  intros V. destruct x; try (right; split; [exact V|discriminate]).
  left; reflexivity.
Qed.

Lemma getInvestmentSignal_cases (s : number) :
  wf s ->
  (ext (of_Z 80) <= ext s /\ getInvestmentSignal s = "STRONG_BUY"%string) \/
  (ext (of_Z 60) <= ext s < ext (of_Z 80) /\ getInvestmentSignal s = "BUY"%string) \/
  (ext (of_Z 40) <= ext s < ext (of_Z 60) /\ getInvestmentSignal s = "HOLD"%string) \/
  (ext s < ext (of_Z 40) /\ getInvestmentSignal s = "AVOID"%string).
Proof.
  intros W.
  destruct threshold_order as (O1 & O2 & O3 & O4 & W40 & W50 & W60 & W70 & W80).
  unfold getInvestmentSignal. rewrite !ge_ext by assumption.
  destruct (Z.leb_spec (ext (of_Z 80)) (ext s)); [left; split; [lia|reflexivity]|].
  destruct (Z.leb_spec (ext (of_Z 60)) (ext s));
    [right; left; split; [lia|reflexivity]|].
  destruct (Z.leb_spec (ext (of_Z 40)) (ext s));
    [right; right; left; split; [lia|reflexivity]|].
  right; right; right; split; [lia|reflexivity].
Qed.

Lemma governanceMaturity_cases (s : number) :
  wf s ->
  (ext (of_Z 70) < ext s /\ Report.governanceMaturity s = "High"%string) \/
  (ext (of_Z 50) < ext s <= ext (of_Z 70) /\
   Report.governanceMaturity s = "Medium"%string) \/
  (ext s <= ext (of_Z 50) /\ Report.governanceMaturity s = "Low"%string).
Proof.
  intros W.
  destruct threshold_order as (O1 & O2 & O3 & O4 & W40 & W50 & W60 & W70 & W80).
  unfold Report.governanceMaturity, gt. rewrite !lt_ext by assumption.
  destruct (Z.ltb_spec (ext (of_Z 70)) (ext s)); [left; split; [lia|reflexivity]|].
  destruct (Z.ltb_spec (ext (of_Z 50)) (ext s));
    [right; left; split; [lia|reflexivity]|].
  right; right; split; [lia|reflexivity].
Qed.

(** X9: the investment signal never falls when the score rises, and it
    agrees with the governance maturity of the report: STRONG_BUY comes
    only with maturity High, AVOID only with maturity Low, and BUY never
    with maturity Low. *)
Theorem signal_monotone_and_consistent (s s' : number) :
  valid s -> valid s' ->
  (ge s' s = true ->
   (signalRank (getInvestmentSignal s) <= signalRank (getInvestmentSignal s'))%nat) /\
  (getInvestmentSignal s = "STRONG_BUY"%string ->
   Report.governanceMaturity s = "High"%string) /\
  (getInvestmentSignal s = "AVOID"%string ->
   Report.governanceMaturity s = "Low"%string) /\
  (getInvestmentSignal s = "BUY"%string ->
   Report.governanceMaturity s <> "Low"%string).
Proof.
  intros V V'.
  destruct threshold_order as (O1 & O2 & O3 & O4 & _).
  destruct (valid_cases s V) as [->|W].
  { split; [intros _; apply Nat.le_0_l|].
    split; [discriminate|split; [reflexivity|discriminate]]. }
  split.
  - intros G. pose proof (ge_not_nan_l _ _ G) as N'.
    assert (W' : wf s') by (split; assumption).
    rewrite ge_ext in G by assumption. apply Z.leb_le in G.
    destruct (getInvestmentSignal_cases s W) as [(B & ->)|[(B & ->)|[(B & ->)|(B & ->)]]];
      destruct (getInvestmentSignal_cases s' W')
        as [(B' & ->)|[(B' & ->)|[(B' & ->)|(B' & ->)]]];
      cbn; lia.
  - destruct (getInvestmentSignal_cases s W) as [(B & ->)|[(B & ->)|[(B & ->)|(B & ->)]]];
      destruct (governanceMaturity_cases s W) as [(C & ->)|[(C & ->)|(C & ->)]];
      (split; [|split]); intros Q; try reflexivity; try discriminate Q; try lia;
      try discriminate.
Qed.

Lemma signal_monotone_and_consistent_witness :
  (signalRank (getInvestmentSignal (of_Z 45)) <=
   signalRank (getInvestmentSignal (of_Z 65)))%nat.
Proof.
  apply (proj1 (signal_monotone_and_consistent (of_Z 45) (of_Z 65)
                  ltac:(reflexivity) ltac:(reflexivity))).
  vm_compute. reflexivity.
Defined.

(** ** Risks and recommendations of one analysis *)

Lemma lt_weaken (x a b : number) :
  valid x -> wf a -> wf b -> ext a <= ext b -> lt x a = true -> lt x b = true.
Proof.
  intros V Wa Wb L H.
  assert (W : wf x) by (split; [exact V|exact (lt_not_nan_l _ _ H)]).
  rewrite lt_ext in H |- * by assumption.
  apply Z.ltb_lt in H. apply Z.ltb_lt. lia.
Qed.

Lemma gt_weaken (x a b : number) :
  valid x -> wf a -> wf b -> ext b <= ext a -> gt x a = true -> gt x b = true.
Proof.
  intros V Wa Wb L H. unfold gt in *.
  assert (W : wf x) by (split; [exact V|exact (lt_not_nan_r _ _ H)]).
  rewrite lt_ext in H |- * by assumption.
  apply Z.ltb_lt in H. apply Z.ltb_lt. lia.
Qed.

Lemma rule_thresholds :
  wf (of_Z 10) /\ wf (of_Z 20) /\ wf (of_Z 30) /\ wf (of_Z 40) /\
  wf (of_Z 50) /\ wf (of_Z 70) /\
  ext (of_Z 10) <= ext (of_Z 20) /\ ext (of_Z 50) <= ext (of_Z 70) /\
  ext (of_Z 30) <= ext (of_Z 40) /\ ext (of_Z 20) <= ext (of_Z 30).
Proof.
  repeat match goal with |- _ /\ _ => split end;
    try (vm_compute; discriminate); closed_wf.
Qed.

Ltac pick_member :=
  solve [reflexivity | left; pick_member | right; pick_member
         | split; pick_member].

Ltac find_in :=
  repeat first [rewrite in_app_iff | progress cbn [In]]; pick_member.

(** X10: in one analysis the recommendations follow the risks.  Each risk
    on turnout, concentration, success rate or delegate activity comes with
    the recommendation on the same metric, each HIGH one also with the
    recommendation to address high-priority risks; and when nothing is
    recommended, the only risk there can be is the one on low activity and
    the risk level is LOW. *)
Theorem recommendations_follow_risks (m : DAOMetrics) (cs : CategoryScores) :
  validMetrics m ->
  let risks := identifyRisks m cs in
  let recommendations := generateRecommendations m risks in
  (In lowTurnoutRisk risks ->
   In recTurnout recommendations /\ In recHighRisks recommendations) /\
  (In concentrationRisk risks ->
   In recConcentration recommendations /\ In recHighRisks recommendations) /\
  (In lowSuccessRisk risks ->
   In recSuccessRate recommendations /\ In recHighRisks recommendations) /\
  (In lowDelegateRisk risks -> In recDelegates recommendations) /\
  (recommendations = [] ->
   (risks = [] \/ risks = [lowActivityRisk]) /\ getRiskLevel risks = "LOW"%string).
Proof.
  intros (_ & _ & Vt & Vc & Vd & Vs & _).
  destruct rule_thresholds as (W10 & W20 & W30 & W40 & W50 & W70 & L1 & L2 & L3 & L4).
  pose proof (lt_weaken (avgVoterTurnout m) _ _ Vt W10 W20 L1) as I1.
  pose proof (gt_weaken (tokenConcentration m) _ _ Vc W70 W50 L2) as I2.
  pose proof (lt_weaken (proposalSuccessRate m) _ _ Vs W30 W40 L3) as I4.
  pose proof (lt_weaken (delegateActivity m) _ _ Vd W20 W30 L4) as I5.
  cbv zeta. rewrite generateRecommendations_app, identifyRisks_app.
  destruct (lt (avgVoterTurnout m) (of_Z 10));
    [rewrite (I1 eq_refl)|clear I1];
  (destruct (gt (tokenConcentration m) (of_Z 70));
    [rewrite (I2 eq_refl)|clear I2]);
  (destruct (lt (proposalSuccessRate m) (of_Z 30));
    [rewrite (I4 eq_refl)|clear I4]);
  (destruct (lt (delegateActivity m) (of_Z 20));
    [rewrite (I5 eq_refl)|clear I5]);
  destruct (lt (totalProposals m) (of_Z 5));
  cbn [app filter isHigh type RiskType_eqb lowTurnoutRisk concentrationRisk
       lowActivityRisk lowSuccessRisk lowDelegateRisk List.length Nat.ltb Nat.leb];
  (split; [intros H; cbn [In] in H |- *;
           repeat (destruct H as [H|H]; [try discriminate H|]); try contradiction;
           find_in|]);
  (split; [intros H; cbn [In] in H |- *;
           repeat (destruct H as [H|H]; [try discriminate H|]); try contradiction;
           find_in|]);
  (split; [intros H; cbn [In] in H |- *;
           repeat (destruct H as [H|H]; [try discriminate H|]); try contradiction;
           find_in|]);
  (split; [intros H; cbn [In] in H |- *;
           repeat (destruct H as [H|H]; [try discriminate H|]); try contradiction;
           find_in|]);
  intros E; try discriminate E;
  destruct (lt (avgVoterTurnout m) (of_Z 20)), (gt (tokenConcentration m) (of_Z 50)),
           (lt (delegateActivity m) (of_Z 30)), (lt (proposalSuccessRate m) (of_Z 40));
  try discriminate E;
  (split; [(left; reflexivity) || (right; reflexivity)|reflexivity]).
Qed.

Lemma recommendations_follow_risks_witness :
  In recDelegates
     (generateRecommendations scenarioB
        (identifyRisks scenarioB (calculateCategoryScores scenarioB))).
Proof.
  apply (recommendations_follow_risks scenarioB (calculateCategoryScores scenarioB)).
  - repeat split.
  - vm_compute. tauto.
Defined.

(** ** Centralization risk and the diversification line of the report *)

Lemma In_concentrationRisk (m : DAOMetrics) (cs : CategoryScores) :
  In concentrationRisk (identifyRisks m cs) <->
  gt (tokenConcentration m) (of_Z 70) = true.
Proof.
  rewrite identifyRisks_app.
  destruct (lt (avgVoterTurnout m) (of_Z 10)),
           (gt (tokenConcentration m) (of_Z 70)),
           (lt (totalProposals m) (of_Z 5)),
           (lt (proposalSuccessRate m) (of_Z 30)),
           (lt (delegateActivity m) (of_Z 20));
    cbn [app In]; split; intros H; try reflexivity; try discriminate H;
    try pick_member;
    repeat (destruct H as [H|H]; [discriminate H|]); contradiction.
Qed.

Lemma concentrated_top :
  wf (of_Z 30) /\ wf (of_Z 70) /\ wf (of_Z 60) /\
  add (of_Z 100) (SFopp (of_Z 70)) = of_Z 30 /\
  ext (of_Z 30) <= ext (of_Z 100) /\
  ext (Math_round (add (mul (of_Z 30) (lit 7 10)) (mul (of_Z 100) (lit 3 10))))
  <= ext (of_Z 60).
Proof.
  repeat match goal with |- _ /\ _ => split end;
    try (vm_compute; reflexivity); try (vm_compute; discriminate); closed_wf.
Qed.

(** X11: whenever the detector reports the centralization risk, the
    decentralization score is not above 60, so that the report describes
    the token distribution as concentrated, whatever the delegate
    activity. *)
Theorem centralization_risk_means_concentrated (m : DAOMetrics) (cs : CategoryScores) :
  validMetrics m ->
  In concentrationRisk (identifyRisks m cs) ->
  gt (calculateDecentralizationScore m) (of_Z 60) = false /\
  Report.diversification (calculateDecentralizationScore m) = "Concentrated"%string.
Proof.
  intros (_ & _ & _ & Vc & Vd & _) H.
  apply In_concentrationRisk in H.
  assert (G : gt (calculateDecentralizationScore m) (of_Z 60) = false);
    [|split; [exact G|unfold Report.diversification; rewrite G; reflexivity]].
  destruct (valid_cases _ Vd) as [Ed|Wd].
  { unfold calculateDecentralizationScore. rewrite Ed.
    autorewrite with nan. reflexivity. }
  destruct concentrated_top as (W30 & W70 & W60 & E30 & L30 & Top).
  destruct posConst_weights as (_ & P3 & P7 & _).
  destruct tops_below_huge as (_ & H3 & H7 & _ & _ & W3 & W7).
  pose proof huge_pos as Hh. pose proof ext_100_lt_huge as H100.
  assert (Wc : wf (tokenConcentration m))
    by (split; [exact Vc|exact (lt_not_nan_r _ _ H)]).
  unfold gt in H. rewrite lt_ext in H by assumption. apply Z.ltb_lt in H.
  assert (N : 0 <= ext (tokenConcentration m)).
  { assert (0 <= ext (of_Z 70)) by (vm_compute; discriminate). lia. }
  destruct (concentration_unit100 _ Wc N) as (Wx & Lx & _).
  assert (Ux : ext (Math_max (of_Z 0) (sub (of_Z 100) (tokenConcentration m)))
               <= ext (of_Z 30)).
  { pose proof (concentration_antitone (of_Z 70) (tokenConcentration m) W70 Wc
                  ltac:(vm_compute; discriminate) ltac:(lia)) as A.
    rewrite (sub_add_opp (of_Z 100) (of_Z 70)), E30 in A.
    destruct (Math_max_spec (of_Z 0) (of_Z 30) wf_0 W30) as (_ & E).
    rewrite E, ext_0 in A.
    assert (0 <= ext (of_Z 30)) by (vm_compute; discriminate). lia. }
  destruct (cap_spec _ Wd) as (Wy & Ey).
  assert (Uy : ext (cap (delegateActivity m)) <= ext (of_Z 100)) by lia.
  destruct P7 as (V7 & F7 & X7). destruct P3 as (V3 & F3 & X3).
  destruct (mul_const_mono _ _ (lit 7 10) Wx W30 V7 F7 X7 Ux) as (Wa & Wa' & Ma).
  destruct (mul_const_mono _ _ (lit 7 10) W30 wf_100 V7 F7 X7 L30) as (_ & _ & Ma').
  destruct (mul_const_mono _ _ (lit 3 10) Wy wf_100 V3 F3 X3 Uy) as (Wb & Wb' & Mb).
  assert (Ws : wf (add (mul (Math_max (of_Z 0) (sub (of_Z 100) (tokenConcentration m)))
                            (lit 7 10))
                       (mul (cap (delegateActivity m)) (lit 3 10))))
    by (apply add_wf; (assumption || lia)).
  assert (Ws' : wf (add (mul (of_Z 30) (lit 7 10)) (mul (of_Z 100) (lit 3 10))))
    by (apply add_wf; (assumption || lia)).
  pose proof (add_mono _ _ _ _ Wa Wa' Wb Wb' Ma Mb ltac:(lia) H3) as M.
  pose proof (Math_round_mono _ _ Ws Ws' M) as R.
  unfold calculateDecentralizationScore. fold (cap (delegateActivity m)).
  unfold gt. rewrite lt_ext by (assumption || (apply Math_round_spec; assumption)).
  apply Z.ltb_ge. lia.
Qed.

Lemma centralization_risk_means_concentrated_witness :
  Report.diversification (calculateDecentralizationScore scenarioB)
  = "Concentrated"%string.
Proof.
  apply (centralization_risk_means_concentrated scenarioB
           (calculateCategoryScores scenarioB)).
  - repeat split.
  - vm_compute. tauto.
Defined.

(** ** The ranking of [compareDAOs] *)

Lemma insert_Permutation {A : Type} (f : A -> A -> number) (x : A) (l : list A) :
  Permutation (JSArray.insert f x l) (x :: l).
Proof.
  induction l as [|y l IH]; cbn [JSArray.insert].
  - apply Permutation_refl.
  - destruct (lt (f x y) (of_Z 0)); [apply Permutation_refl|].
    eapply Permutation_trans; [apply perm_skip, IH|apply perm_swap].
Qed.

Lemma sort_acc_Permutation {A : Type} (f : A -> A -> number) (l acc : list A) :
  Permutation (fold_left (fun acc x => JSArray.insert f x acc) l acc) (acc ++ l).
Proof.
  revert acc. induction l as [|x l IH]; intros acc; cbn [fold_left].
  - rewrite app_nil_r. apply Permutation_refl.
  - eapply Permutation_trans; [apply IH|].
    eapply Permutation_trans;
      [apply Permutation_app_tail, insert_Permutation|].
    cbn [app]. apply Permutation_middle.
Qed.

Lemma rnd_one : rnd 1 emin = 1.
Proof.
  rewrite (rnd_canonical 1 emin) by (vm_compute; reflexivity).
  rewrite Z.sub_diag. reflexivity.
Qed.

(** The difference of two finite numbers has the sign of the exact
    difference: it is never rounded to zero. *)
Lemma sub_negative (x y : number) :
  wf x -> wf y -> is_finite x = true -> is_finite y = true ->
  lt (sub x y) (of_Z 0) = (ext x <? ext y).
Proof.
  intros Wx Wy Fx Fy. pose proof huge_pos as Hh.
  rewrite sub_add_opp.
  assert (Fo : is_finite (SFopp y) = true) by (destruct y; exact Fy).
  destruct (add_spec x (SFopp y) (proj1 Wx) (proj1 (SFopp_wf y Wy)) Fx Fo) as (W & E).
  rewrite SFopp_ext in E.
  rewrite (lt_ext _ _ W wf_0), ext_0, E.
  destruct (Z.ltb_spec (ext x) (ext y)) as [L|L].
  - apply Z.ltb_lt.
    pose proof (rnd_mono (ext x + - ext y) (-1) emin ltac:(lia)) as M.
    pose proof (rnd_opp 1 emin) as O. rewrite rnd_one in O.
    change (- (1)) with (-1) in O. unfold saturate. lia.
  - apply Z.ltb_ge.
    pose proof (rnd_mono 0 (ext x + - ext y) emin ltac:(lia)) as M.
    rewrite rnd_0 in M. unfold saturate. lia.
Qed.

Lemma rank_insert_sorted (x : AnalyzerIO.GovernanceHealth)
    (l : list AnalyzerIO.GovernanceHealth) :
  finiteScore x -> Forall finiteScore l -> StronglySorted scoredAbove l ->
  StronglySorted scoredAbove
    (JSArray.insert (fun a b => sub (AnalyzerIO.overallScore b) (AnalyzerIO.overallScore a))
                    x l).
Proof.
  intros (Wx & Fx) Fl S.
  induction l as [|y l IH]; cbn [JSArray.insert].
  - constructor; constructor.
  - inversion Fl as [|? ? (Wy & Fy) Fl']; subst.
    inversion S as [|? ? S' Hy]; subst.
    rewrite (sub_negative _ _ Wy Wx Fy Fx).
    destruct (Z.ltb_spec (ext (AnalyzerIO.overallScore y)) (ext (AnalyzerIO.overallScore x)))
      as [L|L].
    + constructor; [exact S|].
      constructor.
      * unfold scoredAbove. rewrite ge_ext by assumption. apply Z.leb_le. lia.
      * rewrite Forall_forall in Hy, Fl' |- *. intros z Hz.
        destruct (Fl' z Hz) as (Wz & _). pose proof (Hy z Hz) as Q.
        unfold scoredAbove in Q |- *. rewrite ge_ext in Q |- * by assumption.
        apply Z.leb_le in Q. apply Z.leb_le. lia.
    + constructor; [apply IH; assumption|].
      apply (Permutation_Forall (Permutation_sym (insert_Permutation _ x l))).
      constructor; [|exact Hy].
      unfold scoredAbove. rewrite ge_ext by assumption. apply Z.leb_le. lia.
Qed.

Lemma rank_acc_sorted (l acc : list AnalyzerIO.GovernanceHealth) :
  Forall finiteScore l -> Forall finiteScore acc -> StronglySorted scoredAbove acc ->
  StronglySorted scoredAbove
    (fold_left (fun acc x =>
                  JSArray.insert (fun a b => sub (AnalyzerIO.overallScore b)
                                                 (AnalyzerIO.overallScore a)) x acc)
               l acc).
Proof.
  revert acc. induction l as [|x l IH]; intros acc Fl Fa S; cbn [fold_left].
  - exact S.
  - inversion Fl as [|? ? Fx Fl']; subst.
    apply IH; [exact Fl'| |apply rank_insert_sorted; assumption].
    apply (Permutation_Forall (Permutation_sym (insert_Permutation _ x acc))).
    constructor; assumption.
Qed.

Lemma rank_insert_last (x : AnalyzerIO.GovernanceHealth)
    (l : list AnalyzerIO.GovernanceHealth) :
  finiteScore x -> Forall finiteScore l -> Forall (fun y => scoredAbove y x) l ->
  JSArray.insert (fun a b => sub (AnalyzerIO.overallScore b) (AnalyzerIO.overallScore a))
                 x l = l ++ [x].
Proof.
  intros (Wx & Fx) Fl Al.
  induction l as [|y l IH]; cbn [JSArray.insert app]; [reflexivity|].
  inversion Fl as [|? ? (Wy & Fy) Fl']; subst.
  inversion Al as [|? ? Ay Al']; subst.
  rewrite (sub_negative _ _ Wy Wx Fy Fx).
  unfold scoredAbove in Ay. rewrite ge_ext in Ay by assumption. apply Z.leb_le in Ay.
  destruct (Z.ltb_spec (ext (AnalyzerIO.overallScore y)) (ext (AnalyzerIO.overallScore x)));
    [lia|].
  rewrite IH by assumption. reflexivity.
Qed.

Lemma rank_acc_sorted_input (l acc : list AnalyzerIO.GovernanceHealth) :
  Forall finiteScore (acc ++ l) -> StronglySorted scoredAbove (acc ++ l) ->
  fold_left (fun acc x =>
               JSArray.insert (fun a b => sub (AnalyzerIO.overallScore b)
                                              (AnalyzerIO.overallScore a)) x acc)
            l acc = acc ++ l.
Proof.
  revert acc. induction l as [|x l IH]; intros acc F S; cbn [fold_left].
  - rewrite app_nil_r. reflexivity.
  - assert (E : acc ++ x :: l = (acc ++ [x]) ++ l)
      by (rewrite <- app_assoc; reflexivity).
    rewrite rank_insert_last.
    + rewrite E in F, S. rewrite (IH _ F S). symmetry. exact E.
    + apply Forall_app in F. destruct F as (_ & F). inversion F; assumption.
    + apply Forall_app in F. apply F.
    + clear IH E F. induction acc as [|y acc IH]; [constructor|].
      cbn [app] in S. inversion S as [|? ? S' Hy]; subst.
      constructor; [|exact (IH S')].
      rewrite Forall_forall in Hy. apply Hy, in_or_app. right. left. reflexivity.
Qed.

Lemma rank_insert_filter (s : number) (x : AnalyzerIO.GovernanceHealth)
    (l : list AnalyzerIO.GovernanceHealth) :
  wf s -> finiteScore x -> Forall finiteScore l -> StronglySorted scoredAbove l ->
  filter (sameScore s)
    (JSArray.insert (fun a b => sub (AnalyzerIO.overallScore b) (AnalyzerIO.overallScore a))
                    x l)
  = filter (sameScore s) l ++ (if sameScore s x then [x] else []).
Proof.
  intros Ws (Wx & Fx) Fl S.
  induction l as [|y l IH]; cbn [JSArray.insert].
  - cbn [filter app]. reflexivity.
  - inversion Fl as [|? ? (Wy & Fy) Fl']; subst.
    inversion S as [|? ? S' Hy]; subst.
    rewrite (sub_negative _ _ Wy Wx Fy Fx).
    destruct (Z.ltb_spec (ext (AnalyzerIO.overallScore y)) (ext (AnalyzerIO.overallScore x)))
      as [L|L].
    + change (filter (sameScore s) (x :: y :: l))
        with (if sameScore s x then x :: filter (sameScore s) (y :: l)
              else filter (sameScore s) (y :: l)).
      destruct (sameScore s x) eqn:Px.
      * assert (N : filter (sameScore s) (y :: l) = []).
        { unfold sameScore in Px. rewrite SFeqb_ext in Px by assumption.
          apply Z.eqb_eq in Px.
          assert (A : Forall (fun z => sameScore s z = false) (y :: l)).
          { constructor.
            - unfold sameScore. rewrite SFeqb_ext by assumption. apply Z.eqb_neq. lia.
            - rewrite Forall_forall in Hy, Fl' |- *. intros z Hz.
              destruct (Fl' z Hz) as (Wz & _). pose proof (Hy z Hz) as Q.
              unfold scoredAbove in Q. rewrite ge_ext in Q by assumption.
              apply Z.leb_le in Q.
              unfold sameScore. rewrite SFeqb_ext by assumption. apply Z.eqb_neq. lia. }
          clear - A. induction A as [|z zs Pz _ IHz]; [reflexivity|].
          cbn [filter]. rewrite Pz. exact IHz. }
        rewrite N. reflexivity.
      * rewrite app_nil_r. reflexivity.
    + cbn [filter]. rewrite (IH Fl' S').
      destruct (sameScore s y); reflexivity.
Qed.

Lemma rank_acc_filter (s : number) (l acc : list AnalyzerIO.GovernanceHealth) :
  wf s -> Forall finiteScore l -> Forall finiteScore acc ->
  StronglySorted scoredAbove acc ->
  filter (sameScore s)
    (fold_left (fun acc x =>
                  JSArray.insert (fun a b => sub (AnalyzerIO.overallScore b)
                                                 (AnalyzerIO.overallScore a)) x acc)
               l acc)
  = filter (sameScore s) acc ++ filter (sameScore s) l.
Proof.
  intros Ws. revert acc. induction l as [|x l IH]; intros acc Fl Fa S; cbn [fold_left filter].
  - rewrite app_nil_r. reflexivity.
  - inversion Fl as [|? ? Fx Fl']; subst.
    rewrite IH; [| exact Fl'
                 | apply (Permutation_Forall (Permutation_sym (insert_Permutation _ x acc)));
                   constructor; assumption
                 | apply rank_insert_sorted; assumption].
    rewrite (rank_insert_filter s x acc Ws Fx Fa S), <- app_assoc.
    destruct (sameScore s x); reflexivity.
Qed.

(** X12: on analyses whose overall scores are finite numbers, the ranking
    of [compareDAOs] is the stable sort by falling score: it returns the
    analyses it was given, each as often as it was given; every analysis is
    followed only by analyses whose score is not larger, so that the first
    one has the largest score; analyses of equal score keep the order in
    which they were given; and a list already in this order is returned as
    it is. *)
Theorem rank_sorted_permutation (analyses : list AnalyzerIO.GovernanceHealth) :
  Forall finiteScore analyses ->
  Permutation (AnalyzerIO.rank analyses) analyses /\
  StronglySorted scoredAbove (AnalyzerIO.rank analyses) /\
  (forall s, wf s ->
     filter (sameScore s) (AnalyzerIO.rank analyses) = filter (sameScore s) analyses) /\
  (StronglySorted scoredAbove analyses -> AnalyzerIO.rank analyses = analyses).
Proof.
  intros F. unfold AnalyzerIO.rank, JSArray.sort.
  split; [apply (sort_acc_Permutation _ analyses [])|].
  split; [apply rank_acc_sorted; [exact F|constructor|constructor]|].
  split.
  - intros s Ws.
    apply (rank_acc_filter s analyses [] Ws F); constructor.
  - intros S. apply (rank_acc_sorted_input analyses []); assumption.
Qed.

Lemma rank_sorted_permutation_witness :
  StronglySorted scoredAbove
    (AnalyzerIO.rank [AnalyzerIO.assemble scenarioB 0; AnalyzerIO.assemble scenarioA 0]).
Proof.
  apply (rank_sorted_permutation
           [AnalyzerIO.assemble scenarioB 0; AnalyzerIO.assemble scenarioA 0]).
  repeat constructor; try (vm_compute; reflexivity); vm_compute; discriminate.
Defined.

(** ** [analyzeDAO]: the cache and the platform check *)

Lemma string_app_assoc (a b c : string) : ((a ++ b) ++ c = a ++ (b ++ c))%string.
Proof. induction a as [|x a IH]; cbn; [reflexivity|rewrite IH; reflexivity]. Qed.

Lemma string_app_cancel_l (a b c : string) : (a ++ b = a ++ c)%string -> b = c.
Proof.
  induction a as [|x a IH]; cbn; intros H; [exact H|].
  injection H as H. exact (IH H).
Qed.

(** An entry is returned until its time to live is over, and not after. *)
Lemma cache_get_set_alive (cache : AnalyzerIO.CacheManager) (stored clock : Z)
    (key : string) (value : AnalyzerIO.GovernanceHealth) :
  clock <= stored + AnalyzerIO.stdTTL cache * 1000 ->
  AnalyzerIO.cache_get (AnalyzerIO.cache_set cache stored key value) clock key
  = Some value.
Proof.
  intros H. unfold AnalyzerIO.cache_get, AnalyzerIO.cache_set.
  cbn [AnalyzerIO.data AnalyzerIO.lookup]. rewrite String.eqb_refl.
  destruct (AnalyzerIO.stdTTL cache =? 0); [reflexivity|].
  destruct (Z.leb_spec clock (stored + AnalyzerIO.stdTTL cache * 1000)); [|lia].
  rewrite orb_true_r. reflexivity.
Qed.

Lemma cache_get_set_expired (cache : AnalyzerIO.CacheManager) (stored clock : Z)
    (key : string) (value : AnalyzerIO.GovernanceHealth) :
  0 < AnalyzerIO.stdTTL cache -> 0 <= stored ->
  stored + AnalyzerIO.stdTTL cache * 1000 < clock ->
  AnalyzerIO.cache_get (AnalyzerIO.cache_set cache stored key value) clock key = None.
Proof.
  intros T S H. unfold AnalyzerIO.cache_get, AnalyzerIO.cache_set.
  cbn [AnalyzerIO.data AnalyzerIO.lookup]. rewrite String.eqb_refl.
  destruct (Z.eqb_spec (AnalyzerIO.stdTTL cache) 0); [lia|].
  destruct (Z.eqb_spec (stored + AnalyzerIO.stdTTL cache * 1000) 0); [lia|].
  destruct (Z.leb_spec clock (stored + AnalyzerIO.stdTTL cache * 1000)); [lia|].
  reflexivity.
Qed.





(** ** Saturation *)

Lemma cap_saturated (x : number) :
  wf x -> ext (of_Z 100) <= ext x -> Math_min (of_Z 100) x = of_Z 100.
Proof.
  intros W H. unfold Math_min. rewrite (SFcompare_ext _ _ wf_100 W).
  destruct (Z.compare_spec (ext (of_Z 100)) (ext x)) as [Q|Q|Q];
    try reflexivity; [|lia].
  destruct x as [[|]| | |]; try reflexivity.
  vm_compute in Q. discriminate Q.
Qed.

Lemma scaled_saturated (x k c : number) :
  valid x -> wf k -> posConst c -> mul k c = of_Z 100 -> ge x k = true ->
  Math_min (of_Z 100) (mul x c) = of_Z 100.
Proof.
  intros V Wk (Vc & Fc & Pc) E G.
  assert (W : wf x) by (split; [exact V|exact (ge_not_nan_l _ _ G)]).
  rewrite ge_ext in G by assumption. apply Z.leb_le in G.
  destruct (mul_const_mono k x c Wk W Vc Fc Pc G) as (_ & Wm & M).
  rewrite E in M. apply cap_saturated; assumption.
Qed.

Lemma concentration_saturated (x : number) :
  valid x -> ge x (of_Z 100) = true ->
  Math_max (of_Z 0) (sub (of_Z 100) x) = of_Z 0.
Proof.
  intros V G. pose proof huge_pos as Hh. pose proof ext_100_lt_huge as H100.
  assert (W : wf x) by (split; [exact V|exact (ge_not_nan_l _ _ G)]).
  rewrite ge_ext in G by (assumption || exact wf_100). apply Z.leb_le in G.
  assert (P100 : 0 <= ext (of_Z 100)) by (vm_compute; discriminate).
  rewrite sub_add_opp.
  pose proof (SFopp_wf x W) as Wo. pose proof (SFopp_ext x) as Eo.
  pose proof (SFopp_wf _ wf_100) as Wo'. pose proof (SFopp_ext (of_Z 100)) as Eo'.
  assert (Ws : wf (add (of_Z 100) (SFopp x)))
    by (apply add_wf; (exact wf_100 || assumption || lia)).
  assert (M : ext (add (of_Z 100) (SFopp x)) <= ext (add (of_Z 100) (SFopp (of_Z 100)))).
  { apply add_mono; try assumption; try exact wf_100; lia. }
  change (add (of_Z 100) (SFopp (of_Z 100))) with (S754_zero false) in M.
  cbn [ext] in M.
  unfold Math_max. rewrite (SFcompare_ext _ _ wf_0 Ws), ext_0.
  destruct (Z.compare_spec 0 (ext (add (of_Z 100) (SFopp x)))) as [Q|Q|Q];
    try reflexivity; [|lia].
  destruct (add (of_Z 100) (SFopp x)) as [[|]| | |]; reflexivity.
Qed.

Lemma lt_false_of_ge (x k j : number) :
  valid x -> wf k -> wf j -> ext j <= ext k -> ge x k = true -> lt x j = false.
Proof.
  intros V Wk Wj L G.
  assert (W : wf x) by (split; [exact V|exact (ge_not_nan_l _ _ G)]).
  rewrite ge_ext in G by assumption. apply Z.leb_le in G.
  rewrite lt_ext by assumption. apply Z.ltb_ge. lia.
Qed.

Lemma gt_true_of_ge (x k j : number) :
  valid x -> wf k -> wf j -> ext j < ext k -> ge x k = true -> gt x j = true.
Proof.
  intros V Wk Wj L G.
  assert (W : wf x) by (split; [exact V|exact (ge_not_nan_l _ _ G)]).
  rewrite ge_ext in G by assumption. apply Z.leb_le in G.
  unfold gt. rewrite lt_ext by assumption. apply Z.ltb_lt. lia.
Qed.

Lemma saturation_constants :
  wf (of_Z 50) /\ wf (of_Z 4) /\ wf (of_Z 10) /\ wf (of_Z 20) /\ wf (of_Z 30) /\
  wf (of_Z 70) /\ wf (of_Z 3) /\
  mul (of_Z 50) (of_Z 2) = of_Z 100 /\ mul (of_Z 4) (of_Z 25) = of_Z 100 /\
  mul (of_Z 10) (of_Z 10) = of_Z 100 /\
  ext (of_Z 10) <= ext (of_Z 50) /\ ext (of_Z 20) <= ext (of_Z 50) /\
  ext (of_Z 20) <= ext (of_Z 100) /\ ext (of_Z 30) <= ext (of_Z 100) /\
  ext (of_Z 70) < ext (of_Z 100) /\ ext (of_Z 50) < ext (of_Z 100) /\
  ext (of_Z 3) < ext (of_Z 10).
Proof.
  repeat match goal with |- _ /\ _ => split end;
    try (vm_compute; reflexivity); try (vm_compute; discriminate); closed_wf.
Qed.

(** What the scorers, the detector and the recommendations read of a
    saturated input. *)
Lemma saturated_reads (m : DAOMetrics) :
  validMetrics m -> saturated m = true ->
  Math_min (of_Z 100) (mul (avgVoterTurnout m) (of_Z 2)) = of_Z 100 /\
  Math_min (of_Z 100) (delegateActivity m) = of_Z 100 /\
  Math_min (of_Z 100) (communityEngagement m) = of_Z 100 /\
  Math_max (of_Z 0) (sub (of_Z 100) (tokenConcentration m)) = of_Z 0 /\
  Math_min (of_Z 100) (mul (activeProposals m) (of_Z 25)) = of_Z 100 /\
  Math_min (of_Z 100) (mul (avgProposalDuration m) (of_Z 10)) = of_Z 100 /\
  gt (avgProposalDuration m) (of_Z 3) = true /\
  lt (avgVoterTurnout m) (of_Z 10) = false /\
  lt (avgVoterTurnout m) (of_Z 20) = false /\
  gt (tokenConcentration m) (of_Z 70) = true /\
  gt (tokenConcentration m) (of_Z 50) = true /\
  lt (delegateActivity m) (of_Z 20) = false /\
  lt (delegateActivity m) (of_Z 30) = false.
Proof.
  intros (_ & Vap & Vt & Vc & Vd & _ & Vp & _ & Ve) S.
  unfold saturated in S. rewrite !andb_true_iff in S.
  destruct S as (((((St & Sc) & Sd) & Se) & Sa) & Sp).
  destruct saturation_constants
    as (W50 & W4 & W10 & W20 & W30 & W70 & W3 & E2 & E25 & E10
        & L1 & L2 & L3 & L4 & L5 & L6 & L7).
  destruct posConst_factors as (P2 & P10 & _ & _ & P25).
  assert (Wd : wf (delegateActivity m))
    by (split; [exact Vd|exact (ge_not_nan_l _ _ Sd)]).
  assert (We : wf (communityEngagement m))
    by (split; [exact Ve|exact (ge_not_nan_l _ _ Se)]).
  pose proof Sd as Sd'. pose proof Se as Se'.
  rewrite ge_ext in Sd', Se' by (assumption || exact wf_100).
  apply Z.leb_le in Sd', Se'.
  split; [exact (scaled_saturated _ _ _ Vt W50 P2 E2 St)|].
  split; [exact (cap_saturated _ Wd Sd')|].
  split; [exact (cap_saturated _ We Se')|].
  split; [exact (concentration_saturated _ Vc Sc)|].
  split; [exact (scaled_saturated _ _ _ Vap W4 P25 E25 Sa)|].
  split; [exact (scaled_saturated _ _ _ Vp W10 P10 E10 Sp)|].
  split; [exact (gt_true_of_ge _ _ _ Vp W10 W3 L7 Sp)|].
  split; [exact (lt_false_of_ge _ _ _ Vt W50 W10 L1 St)|].
  split; [exact (lt_false_of_ge _ _ _ Vt W50 W20 L2 St)|].
  split; [exact (gt_true_of_ge _ _ _ Vc wf_100 W70 L5 Sc)|].
  split; [exact (gt_true_of_ge _ _ _ Vc wf_100 W50 L6 Sc)|].
  split; [exact (lt_false_of_ge _ _ _ Vd wf_100 W20 L3 Sd)|].
  exact (lt_false_of_ge _ _ _ Vd wf_100 W30 L4 Sd).
Qed.

(** X15: beyond their caps the inputs no longer matter.  Two inputs with a
    turnout of at least 50, a concentration, delegate activity and
    engagement of at least 100, at least 4 active proposals and a proposal
    duration of at least 10, which agree on the number of proposals, the
    success rate and the treasury health, get the same category scores, the
    same overall score, the same risks and the same recommendations. *)
Theorem saturated_inputs_analyse_alike (m1 m2 : DAOMetrics) :
  validMetrics m1 -> validMetrics m2 ->
  saturated m1 = true -> saturated m2 = true -> sameUncapped m1 m2 ->
  analysis m1 = analysis m2.
Proof.
  intros V1 V2 S1 S2 (Etp & Esr & Eth).
  destruct (saturated_reads m1 V1 S1)
    as (A1 & A2 & A3 & A4 & A5 & A6 & A7 & A8 & A9 & A10 & A11 & A12 & A13).
  destruct (saturated_reads m2 V2 S2)
    as (B1 & B2 & B3 & B4 & B5 & B6 & B7 & B8 & B9 & B10 & B11 & B12 & B13).
  unfold analysis. cbv zeta.
  rewrite !identifyRisks_app, !generateRecommendations_app.
  unfold calculateCategoryScores, calculateParticipationScore,
    calculateDecentralizationScore, calculateActivityScore,
    calculateTransparencyScore, calculateStabilityScore.
  cbv zeta.
  rewrite A1, A2, A3, A4, A5, A6, A7, A8, A9, A10, A11, A12, A13.
  rewrite B1, B2, B3, B4, B5, B6, B7, B8, B9, B10, B11, B12, B13.
  rewrite Etp, Esr, Eth. reflexivity.
Qed.

Lemma saturated_inputs_analyse_alike_witness :
  analysis (metricsOf (of_Z 25) (of_Z 4) (of_Z 50) (of_Z 100) (of_Z 100) (of_Z 75)
                      (of_Z 10) (of_Z 80) (of_Z 100))
  = analysis (metricsOf (of_Z 25) (of_Z 9) (of_Z 90) (of_Z 400) (of_Z 250) (of_Z 75)
                        (of_Z 30) (of_Z 80) (of_Z 1000)).
Proof.
  apply saturated_inputs_analyse_alike.
  - repeat split.
  - repeat split.
  - vm_compute. reflexivity.
  - vm_compute. reflexivity.
  - repeat split.
Defined.
